(** * Duration parsing and HTML main-content extraction

    A shallow embedding of
      - [YouTubeIntegration._parse_duration], [_duration_to_seconds] and the
        item loop of [_get_video_details] (youtube_integration.py), and
      - [ContentExtractor._extract_html_content] (content_extraction.py),
    together with the fragments of Python's [re], [str] and [int] and of the
    BeautifulSoup tree API that these functions call.

    Python strings are modelled as [string]: sequences of characters with code
    points below 256.  On that range [\d] is exactly ['0'..'9'] and the
    white-space class of [\s], [str.strip] and [str.split] is the twelve code
    points listed in [is_space].  Python integers are modelled as [Z]; [int]
    raises [ValueError] on a literal of more than 4300 digits, the default
    of the limit that the interpreter puts on such conversions. *)

From Stdlib Require Import Bool Arith ZArith List Ascii String Lia.
From Stdlib Require Import DecimalString DecimalPos DecimalN DecimalZ.
From Stdlib Require Import Permutation Sorted.
Import ListNotations.

Local Open Scope string_scope.
Local Open Scope Z_scope.

(* ------------------------------------------------------------------------- *)
(** ** Python values: exceptions, characters, [str] and [int] *)

Module Py.

Inductive exn : Type :=
| ValueError
| KeyError
| HTTPError
| AssertionError
| ParserRejectedMarkup.

(** Outcome of evaluating an expression that may raise. *)
Inductive result (A : Type) : Type :=
| Ok (a : A)
| Raise (e : exn).
Arguments Ok {A} a.
Arguments Raise {A} e.

Definition bind {A B} (r : result A) (f : A -> result B) : result B :=
  match r with
  | Ok a => f a
  | Raise e => Raise e
  end.

Notation "x <- r ;; k" := (bind r (fun x => k))
  (at level 61, r at next level, right associativity).

(** [try: r except Exception: h] *)
Definition try_except {A} (r : result A) (h : exn -> A) : A :=
  match r with
  | Ok a => a
  | Raise e => h e
  end.

Definition code (c : ascii) : nat := nat_of_ascii c.

(** [\d] / [str.isdecimal] on one character. *)
Definition is_digit (c : ascii) : bool :=
  ((48 <=? code c) && (code c <=? 57))%nat.

(** [\s] / [str.isspace] on one character: TAB LF VT FF CR, FS GS RS US,
    SPACE, NEL and NBSP. *)
Definition is_space (c : ascii) : bool :=
  (((9 <=? code c) && (code c <=? 13))
   || ((28 <=? code c) && (code c <=? 32))
   || (code c =? 133) || (code c =? 160))%nat.

Definition LF : ascii := ascii_of_nat 10.
Definition nl : string := String LF "".

Fixpoint all (p : ascii -> bool) (s : string) : bool :=
  match s with
  | EmptyString => true
  | String c s' => p c && all p s'
  end.

(** The longest prefix of [p] characters, what follows it, and [s[n:]]. *)
Fixpoint take_while (p : ascii -> bool) (s : string) : string :=
  match s with
  | String c s' => if p c then String c (take_while p s') else EmptyString
  | EmptyString => EmptyString
  end.

Fixpoint drop_while (p : ascii -> bool) (s : string) : string :=
  match s with
  | String c s' => if p c then drop_while p s' else s
  | EmptyString => EmptyString
  end.

Fixpoint drop (n : nat) (s : string) : string :=
  match n, s with
  | S n', String _ s' => drop n' s'
  | _, _ => s
  end.

(** [s.lstrip()], [s.rstrip()], [s.strip()] *)
Fixpoint lstrip (s : string) : string :=
  match s with
  | String c s' => if is_space c then lstrip s' else s
  | EmptyString => EmptyString
  end.

Fixpoint rstrip (s : string) : string :=
  match s with
  | EmptyString => EmptyString
  | String c s' =>
      match rstrip s' with
      | EmptyString => if is_space c then EmptyString else String c EmptyString
      | r => String c r
      end
  end.

Definition strip (s : string) : string := rstrip (lstrip s).

(** [s.split()]: the maximal runs of non-white-space characters.  [cur] is
    the run being read, in reverse. *)
Fixpoint split_from (cur : list ascii) (s : string) : list string :=
  match s with
  | EmptyString =>
      match cur with
      | [] => []
      | _ => [string_of_list_ascii (rev cur)]
      end
  | String c s' =>
      if is_space c then
        match cur with
        | [] => split_from [] s'
        | _ => string_of_list_ascii (rev cur) :: split_from [] s'
        end
      else split_from (c :: cur) s'
  end.

Definition split (s : string) : list string := split_from [] s.

(** [sep.join(l)] *)
Fixpoint join (sep : string) (l : list string) : string :=
  match l with
  | [] => ""
  | [x] => x
  | x :: rest => x ++ sep ++ join sep rest
  end.

(** [str(n)] for an integer.  The interpreter limits the digits that
    [str] produces as it limits those that [int] converts; the integers
    formatted here have at most that many digits. *)
Definition str (n : Z) : string := NilZero.string_of_int (Z.to_int n).

(** [format(n, "02d")]: sign-aware zero padding to a minimum width of two. *)
Definition format_02d (n : Z) : string :=
  let s := str n in
  if (String.length s <? 2)%nat then "0" ++ s else s.

(** Value of a run of decimal digits, most significant first. *)
Definition digit_value (c : ascii) : Z := Z.of_nat (code c) - 48.

Fixpoint digits_value (acc : Z) (s : string) : Z :=
  match s with
  | EmptyString => acc
  | String c s' => digits_value (10 * acc + digit_value c) s'
  end.

(** Body of a decimal literal: digits, with single underscores allowed
    between digits.  [prev] tells whether the previous character was a
    digit. *)
Fixpoint int_body (prev : bool) (acc : Z) (s : string) : option Z :=
  match s with
  | EmptyString => if prev then Some acc else None
  | String c s' =>
      if is_digit c then int_body true (10 * acc + digit_value c) s'
      else if (code c =? 95)%nat && prev then int_body false acc s'
      else None
  end.

(** The white space that [int] drops around a literal: TAB LF VT FF CR,
    SPACE, NEL and NBSP.  The separators FS GS RS US, which [str.strip]
    drops, are not accepted by [int]. *)
Definition is_int_space (c : ascii) : bool :=
  (((9 <=? code c) && (code c <=? 13)) || (code c =? 32)
   || (code c =? 133) || (code c =? 160))%nat.

Fixpoint rstrip_by (p : ascii -> bool) (s : string) : string :=
  match s with
  | EmptyString => EmptyString
  | String c s' =>
      match rstrip_by p s' with
      | EmptyString => if p c then EmptyString else String c EmptyString
      | r => String c r
      end
  end.

Definition int_strip (s : string) : string :=
  rstrip_by is_int_space (drop_while is_int_space s).

(** [sys.get_int_max_str_digits()]: the interpreter's default limit on the
    number of digits that [int] converts. *)
Definition max_str_digits : nat := 4300.

(** The digits of a literal; underscores and leading zeros apart, every
    digit counts towards the limit. *)
Fixpoint count_digits (s : string) : nat :=
  match s with
  | EmptyString => O
  | String c s' => ((if is_digit c then 1 else 0) + count_digits s')%nat
  end.

(** [int(s)] for a string [s], base ten: surrounding white space is
    dropped, one sign is allowed, and the literal has at most
    [max_str_digits] digits; anything else is a [ValueError]. *)
Definition int (s : string) : result Z :=
  let body (neg : bool) (t : string) :=
    match int_body false 0 t with
    | Some v =>
        if (max_str_digits <? count_digits t)%nat then Raise ValueError
        else Ok (if neg then - v else v)
    | None => Raise ValueError
    end in
  match int_strip s with
  | String "+" t => body false t
  | String "-" t => body true t
  | t => body false t
  end.

End Py.

(* ------------------------------------------------------------------------- *)
(** ** The fragment of Python's [re] used by the program

    A backtracking matcher in continuation-passing style: alternatives are
    tried in priority order (greedy first) and the first overall success
    wins, as in the [re] engine.  Repetition is only needed over character
    classes ([\d+], [\s*]). *)

Module Re.
Import Py.

Inductive regex : Type :=
| Eps                            (* the empty pattern *)
| Chr (c : ascii)                (* a literal character *)
| Cat (r1 r2 : regex)            (* r1 r2 *)
| Alt (r1 r2 : regex)            (* r1|r2 *)
| Opt (r : regex)                (* (?:r)? , greedy *)
| Star (p : ascii -> bool)       (* [p]* , greedy *)
| Plus (p : ascii -> bool)       (* [p]+ , greedy *)
| Grp (n : nat) (r : regex).     (* capturing group number n *)

(** Literal text as a pattern. *)
Fixpoint Lit (s : string) : regex :=
  match s with
  | EmptyString => Eps
  | String c EmptyString => Chr c
  | String c s' => Cat (Chr c) (Lit s')
  end.

(** Captured groups, most recent first. *)
Abbreviation groups := (list (nat * string)) (only parsing).

Fixpoint group (n : nat) (g : groups) : option string :=
  match g with
  | [] => None
  | (k, v) :: g' => if (k =? n)%nat then Some v else group n g'
  end.

(** The text consumed between a position [s] and a later position [s']. *)
Definition consumed (s s' : string) : string :=
  substring 0 (String.length s - String.length s') s.

Definition orelse {A} (x y : option A) : option A :=
  match x with
  | Some a => Some a
  | None => y
  end.

(** Greedy [p*]: take as many [p] characters as possible, giving one back
    at a time while the continuation fails. *)
Fixpoint star {R} (p : ascii -> bool) (s : string)
         (k : string -> option R) : option R :=
  match s with
  | String c s' => if p c then orelse (star p s' k) (k s) else k s
  | EmptyString => k s
  end.

Fixpoint run {R} (r : regex) (s : string) (g : groups)
         (k : string -> groups -> option R) : option R :=
  match r with
  | Eps => k s g
  | Chr c =>
      match s with
      | String c' s' => if Ascii.eqb c c' then k s' g else None
      | EmptyString => None
      end
  | Cat r1 r2 => run r1 s g (fun s' g' => run r2 s' g' k)
  | Alt r1 r2 => orelse (run r1 s g k) (run r2 s g k)
  | Opt r1 => orelse (run r1 s g k) (k s g)
  | Star p => star p s (fun s' => k s' g)
  | Plus p =>
      match s with
      | String c s' => if p c then star p s' (fun s'' => k s'' g) else None
      | EmptyString => None
      end
  | Grp n r1 => run r1 s g (fun s' g' => k s' ((n, consumed s s') :: g'))
  end.

(** A match object: the captured groups and the text after the match. *)
Record Match : Type := { m_groups : groups; m_rest : string }.

(** [re.match(r, s)]: anchored at the start of [s] only. *)
Definition match_ (r : regex) (s : string) : option Match :=
  run r s [] (fun s' g => Some {| m_groups := g; m_rest := s' |}).

(** [re.fullmatch(r, s)]: the match must also reach the end of [s]. *)
Definition fullmatch (r : regex) (s : string) : option Match :=
  run r s [] (fun s' g =>
    match s' with
    | EmptyString => Some {| m_groups := g; m_rest := s' |}
    | _ => None
    end).

(** [r.search(s)]: the leftmost position at which [r] matches. *)
Fixpoint search (r : regex) (s : string) : option Match :=
  match match_ r s with
  | Some m => Some m
  | None =>
      match s with
      | String _ s' => search r s'
      | EmptyString => None
      end
  end.

(** [re.sub(r, repl, s)] for a pattern that cannot match the empty string:
    leftmost non-overlapping matches are replaced by [repl].  Every match
    consumes a character, so [length s] rounds are enough. *)
Fixpoint sub_fuel (fuel : nat) (r : regex) (repl s : string) : string :=
  match fuel with
  | O => s
  | S fuel' =>
      match s with
      | EmptyString => EmptyString
      | String c s' =>
          match match_ r s with
          | Some m =>
              if (String.length (m_rest m) <? String.length s)%nat
              then repl ++ sub_fuel fuel' r repl (m_rest m)
              else String c (sub_fuel fuel' r repl s')
          | None => String c (sub_fuel fuel' r repl s')
          end
      end
  end.

Definition sub (r : regex) (repl s : string) : string :=
  sub_fuel (String.length s) r repl s.

End Re.

(* ------------------------------------------------------------------------- *)
(** ** youtube_integration.py *)

Module YouTubeIntegration.
Import Py Re.

(** The object: [self.api_key], [self.base_url]. *)
Record t : Type := { api_key : option string; base_url : string }.

(** [__init__] *)
Definition init (api_key : option string) : t :=
  {| api_key := api_key;
     base_url := "https://www.googleapis.com/youtube/v3" |}.

(** [r'PT(?:(\d+)H)?(?:(\d+)M)?(?:(\d+)S)?'] *)
Definition duration_re : regex :=
  Cat (Lit "PT")
 (Cat (Opt (Cat (Grp 1 (Plus is_digit)) (Chr "H")))
 (Cat (Opt (Cat (Grp 2 (Plus is_digit)) (Chr "M")))
      (Opt (Cat (Grp 3 (Plus is_digit)) (Chr "S"))))).

(** [int(match.group(n) or 0)]: an absent (or empty) group counts as 0. *)
Definition int_group (n : nat) (m : Match) : result Z :=
  match group n (m_groups m) with
  | None | Some EmptyString => Ok 0
  | Some v => int v
  end.

(** The three local variables [hours], [minutes], [seconds] that both
    functions compute from a match object. *)
Definition fields (m : Match) : result (Z * Z * Z) :=
  hours <- int_group 1 m ;;
  minutes <- int_group 2 m ;;
  seconds <- int_group 3 m ;;
  Ok (hours, minutes, seconds).

Definition _parse_duration (self : t) (duration : string) : result string :=
  match match_ duration_re duration with
  | Some m =>
      hours <- int_group 1 m ;;
      minutes <- int_group 2 m ;;
      seconds <- int_group 3 m ;;
      if 0 <? hours
      then Ok (str hours ++ ":" ++ format_02d minutes ++ ":" ++ format_02d seconds)
      else Ok (str minutes ++ ":" ++ format_02d seconds)
  | None => Ok "Unknown"
  end.

Definition _duration_to_seconds (self : t) (duration : string) : result Z :=
  match match_ duration_re duration with
  | Some m =>
      hours <- int_group 1 m ;;
      minutes <- int_group 2 m ;;
      seconds <- int_group 3 m ;;
      Ok (hours * 3600 + minutes * 60 + seconds)
  | None => Ok 0
  end.

(** One element of [data["items"]], as far as the loop reads it; [None]
    stands for a missing key. *)
Record stats : Type := { viewCount : option string; likeCount : option string }.

Record item : Type := {
  contentDetails_duration : option string;  (* item["contentDetails"]["duration"] *)
  statistics : option stats                 (* item["statistics"] *)
}.

Record detail : Type := {
  duration : string;
  duration_seconds : Z;
  view_count : Z;
  like_count : Z
}.

(** [d[key]] and [d.get(key, default)] *)
Definition getitem {A} (o : option A) : result A :=
  match o with
  | Some a => Ok a
  | None => Raise KeyError
  end.

Definition get {A} (o : option A) (default : A) : A :=
  match o with
  | Some a => a
  | None => default
  end.

(** Body of the [for item in ...] loop of [_get_video_details]. *)
Definition item_detail (self : t) (it : item) : result detail :=
  raw <- getitem (contentDetails_duration it) ;;
  duration <- _parse_duration self raw ;;
  st <- getitem (statistics it) ;;
  let view_count := get (viewCount st) "0" in
  let like_count := get (likeCount st) "0" in
  secs <- _duration_to_seconds self duration ;;
  vc <- int view_count ;;
  lc <- int like_count ;;
  Ok {| duration := duration; duration_seconds := secs;
        view_count := vc; like_count := lc |}.

Fixpoint for_items (self : t) (items : list item) (details : list detail)
  : result (list detail) :=
  match items with
  | [] => Ok details
  | it :: rest =>
      d <- item_detail self it ;;
      for_items self rest (details ++ [d])
  end.

Definition unknown_detail : detail :=
  {| duration := "Unknown"; duration_seconds := 0;
     view_count := 0; like_count := 0 |}.

(** [_get_video_details]; [response] is the outcome of the HTTP request
    down to [data.get("items", [])]. *)
Definition _get_video_details (self : t) (video_ids : list string)
           (response : result (list item)) : list detail :=
  try_except (items <- response ;; for_items self items [])
             (fun _ => repeat unknown_detail (List.length video_ids)).

End YouTubeIntegration.


(* ------------------------------------------------------------------------- *)
(** ** The BeautifulSoup tree, as far as the extractor uses it *)

Module Bs4.
Import Py Re.

(** An attribute value: a string, or a list of tokens for a multi-valued
    attribute such as [class]. *)
Inductive attr_value : Type :=
| Str (s : string)
| Multi (l : list string).

(** A page element.  [Text] is a string that [get_text] returns
    (NavigableString, CData); [Other] is any string it skips (comments,
    declarations, strings owned by script/style/template containers).  The
    [id] of a tag stands for the identity of the Python object. *)
#[local] Unset Elimination Schemes.
Inductive node : Type :=
| Text (s : string)
| Other (s : string)
| Tag (id : nat) (name : string) (attrs : list (string * attr_value))
      (contents : list node).
#[local] Set Elimination Schemes.

(** Structural induction on trees: a property holds of every node when it
    holds of strings and passes from the contents of a tag to the tag. *)
Section NodeInduction.
Variable P : node -> Prop.
Hypothesis HText : forall s, P (Text s).
Hypothesis HOther : forall s, P (Other s).
Hypothesis HTag : forall i nm a cs, Forall P cs -> P (Tag i nm a cs).

Fixpoint node_ind (n : node) : P n :=
  match n with
  | Text s => HText s
  | Other s => HOther s
  | Tag i nm a cs =>
      HTag i nm a cs
        ((fix all_contents (l : list node) : Forall P l :=
            match l with
            | [] => Forall_nil P
            | c :: l' => Forall_cons c (node_ind c) (all_contents l')
            end) cs)
  end.
End NodeInduction.

(** The contents of the [BeautifulSoup] object. *)
Definition soup : Type := list node.

(** [tag.descendants]: every element and string below, in document order. *)
Fixpoint descendants (n : node) : list node :=
  match n with
  | Tag _ _ _ cs => flat_map (fun c => c :: descendants c) cs
  | _ => []
  end.

Definition soup_descendants (s : soup) : list node :=
  flat_map (fun c => c :: descendants c) s.

Definition has_name (names : list string) (n : node) : bool :=
  match n with
  | Tag _ nm _ _ => existsb (String.eqb nm) names
  | _ => false
  end.

(** [attrs.get(key)]; a repeated attribute keeps its last value. *)
Fixpoint get_attr (key : string) (attrs : list (string * attr_value))
  : option attr_value :=
  match attrs with
  | [] => None
  | (k, v) :: rest =>
      match get_attr key rest with
      | Some v' => Some v'
      | None => if String.eqb k key then Some v else None
      end
  end.

Definition is_some {A} (o : option A) : bool :=
  match o with
  | Some _ => true
  | None => false
  end.

(** Matching an attribute value against a compiled pattern: a multi-valued
    attribute matches when one of its tokens does, or when the tokens joined
    by single spaces do. *)
Definition value_matches (r : regex) (v : attr_value) : bool :=
  match v with
  | Str s => is_some (search r s)
  | Multi l =>
      existsb (fun tok => is_some (search r tok)) l
      || is_some (search r (join " " l))
  end.

Definition class_matches (r : regex) (n : node) : bool :=
  match n with
  | Tag _ _ attrs _ =>
      match get_attr "class" attrs with
      | Some v => value_matches r v
      | None => false
      end
  | _ => false
  end.

(** [soup(names)], i.e. [find_all]: all matching elements in document
    order. *)
Definition find_all (names : list string) (s : soup) : list node :=
  filter (has_name names) (soup_descendants s).

(** [soup.find(name)] and [soup.find(name, class_=r)]: the first match. *)
Definition find (name : string) (s : soup) : option node :=
  List.find (has_name [name]) (soup_descendants s).

Definition find_class (name : string) (r : regex) (s : soup) : option node :=
  List.find (fun n => has_name [name] n && class_matches r n)
            (soup_descendants s).

(** [tag.decompose()]: the element with identity [i] leaves the tree with
    everything below it. *)
Fixpoint prune (i : nat) (n : node) : list node :=
  match n with
  | Tag j nm a cs =>
      if (j =? i)%nat then [] else [Tag j nm a (flat_map (prune i) cs)]
  | _ => [n]
  end.

Definition decompose (n : node) (s : soup) : soup :=
  match n with
  | Tag i _ _ _ => flat_map (prune i) s
  | _ => s
  end.

(** [tag._all_strings(strip)] and [tag.get_text(separator, strip)] *)
Definition strings (n : node) : list string :=
  flat_map (fun d => match d with Text s => [s] | _ => [] end)
           (descendants n).

Definition nonempty (s : string) : bool :=
  match s with
  | EmptyString => false
  | _ => true
  end.

Definition _all_strings (strip : bool) (n : node) : list string :=
  if strip then filter nonempty (map Py.strip (strings n)) else strings n.

Definition get_text (separator : string) (strip : bool) (n : node) : string :=
  join separator (_all_strings strip n).

End Bs4.

(* ------------------------------------------------------------------------- *)
(** ** [BeautifulSoup(html, 'html.parser')]

    The library call that [_extract_html_content] starts with, modelled on
    a fragment of HTML on which the tokenizer of the standard library
    ([html.parser], as the tree builder configures it) and the tree builder
    of BeautifulSoup are followed step by step:
      - text, in which [<] is not followed by a letter, [/], [!] or [?], and
        [&] is not followed by a letter or [#];
      - start tags [<name attr ...>] and [<name attr ... />], with names of
        ASCII letters and digits (attribute names also of [-], [_], [:] and
        [.]), blanks (space, tab, line feed) before every attribute, and
        attributes of the form [name], [name="value"] or [name='value']
        without [&] in the value;
      - end tags [</name>];
      - comments [<!--text-->] whose text does not contain [--] and does
        not start with [>] or [->];
      - declarations [<!DOCTYPE ...>];
      - the content of script and style elements, when the first [</] after
        the start tag is the end tag of the element;
      - marked sections [<![ ... ], as far as the tokenizer rejects them.
    On any other markup (character references, processing instructions,
    tags left open at the end of the input, ...) the model gives no answer:
    [tokens] and [BeautifulSoup] return [None].  The properties of the
    extractor are proved for every tree, whatever builder produced it. *)

Module HtmlParser.
Import Py Re Bs4.

(** What the tokenizer reports, one constructor for each handler of the
    tree builder that it calls. *)
Inductive token : Type :=
| TData (s : string)
| TComment (s : string)
| TDecl (s : string)
| TStart (name : string) (a : list (string * option string))
| TStartEnd (name : string) (a : list (string * option string))
| TEnd (name : string).

Definition lower_char (c : ascii) : ascii :=
  if ((65 <=? code c) && (code c <=? 90))%nat
  then ascii_of_nat (code c + 32) else c.

Fixpoint lower (s : string) : string :=
  match s with
  | EmptyString => EmptyString
  | String c s' => String (lower_char c) (lower s')
  end.

Definition is_alpha (c : ascii) : bool :=
  let n := code (lower_char c) in ((97 <=? n) && (n <=? 122))%nat.

(** [s.find(needle)], compared after [f]: the text before and after the
    first occurrence. *)
Fixpoint split_at (f : string -> string) (needle s : string)
  : option (string * string) :=
  if String.prefix (f needle) (f s)
  then Some (EmptyString, drop (String.length needle) s)
  else match s with
       | EmptyString => None
       | String c s' =>
           match split_at f needle s' with
           | Some (a, b) => Some (String c a, b)
           | None => None
           end
       end.

Definition char_in (cs : string) (c : ascii) : bool :=
  existsb (Ascii.eqb c) (list_ascii_of_string cs).

Definition is_quote (c : ascii) : bool :=
  ((code c =? 34) || (code c =? 39))%nat.

Definition mem (x : string) (l : list string) : bool := existsb (String.eqb x) l.

(** The characters of the names that the model reads, and the blanks
    between the parts of a tag. *)
Definition is_name_char (c : ascii) : bool := is_alpha c || is_digit c.
Definition is_attr_char (c : ascii) : bool := is_name_char c || char_in "-_:." c.
Definition is_declname_char (c : ascii) : bool :=
  is_name_char c || char_in "-_." c.
Definition is_blank (c : ascii) : bool :=
  ((code c =? 32) || (code c =? 10) || (code c =? 9))%nat.

Definition starts_blank (s : string) : bool :=
  match s with
  | String c _ => is_blank c
  | EmptyString => false
  end.

Definition tag_attrs : Type := list (string * option string).

(** The attributes of a start tag, from the end of its name: they are
    returned with the self-closing flag and the input after the closing
    [>].  A name without [=] has no value. *)
Fixpoint attributes (fuel : nat) (s : string) (acc : tag_attrs)
  : option (tag_attrs * bool * string) :=
  match fuel with
  | O => None
  | S fuel' =>
      let s1 := drop_while is_blank s in
      match s1 with
      | String ">" rest => Some (acc, false, rest)
      | String "/" (String ">" rest) => Some (acc, true, rest)
      | String c _ =>
          if is_alpha c && starts_blank s then
            let name := lower (take_while is_attr_char s1) in
            match drop_while is_attr_char s1 with
            | String "=" (String q s3) =>
                if is_quote q then
                  let inside := fun c => negb (Ascii.eqb q c) in
                  let v := take_while inside s3 in
                  match drop_while inside s3 with
                  | String _ s4 =>
                      if all (fun c => negb (Ascii.eqb c "&")) v
                      then attributes fuel' s4 (acc ++ [(name, Some v)])%list
                      else None
                  | EmptyString => None
                  end
                else None
            | s2 => attributes fuel' s2 (acc ++ [(name, None)])%list
            end
          else None
      | EmptyString => None
      end
  end.

(** [CDATA_CONTENT_ELEMENTS] *)
Definition raw_text_elements : list string := ["script"; "style"].

(** The keywords with which [parse_marked_section] goes on. *)
Definition marked_section_keywords : list string :=
  ["temp"; "cdata"; "ignore"; "include"; "rcdata"; "if"; "else"; "endif"].

(** [parse_marked_section], on the input after [<![]: [_scan_name] reads
    the keyword; a missing or unknown keyword is an [AssertionError]. *)
Definition marked_section (r : string) : option (result (list token)) :=
  match r with
  | EmptyString => None
  | String c _ =>
      if is_alpha c then
        match drop_while is_space (drop_while is_declname_char r) with
        | EmptyString => None
        | _ =>
            if mem (lower (take_while is_declname_char r))
                   marked_section_keywords
            then None else Some (Raise AssertionError)
        end
      else Some (Raise AssertionError)
  end.

Definition nonempty_data (s : string) : list token :=
  match s with
  | EmptyString => []
  | _ => [TData s]
  end.

Definition is_text_char (c : ascii) : bool := negb (char_in "<&" c).

(** The calls that [feed] and [close] make on a document, in order. *)
Fixpoint tokens (fuel : nat) (s : string) : option (result (list token)) :=
  match fuel with
  | O =>
      match s with
      | EmptyString => Some (Ok [])
      | _ => None
      end
  | S fuel' =>
      let emit (tks : list token) (rest : string) :=
        match tokens fuel' rest with
        | Some (Ok l) => Some (Ok (tks ++ l)%list)
        | other => other
        end in
      match s with
      | EmptyString => Some (Ok [])
      | String "<" r =>
          if String.prefix "!--" r then
            match split_at id "--" (drop 3 r) with
            | Some (body, String ">" rest) =>
                if String.prefix ">" body || String.prefix "->" body
                then None else emit [TComment body] rest
            | _ => None
            end
          else if String.prefix "![" r then marked_section (drop 2 r)
          else if String.prefix "!doctype" (lower (substring 0 8 r)) then
            match split_at id ">" (drop 8 r) with
            | Some (d, rest) => emit [TDecl (substring 1 7 r ++ d)] rest
            | None => None
            end
          else if String.prefix "!" r || String.prefix "?" r then None
          else
            match r with
            | String "/" r' =>
                match r', drop_while is_name_char r' with
                | String c _, String ">" rest =>
                    if is_alpha c
                    then emit [TEnd (lower (take_while is_name_char r'))] rest
                    else None
                | _, _ => None
                end
            | String c _ =>
                if is_alpha c then
                  let name := lower (take_while is_name_char r) in
                  match attributes (String.length r)
                                   (drop_while is_name_char r) [] with
                  | Some (a, true, rest) => emit [TStartEnd name a] rest
                  | Some (a, false, rest) =>
                      if mem name raw_text_elements then
                        match split_at id "</" rest with
                        | Some (body, after) =>
                            if String.prefix (name ++ ">") (lower after)
                            then emit (TStart name a :: nonempty_data body
                                         ++ [TEnd name])%list
                                      (drop (S (String.length name)) after)
                            else None
                        | None => None
                        end
                      else emit [TStart name a] rest
                  | None => None
                  end
                else emit [TData "<"] r
            | EmptyString => Some (Ok [TData "<"])
            end
      | String "&" r =>
          match r with
          | String c _ =>
              if is_alpha c || Ascii.eqb c "#" then None
              else emit [TData "&"] r
          | EmptyString => Some (Ok [TData "&"])
          end
      | _ => emit [TData (take_while is_text_char s)]
                  (drop_while is_text_char s)
      end
  end.

(** An element whose start tag has been read and whose end tag has not. *)
Record frame : Type := {
  f_id : nat;
  f_name : string;
  f_attrs : list (string * attr_value);
  f_rev : list node            (* contents read so far, last first *)
}.

(** The builder: the next free identity, the text collected since the last
    tag ([current_data]), the open elements (innermost first), the names in
    [already_closed_empty_element], and the top-level contents read so far
    (last first). *)
Record builder : Type := {
  next_id : nat;
  current_data : list string;
  tagStack : list frame;
  already_closed : list string;
  top_rev : list node
}.

Definition set_data (d : list string) (b : builder) : builder :=
  {| next_id := next_id b; current_data := d; tagStack := tagStack b;
     already_closed := already_closed b; top_rev := top_rev b |}.

Definition set_stack (st : list frame) (b : builder) : builder :=
  {| next_id := next_id b; current_data := current_data b; tagStack := st;
     already_closed := already_closed b; top_rev := top_rev b |}.

Definition set_closed (l : list string) (b : builder) : builder :=
  {| next_id := next_id b; current_data := current_data b;
     tagStack := tagStack b; already_closed := l; top_rev := top_rev b |}.

Definition empty_element_tags : list string :=
  ["area"; "base"; "br"; "col"; "embed"; "hr"; "img"; "input"; "keygen";
   "link"; "menuitem"; "meta"; "param"; "source"; "track"; "wbr";
   "basefont"; "bgsound"; "command"; "frame"; "image"; "isindex"; "nextid";
   "spacer"].
Definition string_containers : list string :=
  ["rt"; "rp"; "style"; "script"; "template"].
Definition preserve_whitespace_tags : list string := ["pre"; "textarea"].

(** [cdata_list_attributes]: the attributes whose value is a list of
    tokens, for every element and for particular ones. *)
Definition multi_valued_attributes : list string :=
  ["class"; "accesskey"; "dropzone"].
Definition tag_multi_valued_attributes : list (string * list string) :=
  [("a", ["rel"; "rev"]); ("link", ["rel"; "rev"]); ("td", ["headers"]);
   ("th", ["headers"]); ("form", ["accept-charset"]);
   ("object", ["archive"]); ("area", ["rel"]); ("icon", ["sizes"]);
   ("iframe", ["sandbox"]); ("output", ["for"])].

Definition is_ascii_space (c : ascii) : bool :=
  ((code c =? 32) || (code c =? 10) || (code c =? 9)
   || (code c =? 12) || (code c =? 13))%nat.

(** [object_was_parsed]: the node becomes the last child of the innermost
    open element. *)
Definition attach (n : node) (b : builder) : builder :=
  match tagStack b with
  | [] => {| next_id := next_id b; current_data := current_data b;
             tagStack := []; already_closed := already_closed b;
             top_rev := n :: top_rev b |}
  | f :: fs =>
      set_stack ({| f_id := f_id f; f_name := f_name f;
                    f_attrs := f_attrs f; f_rev := n :: f_rev f |} :: fs) b
  end.

Definition inside (names : list string) (b : builder) : bool :=
  existsb (fun f => mem (f_name f) names) (tagStack b).

(** The classes of the strings of a tree. *)
Inductive string_class : Type := NavigableString | Comment | Doctype.

(** [endData(containerClass)]: the collected text becomes one string of the
    tree; a string of ASCII blanks (the empty string too) shrinks to one
    blank outside pre and textarea; a plain string inside a string container
    (script, style, template, rt, rp) takes the class of the container. *)
Definition endData (cls : string_class) (b : builder) : builder :=
  match current_data b with
  | [] => b
  | chunks =>
      let d := String.concat EmptyString chunks in
      let d' :=
        if all is_ascii_space d && negb (inside preserve_whitespace_tags b)
        then (if existsb (Ascii.eqb LF) (list_ascii_of_string d)
              then nl else " ")
        else d in
      let plain :=
        match cls with
        | NavigableString => negb (inside string_containers b)
        | _ => false
        end in
      attach (if plain then Text d' else Other d') (set_data [] b)
  end.

Definition handle_data (s : string) (b : builder) : builder :=
  set_data (current_data b ++ [s]) b.

Definition pushTag (name : string) (a : list (string * attr_value))
           (b : builder) : builder :=
  {| next_id := S (next_id b); current_data := current_data b;
     tagStack := {| f_id := next_id b; f_name := name; f_attrs := a;
                    f_rev := [] |} :: tagStack b;
     already_closed := already_closed b; top_rev := top_rev b |}.

Definition popTag (b : builder) : builder :=
  match tagStack b with
  | [] => b
  | f :: fs =>
      attach (Tag (f_id f) (f_name f) (f_attrs f) (rev (f_rev f)))
             (set_stack fs b)
  end.

(** [_popToTag]: close elements up to and including the innermost open
    [name]; nothing happens when no such element is open. *)
Fixpoint pop_until (fuel : nat) (name : string) (b : builder) : builder :=
  match fuel, tagStack b with
  | S fuel', f :: _ =>
      if String.eqb (f_name f) name then popTag b
      else pop_until fuel' name (popTag b)
  | _, _ => b
  end.

Definition _popToTag (name : string) (b : builder) : builder :=
  if inside [name] b then pop_until (List.length (tagStack b)) name b else b.

(** The attribute dictionary of a start tag: a repeated attribute keeps its
    first place and takes its last value; a missing value is the empty
    string. *)
Fixpoint dict_put (k v : string) (d : list (string * string))
  : list (string * string) :=
  match d with
  | [] => [(k, v)]
  | (k', v') :: d' =>
      if String.eqb k' k then (k, v) :: d' else (k', v') :: dict_put k v d'
  end.

Definition attr_dict (a : tag_attrs) : list (string * string) :=
  fold_left (fun d kv => dict_put (fst kv)
                           (match snd kv with Some v => v | None => "" end) d)
            a [].

Definition tag_specific (name : string) : list string :=
  match List.find (fun kv => String.eqb (fst kv) name)
                  tag_multi_valued_attributes with
  | Some kv => snd kv
  | None => []
  end.

(** [_replace_cdata_list_attribute_values] *)
Definition convert_attr (name : string) (kv : string * string)
  : string * attr_value :=
  let (k, v) := kv in
  (k, if mem k multi_valued_attributes || mem k (tag_specific name)
      then Multi (split v) else Str v).

Fixpoint remove_first (x : string) (l : list string) : list string :=
  match l with
  | [] => []
  | y :: l' => if String.eqb y x then l' else y :: remove_first x l'
  end.

(** The handlers of the tree builder. *)
Definition soup_handle_endtag (name : string) (b : builder) : builder :=
  _popToTag name (endData NavigableString b).

Definition handle_starttag (name : string) (a : tag_attrs)
           (handle_empty_element : bool) (b : builder) : builder :=
  let b1 := pushTag name (map (convert_attr name) (attr_dict a))
                    (endData NavigableString b) in
  if mem name empty_element_tags && handle_empty_element then
    let b2 := soup_handle_endtag name b1 in
    set_closed (already_closed b2 ++ [name]) b2
  else b1.

Definition handle_endtag (name : string) (b : builder) : builder :=
  if mem name (already_closed b)
  then set_closed (remove_first name (already_closed b)) b
  else soup_handle_endtag name b.

Definition handle (b : builder) (tk : token) : builder :=
  match tk with
  | TData s => handle_data s b
  | TComment s =>
      endData Comment (handle_data s (endData NavigableString b))
  | TDecl s =>
      endData Doctype (handle_data (drop 8 s) (endData NavigableString b))
  | TStart name a => handle_starttag name a true b
  | TStartEnd name a => handle_endtag name (handle_starttag name a false b)
  | TEnd name => handle_endtag name b
  end.

Fixpoint close_all (fuel : nat) (b : builder) : builder :=
  match fuel, tagStack b with
  | S fuel', _ :: _ => close_all fuel' (popTag b)
  | _, _ => b
  end.

(** The tree that the builder makes of the calls. *)
Definition build (tks : list token) : soup :=
  let b0 := {| next_id := O; current_data := []; tagStack := [];
               already_closed := []; top_rev := [] |} in
  let b1 := endData NavigableString (fold_left handle tks b0) in
  rev (top_rev (close_all (List.length (tagStack b1)) b1)).

(** [BeautifulSoup(html, 'html.parser')]: the tree; the exception
    [ParserRejectedMarkup], into which the tree builder turns an
    [AssertionError] of the tokenizer; or [None] for markup outside the
    model. *)
Definition BeautifulSoup (html : string) : option (result soup) :=
  match tokens (String.length html) html with
  | Some (Ok tks) => Some (Ok (build tks))
  | Some (Raise _) => Some (Raise ParserRejectedMarkup)
  | None => None
  end.

End HtmlParser.

(* ------------------------------------------------------------------------- *)
(** ** content_extraction.py *)

Module ContentExtractor.
Import Py Re Bs4 HtmlParser.

(** The object: [self.session], an HTTP client created with a timeout. *)
Record t : Type := { session_timeout : Z }.

(** [__init__] *)
Definition init : t := {| session_timeout := 30 |}.

Record metadata : Type := {
  source : string;
  title : string;
  word_count : Z;
  extraction_method : string
}.

Record extracted : Type := {
  type_ : string;
  content : string;
  meta : metadata
}.

(** [re.compile(r'content|article|main')] *)
Definition class_re : regex :=
  Alt (Lit "content") (Alt (Lit "article") (Lit "main")).

(** [r'\n\s*\n'] *)
Definition blank_lines_re : regex :=
  Cat (Chr LF) (Cat (Star is_space) (Chr LF)).

(** [for script in soup(["script", "style"]): script.decompose()] *)
Definition remove_scripts (s : soup) : soup :=
  fold_left (fun acc script => decompose script acc)
            (find_all ["script"; "style"] s) s.

(** The selection of the text to extract, on the tree left by
    [remove_scripts]. *)
Definition main_content (s : soup) : option node :=
  orelse (find "main" s)
         (orelse (find "article" s) (find_class "div" class_re s)).

Definition raw_content (s : soup) : string :=
  match main_content s with
  | Some m => get_text nl true m
  | None =>
      match find "body" s with
      | Some body => get_text nl true body
      | None => ""
      end
  end.

Definition clean (content : string) : string :=
  strip (sub blank_lines_re (nl ++ nl) content).

Definition title_text (s : soup) : string :=
  match find "title" s with
  | Some title => strip (get_text "" false title)
  | None => "Untitled"
  end.

(** The body of [_extract_html_content] after parsing. *)
Definition extract_soup (parsed : soup) (url : string) : extracted :=
  let soup := remove_scripts parsed in
  let title_text := title_text soup in
  let content := clean (raw_content soup) in
  {| type_ := "article";
     content := content;
     meta := {| source := url;
                title := title_text;
                word_count := Z.of_nat (List.length (split content));
                extraction_method := "html_parser" |} |}.

(** [_extract_html_content]: the exception of the parser is not caught
    here (the caller, [extract_from_url], catches it); [None] where the
    markup is outside the model of the parser. *)
Definition _extract_html_content (self : t) (html url : string)
  : option (result extracted) :=
  match BeautifulSoup html with
  | Some parsed => Some (soup <- parsed ;; Ok (extract_soup soup url))
  | None => None
  end.

End ContentExtractor.

(* ------------------------------------------------------------------------- *)
(** ** The specification's vocabulary

    Definitions that follow the words of the specification rather than the
    code; the theorems below compare the two. *)

Module Spec.
Import Py Re Bs4 HtmlParser.

(** "A run of decimal digits". *)
Definition digit_run (s : string) : Prop :=
  s <> EmptyString /\ all is_digit s = true.

(** One optional group of [PT(<hours>H)?(<minutes>M)?(<seconds>S)?]: absent,
    or a run of digits followed by its designator. *)
Definition optional_part (d : ascii) (p : string) : Prop :=
  p = EmptyString \/ exists ds, digit_run ds /\ p = ds ++ String d EmptyString.

(** The string [s] matches the pattern. *)
Definition matches_pattern (s : string) : Prop :=
  exists h m sec,
    optional_part "H" h /\ optional_part "M" m /\ optional_part "S" sec
    /\ s = "PT" ++ h ++ m ++ sec.

(** "[p] is a prefix of [s] that matches the pattern", and "the longest
    matching prefix of [s]". *)
Definition matching_prefix (s p : string) : Prop :=
  (exists rest, s = p ++ rest) /\ matches_pattern p.

Definition longest_matching_prefix (s p : string) : Prop :=
  matching_prefix s p
  /\ forall p', matching_prefix s p' ->
                (String.length p' <= String.length p)%nat.

(** One group of the pattern, given by its run of digits when it is
    present, and the text PT<hours>H<minutes>M<seconds>S that three groups
    make. *)
Definition part (d : ascii) (run : option string) : string :=
  match run with
  | Some ds => ds ++ String d EmptyString
  | None => EmptyString
  end.

Definition run_ok (run : option string) : Prop :=
  match run with
  | Some ds => digit_run ds
  | None => True
  end.

Definition pattern_text (h m sec : option string) : string :=
  "PT" ++ part "H" h ++ part "M" m ++ part "S" sec.

(** The number that a run of decimal digits denotes, by position. *)
Fixpoint decimal (ds : string) : Z :=
  match ds with
  | EmptyString => 0
  | String c r => digit_value c * 10 ^ Z.of_nat (String.length r) + decimal r
  end.

(** "The value of the corresponding digit run, or 0 when the group is
    absent". *)
Definition run_value (run : option string) : Z :=
  match run with
  | Some ds => decimal ds
  | None => 0
  end.

(** The run does not exceed the digit limit of [int]. *)
Definition run_short (run : option string) : bool :=
  match run with
  | Some ds => (String.length ds <=? max_str_digits)%nat
  | None => true
  end.

(** The groups that a match on [pattern_text h m sec] captures, most recent
    first. *)
Definition captured (n : nat) (run : option string) (g : groups) : groups :=
  match run with
  | Some ds => (n, ds) :: g
  | None => g
  end.

Definition groups_of (h m sec : option string) : groups :=
  captured 3 sec (captured 2 m (captured 1 h [])).

(** The pattern read from left to right.  [designator d s] is the run of
    digits at the start of [s] when that run is not empty and is followed by
    [d], with the text after [d]. *)
Definition designator (d : ascii) (s : string) : option (string * string) :=
  match take_while is_digit s, drop_while is_digit s with
  | String c ds, String c' rest =>
      if Ascii.eqb d c' then Some (String c ds, rest) else None
  | _, _ => None
  end.

(** What follows the groups [h], [m], [sec] does not continue the pattern:
    it starts none of the groups that could still come. *)
Definition stops (h m sec : option string) (rest : string) : Prop :=
  (sec = None -> designator "S" rest = None)
  /\ (sec = None -> m = None -> designator "M" rest = None)
  /\ (sec = None -> m = None -> h = None -> designator "H" rest = None).

Definition read_part (n : nat) (d : ascii) (st : string * groups)
  : string * groups :=
  match designator d (fst st) with
  | Some (ds, rest) => (rest, (n, ds) :: snd st)
  | None => st
  end.

Definition match_of (st : string * groups) : Match :=
  {| m_groups := snd st; m_rest := fst st |}.

Definition scan_duration (s : string) : option Match :=
  if String.prefix "PT" s
  then Some (match_of (read_part 3 "S" (read_part 2 "M"
                        (read_part 1 "H" (drop 2 s, [])))))
  else None.

(** Acceptance only at the end of the input. *)
Definition at_end (st : string * groups) : option Match :=
  match fst st with
  | EmptyString => Some (match_of st)
  | _ => None
  end.

(** The same reading when the whole input has to be consumed. *)
Definition full_scan_duration (s : string) : option Match :=
  match scan_duration s with
  | Some m =>
      match m_rest m with
      | EmptyString => Some m
      | _ => None
      end
  | None => None
  end.

(** Every captured group is a run of digits. *)
Definition groups_ok (g : groups) : Prop :=
  Forall (fun kv => digit_run (snd kv)) g.

(** The characters that can occur in a string matching the pattern. *)
Definition pattern_char (c : ascii) : bool :=
  is_digit c || char_in "PTHMS" c.

(** "MM", "SS": a number below one hundred written with exactly two digits;
    larger numbers keep all their digits. *)
Definition digit_char (d : Z) : ascii := ascii_of_nat (48 + Z.to_nat d).

Definition two_digits (n : Z) : string :=
  String (digit_char (n / 10)) (String (digit_char (n mod 10)) EmptyString).

Definition zero_pad2 (n : Z) : string :=
  if n <? 100 then two_digits n else str n.

(** "H:MM:SS when hours > 0, otherwise M:SS". *)
Definition clock (hours minutes seconds : Z) : string :=
  if 0 <? hours
  then str hours ++ ":" ++ zero_pad2 minutes ++ ":" ++ zero_pad2 seconds
  else str minutes ++ ":" ++ zero_pad2 seconds.

(** "[needle] is a substring of [s]". *)
Fixpoint containsb (needle s : string) : bool :=
  String.prefix needle s
  || match s with
     | EmptyString => false
     | String _ s' => containsb needle s'
     end.

Definition class_words : list string := ["content"; "article"; "main"].

(** The text of a class attribute. *)
Definition class_text (v : attr_value) : string :=
  match v with
  | Str s => s
  | Multi l => join " " l
  end.

(** "An element whose class attribute contains, case-insensitively, any of
    the substrings content, article, main". *)
Definition class_mentions_ci (n : node) : bool :=
  match n with
  | Tag _ _ attrs _ =>
      match get_attr "class" attrs with
      | Some v => existsb (fun w => containsb w (lower (class_text v))) class_words
      | None => false
      end
  | _ => false
  end.

(** The same, case-sensitively. *)
Definition class_mentions (n : node) : bool :=
  match n with
  | Tag _ _ attrs _ =>
      match get_attr "class" attrs with
      | Some v => existsb (fun w => containsb w (class_text v)) class_words
      | None => false
      end
  | _ => false
  end.

(** The priority chain as the specification words it: first main, else
    first article, else first element of any tag whose class matches
    case-insensitively, else body, else nothing. *)
Definition main_content_node (s : soup) : option node :=
  orelse (find "main" s)
 (orelse (find "article" s)
 (orelse (List.find class_mentions_ci (soup_descendants s))
         (find "body" s))).

Definition extracted_text (s : soup) : string :=
  match main_content_node s with
  | Some n => get_text nl true n
  | None => ""
  end.

(** "[n] is the first element of [l] with property [P]", "no element of [l]
    has property [P]". *)
Definition first_such (P : node -> bool) (l : list node) (n : node) : Prop :=
  exists before after,
    l = (before ++ n :: after)%list /\ P n = true
    /\ forall x, In x before -> P x = false.

Definition none_such (P : node -> bool) (l : list node) : Prop :=
  forall x, In x l -> P x = false.




(** A node without its contents: what the searches look at. *)
Definition head (n : node) : node :=
  match n with
  | Tag i nm a _ => Tag i nm a []
  | _ => n
  end.

Definition id_of (n : node) : option nat :=
  match n with
  | Tag i _ _ _ => Some i
  | _ => None
  end.

Definition is_main : node -> bool := has_name ["main"].
Definition is_article : node -> bool := has_name ["article"].
Definition is_body : node -> bool := has_name ["body"].

(** "A div element whose class attribute contains one of the substrings". *)
Definition is_class_div (n : node) : bool :=
  has_name ["div"] n && class_mentions n.

(** The ExtractedDocument of the specification: title, body text and word
    count. *)
Definition document (r : ContentExtractor.extracted) : string * string * Z :=
  (ContentExtractor.title (ContentExtractor.meta r),
   ContentExtractor.content r,
   ContentExtractor.word_count (ContentExtractor.meta r)).


End Spec.

(** Documents used as examples. *)
Module Examples.

Definition example_page : string :=
  "<html><head><title>T</title></head><body><main>Hello   world</main></body></html>".

(** A matching class on an element that is not a div. *)
Definition section_page : string :=
  "<body><section class='content'>A</section><p>B</p></body>".

(** A class that matches only when letter case is ignored. *)
Definition capital_page : string :=
  "<body><div class='Content'>A</div><p>B</p></body>".

(** No main, article, body or class attribute. *)
Definition bare_page : string := "<p>hello</p><script>var x;</script>".


(** A marked section with an unknown keyword. *)
Definition rejected_page : string := "<![x]>hello".

(** The trees of these documents. *)
Definition example_tree : Bs4.soup :=
  [Bs4.Tag 0 "html" []
     [Bs4.Tag 1 "head" [] [Bs4.Tag 2 "title" [] [Bs4.Text "T"]];
      Bs4.Tag 3 "body" [] [Bs4.Tag 4 "main" [] [Bs4.Text "Hello   world"]]]].

Definition bare_tree : Bs4.soup :=
  [Bs4.Tag 0 "p" [] [Bs4.Text "hello"];
   Bs4.Tag 1 "script" [] [Bs4.Other "var x;"]].


(** A minutes field of 4301 digits. *)
Definition long_run : string := string_of_list_ascii (repeat "1"%char 4301).
Definition long_duration : string := "PT" ++ long_run ++ "M".

End Examples.

(* ------------------------------------------------------------------------- *)
(** ** More of Python's [str] and lists *)

Module PyStr.
Import Py.

(** [c.lower()] for one character: A-Z and the capital letters of Latin-1
    (U+00C0-U+00DE without the multiplication sign). *)
Definition lower_char (c : ascii) : ascii :=
  let n := code c in
  if ((65 <=? n) && (n <=? 90))%nat
     || ((192 <=? n) && (n <=? 222) && negb (n =? 215))%nat
  then ascii_of_nat (n + 32) else c.

(** [s.lower()] *)
Fixpoint lower (s : string) : string :=
  match s with
  | EmptyString => EmptyString
  | String c s' => String (lower_char c) (lower s')
  end.

(** [c.isalpha()] for one character: the letters of Latin-1. *)
Definition isalpha_char (c : ascii) : bool :=
  let n := code c in
  (((65 <=? n) && (n <=? 90)) || ((97 <=? n) && (n <=? 122))
   || (n =? 170) || (n =? 181) || (n =? 186)
   || ((192 <=? n) && (n <=? 255) && negb (n =? 215) && negb (n =? 247)))%nat.

(** [s.isalpha()]: false for the empty string. *)
Definition isalpha (s : string) : bool :=
  match s with
  | EmptyString => false
  | _ => all isalpha_char s
  end.

(** [\w]: letters, the decimal digits, the superscript digits and the
    fractions of Latin-1, and the underscore. *)
Definition is_word (c : ascii) : bool :=
  let n := code c in
  (isalpha_char c || is_digit c || (n =? 95)
   || (n =? 178) || (n =? 179) || (n =? 185)
   || ((188 <=? n) && (n <=? 190)))%nat.

(** [len(s)] *)
Definition len (s : string) : Z := Z.of_nat (String.length s).

(** [s.split(sep)] for a separator of one character; [cur] is the piece
    being read, in reverse. *)
Fixpoint split_on_from (sep : ascii) (cur : list ascii) (s : string)
  : list string :=
  match s with
  | EmptyString => [string_of_list_ascii (rev cur)]
  | String c s' =>
      if Ascii.eqb c sep
      then string_of_list_ascii (rev cur) :: split_on_from sep [] s'
      else split_on_from sep (c :: cur) s'
  end.

Definition split_on (sep : ascii) (s : string) : list string :=
  split_on_from sep [] s.

(** [l[:n]]: the first [n] elements, or all but the last [-n] when [n] is
    negative. *)
Definition slice_to {A} (n : Z) (l : list A) : list A :=
  if n <? 0 then firstn (List.length l - Z.to_nat (- n)) l
  else firstn (Z.to_nat n) l.

(** [s[:n]] for [n >= 0]. *)
Definition str_slice_to (n : nat) (s : string) : string := substring 0 n s.

(** [needle in s] *)
Definition str_in (needle s : string) : bool := Spec.containsb needle s.

End PyStr.

(* ------------------------------------------------------------------------- *)
(** ** Patterns with character classes

    A character class is the alternation of its members and [r{n}] is [n]
    copies of [r]. *)

Module ReClass.
Import Py Re.

(** A pattern that matches nothing. *)
Definition Fail : regex := Plus (fun _ => false).

(** [[c1c2...]] *)
Fixpoint any_of (cs : list ascii) : regex :=
  match cs with
  | [] => Fail
  | c :: cs' => Alt (Chr c) (any_of cs')
  end.

Definition all_chars : list ascii := map ascii_of_nat (seq 0 256).

(** The class of the characters that satisfy [p]. *)
Definition class (p : ascii -> bool) : regex := any_of (filter p all_chars).

(** [r{n}] *)
Fixpoint times (n : nat) (r : regex) : regex :=
  match n with
  | O => Eps
  | S n' => Cat r (times n' r)
  end.

(** The first [n] characters of [s] and what follows them, when these [n]
    characters exist and all satisfy [p]. *)
Fixpoint split_class (n : nat) (p : ascii -> bool) (s : string)
  : option (string * string) :=
  match n with
  | O => Some (EmptyString, s)
  | S n' =>
      match s with
      | String c s' =>
          if p c then
            match split_class n' p s' with
            | Some (a, rest) => Some (String c a, rest)
            | None => None
            end
          else None
      | EmptyString => None
      end
  end.

(** [.] without DOTALL: any character but a line feed. *)
Definition dot (c : ascii) : bool := negb (Ascii.eqb c LF).

End ReClass.

(* ------------------------------------------------------------------------- *)
(** ** youtube_integration.py: the search, the URLs and the utilities *)

Module YouTubeVideos.
Import Py Re ReClass PyStr YouTubeIntegration.

(** A video dictionary as this module builds it: the seven keys of the
    search result, and the four keys of a [detail] once [update] has added
    them. *)
Record video : Type := {
  video_id : string;
  title : string;
  description : string;
  channel : string;
  published_at : string;
  thumbnail : string;
  url : string;
  details : option detail
}.

(** [video.update(d)] *)
Definition update (v : video) (d : detail) : video :=
  {| video_id := video_id v; title := title v; description := description v;
     channel := channel v; published_at := published_at v;
     thumbnail := thumbnail v; url := url v; details := Some d |}.

(** [video.get("duration_seconds", 0)] *)
Definition get_duration_seconds (v : video) : Z :=
  match details v with
  | Some d => duration_seconds d
  | None => 0
  end.

Definition _get_mock_videos (self : t) (topic : string) (max_results : Z)
  : list video :=
  let mock_videos :=
    [ {| video_id := "dQw4w9WgXcQ";
         title := "Introduction to " ++ topic ++ " - Complete Beginner's Guide";
         description := "Learn the fundamentals of " ++ topic ++ " from scratch. This comprehensive tutorial covers all the essential concepts you need to get started.";
         channel := "EduTech Academy";
         published_at := "2024-01-15T10:00:00Z";
         thumbnail := "https://via.placeholder.com/320x180/667eea/ffffff?text=Intro+Video";
         url := "https://www.youtube.com/watch?v=dQw4w9WgXcQ";
         details := Some {| duration := "15:30"; duration_seconds := 930;
                            view_count := 125000; like_count := 3500 |} |};
      {| video_id := "abc123def456";
         title := "Advanced " ++ topic ++ " Techniques and Best Practices";
         description := "Take your " ++ topic ++ " skills to the next level with these advanced techniques and industry best practices.";
         channel := "Tech Masters";
         published_at := "2024-01-10T14:30:00Z";
         thumbnail := "https://via.placeholder.com/320x180/764ba2/ffffff?text=Advanced+Video";
         url := "https://www.youtube.com/watch?v=abc123def456";
         details := Some {| duration := "25:45"; duration_seconds := 1545;
                            view_count := 89000; like_count := 2100 |} |};
      {| video_id := "xyz789uvw012";
         title := topic ++ " Project Tutorial - Build Something Amazing";
         description := "Follow along as we build a practical " ++ topic ++ " project from start to finish. Perfect for hands-on learners.";
         channel := "CodeCraft";
         published_at := "2024-01-08T09:15:00Z";
         thumbnail := "https://via.placeholder.com/320x180/f093fb/ffffff?text=Project+Tutorial";
         url := "https://www.youtube.com/watch?v=xyz789uvw012";
         details := Some {| duration := "45:20"; duration_seconds := 2720;
                            view_count := 156000; like_count := 4200 |} |} ] in
  slice_to max_results mock_videos.

(** One element of the search response; [None] stands for a missing key. *)
Record snippet : Type := {
  sn_title : option string;
  sn_description : option string;
  sn_channelTitle : option string;
  sn_publishedAt : option string;
  sn_thumbnail : option string        (* ["thumbnails"]["medium"]["url"] *)
}.

Record search_item : Type := {
  id_videoId : option string;         (* item["id"]["videoId"] *)
  item_snippet : option snippet       (* item["snippet"] *)
}.

(** Body of the first loop of [_search_with_api]. *)
Definition video_info (it : search_item) : result video :=
  vid <- getitem (id_videoId it) ;;
  sn <- getitem (item_snippet it) ;;
  ti <- getitem (sn_title sn) ;;
  de <- getitem (sn_description sn) ;;
  ch <- getitem (sn_channelTitle sn) ;;
  pu <- getitem (sn_publishedAt sn) ;;
  th <- getitem (sn_thumbnail sn) ;;
  Ok {| video_id := vid; title := ti; description := de; channel := ch;
        published_at := pu; thumbnail := th;
        url := "https://www.youtube.com/watch?v=" ++ vid;
        details := None |}.

Fixpoint search_items (items : list search_item) (videos : list video)
  : result (list video) :=
  match items with
  | [] => Ok videos
  | it :: rest =>
      v <- video_info it ;;
      search_items rest (videos ++ [v])
  end.

(** [for i, video in enumerate(videos): if i < len(detailed_videos):
    video.update(detailed_videos[i])] *)
Fixpoint combine_details (videos : list video) (detailed : list detail)
  : list video :=
  match videos, detailed with
  | v :: vs, d :: ds => update v d :: combine_details vs ds
  | _, _ => videos
  end.

(** The two requests of the API path: the outcome of the search request
    down to [data.get("items", [])], and of the details request for given
    video ids.  Messages printed on failure are not modelled. *)
Record api : Type := {
  search_response : result (list search_item);
  details_response : list string -> result (list item)
}.

Definition _search_with_api (self : t) (net : api) (topic : string)
           (max_results : Z) (video_duration : string) : list video :=
  try_except
    (items <- search_response net ;;
     videos <- search_items items [] ;;
     let video_ids := map video_id videos in
     let detailed_videos :=
       _get_video_details self video_ids (details_response net video_ids) in
     Ok (combine_details videos detailed_videos))
    (fun _ => _get_mock_videos self topic max_results).

(** [if self.api_key]: a key that is neither [None] nor empty. *)
Definition has_key (self : t) : bool :=
  match api_key self with
  | Some (String _ _) => true
  | _ => false
  end.

Definition search_educational_videos (self : t) (net : api) (topic : string)
           (max_results : Z) (video_duration : string) : list video :=
  if has_key self
  then _search_with_api self net topic max_results video_duration
  else _get_mock_videos self topic max_results.


(** [[a-zA-Z0-9_-]] *)
Definition id_chars : list ascii :=
  list_ascii_of_string
    "abcdefghijklmnopqrstuvwxyzABCDEFGHIJKLMNOPQRSTUVWXYZ0123456789_-".

Definition is_id_char (c : ascii) : bool := existsb (Ascii.eqb c) id_chars.

(** [r'(?:youtube\.com/watch\?v=|youtu\.be/|youtube\.com/embed/)([a-zA-Z0-9_-]{11})'] *)
Definition id_re_1 : regex :=
  Cat (Alt (Lit "youtube.com/watch?v=")
      (Alt (Lit "youtu.be/") (Lit "youtube.com/embed/")))
      (Grp 1 (times 11 (any_of id_chars))).

(** [r'youtube\.com/watch\?.*v=([a-zA-Z0-9_-]{11})'] *)
Definition id_re_2 : regex :=
  Cat (Lit "youtube.com/watch?")
 (Cat (Star dot)
 (Cat (Lit "v=") (Grp 1 (times 11 (any_of id_chars))))).

Definition extract_video_id (self : t) (url : string) : option string :=
  match search id_re_1 url with
  | Some m => group 1 (m_groups m)
  | None =>
      match search id_re_2 url with
      | Some m => group 1 (m_groups m)
      | None => None
      end
  end.

Definition format_duration (seconds : Z) : string :=
  let hours := seconds / 3600 in
  let minutes := (seconds mod 3600) / 60 in
  let secs := seconds mod 60 in
  if 0 <? hours
  then str hours ++ ":" ++ format_02d minutes ++ ":" ++ format_02d secs
  else str minutes ++ ":" ++ format_02d secs.

Definition filter_videos_by_duration (videos : list video) (max_minutes : Z)
  : list video :=
  let max_seconds := max_minutes * 60 in
  filter (fun video => get_duration_seconds video <=? max_seconds) videos.

End YouTubeVideos.

(* ------------------------------------------------------------------------- *)
(** ** content_extraction.py: summaries, concepts, keywords and cleaning *)

Module ContentTools.
Import Py Re ReClass PyStr Bs4 HtmlParser ContentExtractor.

Record concept : Type := {
  concept_name : string;     (* "concept" *)
  definition : string;
  importance : string;
  context : string
}.

Definition concept_keywords : list string :=
  ["definition"; "concept"; "term"; "means"; "refers"].

(** Body of the loop of [extract_key_concepts], for the sentence of index
    [i]. *)
Definition concept_of (i : Z) (sentence : string) : option concept :=
  let sentence := strip sentence in
  if (50 <? len sentence)
     && existsb (fun keyword => str_in keyword (PyStr.lower sentence)) concept_keywords
  then
    let words := split sentence in
    if (10 <? Z.of_nat (List.length words)) then
      Some {| concept_name := "Concept " ++ str (i + 1);
              definition := sentence;
              importance := if i <? 3 then "high" else "medium";
              context := if 100 <? len sentence
                         then str_slice_to 100 sentence ++ "..."
                         else sentence |}
    else None
  else None.

Fixpoint concepts_loop (i : Z) (sentences : list string)
         (concepts : list concept) : list concept :=
  match sentences with
  | [] => concepts
  | sentence :: rest =>
      match concept_of i sentence with
      | Some c => concepts_loop (i + 1) rest (concepts ++ [c])
      | None => concepts_loop (i + 1) rest concepts
      end
  end.

Definition extract_key_concepts (self : t) (content : string)
           (max_concepts : Z) : list concept :=
  let sentences := split_on "." content in
  concepts_loop 0 (slice_to max_concepts sentences) [].

(** The loop of [summarize_content]; it stops at the first sentence that is
    blank or that finds the word budget used up. *)
Fixpoint summary_loop (sentences : list string) (summary_sentences : list string)
         (current_length max_length : Z) : list string :=
  match sentences with
  | [] => summary_sentences
  | sentence :: rest =>
      let sentence := strip sentence in
      if nonempty sentence && (current_length <? max_length)
      then summary_loop rest (summary_sentences ++ [sentence])
             (current_length + Z.of_nat (List.length (split sentence)))
             max_length
      else summary_sentences
  end.

Definition summarize_content (self : t) (content : string) (max_length : Z)
  : string :=
  let sentences := split_on "." content in
  join ". " (summary_loop sentences [] 0 max_length) ++ ".".

(** [[^\w\s\.\,\!\?\;\:\-\(\)]] *)
Definition kept_char (c : ascii) : bool :=
  is_word c || is_space c || char_in ".,!?;:-()" c.

Definition clean_text (text : string) : string :=
  let text := sub (Plus is_space) " " text in
  let text := sub (class (fun c => negb (kept_char c))) "" text in
  strip text.

(** The dictionary [word_freq]: keys in the order of their first insertion. *)
Fixpoint dict_get (key : string) (d : list (string * Z)) : option Z :=
  match d with
  | [] => None
  | (k, v) :: d' => if String.eqb k key then Some v else dict_get key d'
  end.

Fixpoint dict_set (key : string) (v : Z) (d : list (string * Z))
  : list (string * Z) :=
  match d with
  | [] => [(key, v)]
  | (k, v') :: d' =>
      if String.eqb k key then (k, v) :: d' else (k, v') :: dict_set key v d'
  end.

Fixpoint count_words (words : list string) (word_freq : list (string * Z))
  : list (string * Z) :=
  match words with
  | [] => word_freq
  | word :: rest =>
      if (3 <? len word) && isalpha word
      then count_words rest
             (dict_set word
                (YouTubeIntegration.get (dict_get word word_freq) 0 + 1)
                word_freq)
      else count_words rest word_freq
  end.

(** [sorted(items, key=lambda x: x[1], reverse=True)]: a stable sort, so
    items of equal count keep their order. *)
Fixpoint insert_desc (x : string * Z) (l : list (string * Z))
  : list (string * Z) :=
  match l with
  | [] => [x]
  | y :: l' => if snd y <? snd x then x :: l else y :: insert_desc x l'
  end.

Definition sorted_desc (items : list (string * Z)) : list (string * Z) :=
  fold_left (fun acc x => insert_desc x acc) items [].

Definition extract_keywords (content : string) (max_keywords : Z)
  : list string :=
  let words := split (PyStr.lower content) in
  let word_freq := count_words words [] in
  let sorted_words := sorted_desc word_freq in
  map fst (slice_to max_keywords sorted_words).

End ContentTools.

(* ------------------------------------------------------------------------- *)
(** ** Vocabulary for the properties of the text tools *)

Module ToolsSpec.
Import Py PyStr Bs4 ContentTools.

Definition not_dot (c : ascii) : bool := negb (Ascii.eqb c ".").

(** The sentences that [summary_loop] adds to what it was given. *)
Fixpoint taken (sentences : list string) (current_length max_length : Z)
  : list string :=
  match sentences with
  | [] => []
  | sentence :: rest =>
      let sentence := strip sentence in
      if nonempty sentence && (current_length <? max_length)
      then sentence
             :: taken rest
                  (current_length + Z.of_nat (List.length (split sentence)))
                  max_length
      else []
  end.

(** What follows the first sentence in a summary, and its pieces when it is
    split at the full stops again. *)
Fixpoint tail_text (sentences : list string) : string :=
  match sentences with
  | [] => "."
  | t :: rest => ". " ++ t ++ tail_text rest
  end.

Fixpoint resplit (sentences : list string) : list string :=
  match sentences with
  | [] => [EmptyString]
  | t :: rest => (" " ++ t) :: resplit rest
  end.

(** Sentences as a summary holds them: trimmed, not empty, without a full
    stop, each one added while the word budget was not used up. *)
Fixpoint kept (sentences : list string) (current_length max_length : Z)
  : Prop :=
  match sentences with
  | [] => True
  | t :: rest =>
      t <> EmptyString /\ lstrip t = t /\ rstrip t = t
      /\ all not_dot t = true /\ current_length < max_length
      /\ kept rest (current_length + Z.of_nat (List.length (split t)))
              max_length
  end.

(** The number of times a word occurs in a list of words. *)
Definition occurrences (words : list string) (w : string) : Z :=
  Z.of_nat (count_occ string_dec words w).

(** A word that [extract_keywords] counts. *)
Definition countable (w : string) : bool := (3 <? len w) && isalpha w.

(** [word_freq.get(w, 0)] *)
Definition value_of (d : list (string * Z)) (w : string) : Z :=
  YouTubeIntegration.get (dict_get w d) 0.

(** The order of [sorted(..., reverse=True)] on the items of [word_freq]. *)
Definition by_count (x y : string * Z) : Prop := snd y <= snd x.

(** Blank or [U+0020]: the white space that [clean_text] can leave. *)
Definition plain_space (c : ascii) : bool :=
  negb (is_space c) || Ascii.eqb c " ".

End ToolsSpec.

(** Inputs used as examples for the search. *)
Module SearchExamples.
Import Py YouTubeIntegration YouTubeVideos.

Definition sample_item : search_item :=
  {| id_videoId := Some "dQw4w9WgXcQ";
     item_snippet :=
       Some {| sn_title := Some "A title";
               sn_description := Some "A description";
               sn_channelTitle := Some "A channel";
               sn_publishedAt := Some "2024-01-15T10:00:00Z";
               sn_thumbnail := Some "https://example.com/t.jpg" |} |}.

Definition sample_video : video :=
  {| video_id := "dQw4w9WgXcQ"; title := "A title";
     description := "A description"; channel := "A channel";
     published_at := "2024-01-15T10:00:00Z";
     thumbnail := "https://example.com/t.jpg";
     url := "https://www.youtube.com/watch?v=dQw4w9WgXcQ";
     details := None |}.

(** The search answers with one video; the details request fails. *)
Definition failing_details : api :=
  {| search_response := Ok [sample_item];
     details_response := fun _ => Raise HTTPError |}.

(** The search answers with one video of four minutes and thirteen
    seconds. *)
Definition working_api : api :=
  {| search_response := Ok [sample_item];
     details_response := fun _ =>
       Ok [ {| contentDetails_duration := Some "PT4M13S";
               statistics := Some {| viewCount := Some "10";
                                     likeCount := None |} |} ] |}.

End SearchExamples.

(* ------------------------------------------------------------------------- *)
(** ** Facts about the Python fragment *)

Module PyFacts.
Import Py.

Lemma is_digit_range c :
  is_digit c = true <-> (48 <= code c <= 57)%nat.
Proof.
  unfold is_digit. rewrite andb_true_iff, !Nat.leb_le. reflexivity.
Qed.

Lemma digit_not_space c : is_digit c = true -> is_space c = false.
Proof.
  rewrite is_digit_range. intros H. unfold is_space.
  repeat match goal with
  | |- context [(?a <=? ?b)%nat] => destruct (Nat.leb_spec a b)
  | |- context [(?a =? ?b)%nat] => destruct (Nat.eqb_spec a b)
  end; try reflexivity; lia.
Qed.

Lemma take_drop_while p s : take_while p s ++ drop_while p s = s.
Proof.
  induction s as [|c s IH]; simpl; [reflexivity|].
  destruct (p c); simpl; [now rewrite IH | reflexivity].
Qed.

Lemma all_take_while p s : all p (take_while p s) = true.
Proof.
  induction s as [|c s IH]; simpl; [reflexivity|].
  destruct (p c) eqn:E; simpl; [now rewrite E | reflexivity].
Qed.

Lemma lstrip_digits s : all is_digit s = true -> lstrip s = s.
Proof.
  destruct s as [|c s]; simpl; [reflexivity|].
  intros H. apply andb_true_iff in H as [H _].
  now rewrite (digit_not_space _ H).
Qed.

Lemma rstrip_digits s : all is_digit s = true -> rstrip s = s.
Proof.
  induction s as [|c s IH]; simpl; [reflexivity|].
  intros H. apply andb_true_iff in H as [Hc Hs].
  rewrite (IH Hs). destruct s; [|reflexivity].
  now rewrite (digit_not_space _ Hc).
Qed.

Lemma strip_digits s : all is_digit s = true -> strip s = s.
Proof.
  intros H. unfold strip. rewrite (lstrip_digits _ H). now apply rstrip_digits.
Qed.

Lemma digit_value_range c : is_digit c = true -> 0 <= digit_value c <= 9.
Proof. rewrite is_digit_range. unfold digit_value. lia. Qed.

Lemma digits_value_nonneg s :
  all is_digit s = true -> forall acc, 0 <= acc -> 0 <= digits_value acc s.
Proof.
  induction s as [|c s IH]; cbn [all digits_value];
    intros H acc Hacc; [assumption|].
  apply andb_true_iff in H as [Hc Hs].
  apply IH; [assumption|].
  pose proof (digit_value_range _ Hc). lia.
Qed.

Lemma int_body_digits s :
  all is_digit s = true ->
  forall prev acc,
    int_body prev acc s
    = match s with
      | EmptyString => if prev then Some acc else None
      | _ => Some (digits_value acc s)
      end.
Proof.
  induction s as [|c s IH]; intros H prev acc; [reflexivity|].
  simpl in H. apply andb_true_iff in H as [Hc Hs].
  cbn [int_body digits_value]. rewrite Hc, (IH Hs).
  destruct s; reflexivity.
Qed.

Lemma digit_not_int_space c : is_digit c = true -> is_int_space c = false.
Proof.
  rewrite is_digit_range. intros H. unfold is_int_space.
  repeat match goal with
  | |- context [(?a <=? ?b)%nat] => destruct (Nat.leb_spec a b)
  | |- context [(?a =? ?b)%nat] => destruct (Nat.eqb_spec a b)
  end; try reflexivity; lia.
Qed.

Lemma rstrip_by_digits s :
  all is_digit s = true -> rstrip_by is_int_space s = s.
Proof.
  induction s as [|c s IH]; simpl; [reflexivity|].
  intros H. apply andb_true_iff in H as [Hc Hs].
  rewrite (IH Hs). destruct s; [|reflexivity].
  now rewrite (digit_not_int_space _ Hc).
Qed.

Lemma int_strip_digits s : all is_digit s = true -> int_strip s = s.
Proof.
  intros H. unfold int_strip.
  replace (drop_while is_int_space s) with s; [now apply rstrip_by_digits|].
  destruct s as [|c s]; [reflexivity|].
  simpl in H. apply andb_true_iff in H as [Hc _].
  simpl. now rewrite (digit_not_int_space _ Hc).
Qed.

Lemma count_digits_all s :
  all is_digit s = true -> count_digits s = String.length s.
Proof.
  induction s as [|c s IH]; simpl; [reflexivity|].
  intros H. apply andb_true_iff in H as [Hc Hs]. now rewrite Hc, (IH Hs).
Qed.

(** [int] on a literal that starts with a digit and carries no white
    space: the digit limit decides. *)
Lemma int_unsigned c v :
  is_digit c = true ->
  int_strip (String c v) = String c v ->
  int (String c v)
  = match int_body false 0 (String c v) with
    | Some w =>
        if (max_str_digits <? count_digits (String c v))%nat
        then Raise ValueError else Ok w
    | None => Raise ValueError
    end.
Proof.
  intros Hc Hs. unfold int. rewrite Hs.
  destruct c as [[] [] [] [] [] [] [] []]; try discriminate Hc; reflexivity.
Qed.

Lemma int_run v :
  v <> EmptyString -> all is_digit v = true ->
  int v = if (max_str_digits <? String.length v)%nat
          then Raise ValueError else Ok (digits_value 0 v).
Proof.
  intros Hne Hd. destruct v as [|c v]; [congruence|].
  pose proof Hd as Hd'. simpl in Hd'. apply andb_true_iff in Hd' as [Hc _].
  rewrite (int_unsigned c v Hc (int_strip_digits _ Hd)).
  rewrite (int_body_digits _ Hd), (count_digits_all _ Hd). reflexivity.
Qed.

(** [int] on a non-empty run of at most [max_str_digits] digits is its
    decimal value; on a longer run it raises. *)
Lemma int_digits v :
  v <> EmptyString -> all is_digit v = true ->
  (String.length v <= max_str_digits)%nat ->
  int v = Ok (digits_value 0 v).
Proof.
  intros Hne Hd Hl. rewrite (int_run v Hne Hd).
  destruct (Nat.ltb_spec max_str_digits (String.length v)); [lia|reflexivity].
Qed.

Lemma int_digits_long v :
  all is_digit v = true -> (max_str_digits < String.length v)%nat ->
  int v = Raise ValueError.
Proof.
  intros Hd Hl. assert (Hne : v <> EmptyString) by (intros ->; simpl in Hl; lia).
  rewrite (int_run v Hne Hd).
  destruct (Nat.ltb_spec max_str_digits (String.length v)); [reflexivity|lia].
Qed.

Lemma str_nonneg_head n :
  0 <= n -> exists c r, str n = String c r /\ is_digit c = true.
Proof.
  intros Hn. destruct n as [|p|p]; [now exists "0"%char, EmptyString| |lia].
  unfold str. cbn [Z.to_int NilZero.string_of_int NilZero.string_of_uint].
  pose proof (DecimalPos.Unsigned.to_uint_nonnil p) as Hnil.
  destruct (Pos.to_uint p); [contradiction|..];
    cbn [NilEmpty.string_of_uint]; eexists; eexists; split; reflexivity.
Qed.

Lemma str_length n : 10 <= n -> (2 <= String.length (str n))%nat.
Proof.
  intros Hn. destruct n as [|p|p]; try lia.
  unfold str. cbn [Z.to_int NilZero.string_of_int NilZero.string_of_uint].
  pose proof (DecimalPos.Unsigned.to_uint_nonnil p) as Hnil.
  pose proof (DecimalPos.Unsigned.of_to p) as Hof.
  destruct (Pos.to_uint p) as [|d|d|d|d|d|d|d|d|d|d]; [contradiction|..];
    (destruct d;
       [cbv in Hof; first [discriminate Hof | injection Hof as <-; lia]|..]);
    cbn [NilZero.string_of_uint NilEmpty.string_of_uint String.length]; lia.
Qed.

Lemma format_02d_zero_pad2 n : 0 <= n -> format_02d n = Spec.zero_pad2 n.
Proof.
  intros Hn. unfold Spec.zero_pad2.
  destruct (Z.ltb_spec n 100) as [Hlt|Hge].
  - assert (Hk : exists k, n = Z.of_nat k /\ (k < 100)%nat)
      by (exists (Z.to_nat n); lia).
    destruct Hk as (k & -> & Hk).
    do 100 (destruct k as [|k]; [reflexivity|]). lia.
  - unfold format_02d.
    pose proof (str_length n ltac:(lia)) as Hl.
    destruct (Nat.ltb_spec (String.length (str n)) 2); [lia|reflexivity].
Qed.

End PyFacts.

(* ------------------------------------------------------------------------- *)
(** ** Facts about the matcher *)

Module ReFacts.
Import Py Re PyFacts.

Lemma orelse_none_r {A} (x : option A) : orelse x None = x.
Proof. now destruct x. Qed.

Lemma append_assoc (a b c : string) : (a ++ b) ++ c = a ++ (b ++ c).
Proof. induction a as [|x a IH]; simpl; [reflexivity | now rewrite IH]. Qed.

Lemma append_empty_r (a : string) : a ++ "" = a.
Proof. induction a as [|x a IH]; simpl; [reflexivity | now rewrite IH]. Qed.

Lemma length_append (a b : string) :
  String.length (a ++ b) = (String.length a + String.length b)%nat.
Proof. induction a as [|x a IH]; simpl; [reflexivity | now rewrite IH]. Qed.

Lemma substring_prefix (a b : string) :
  substring 0 (String.length a) (a ++ b) = a.
Proof.
  induction a as [|x a IH]; simpl; [now destruct b | now rewrite IH].
Qed.

Lemma consumed_append (a b : string) : consumed (a ++ b) b = a.
Proof.
  unfold consumed. rewrite length_append.
  replace (String.length a + String.length b - String.length b)%nat
    with (String.length a) by lia.
  apply substring_prefix.
Qed.

Lemma consumed_take_while p s : consumed s (drop_while p s) = take_while p s.
Proof.
  rewrite <- (take_drop_while p s) at 1. apply consumed_append.
Qed.

Lemma prefix_iff (w s : string) :
  String.prefix w s = true <-> exists rest, s = w ++ rest.
Proof.
  revert s. induction w as [|c w IH]; intros s.
  - destruct s; simpl; split; eauto.
  - destruct s as [|c' s]; simpl;
      [split; [discriminate | intros [r Hr]; discriminate]|].
    destruct (Ascii.ascii_dec c c') as [->|Hne].
    + rewrite IH. split; intros [r Hr]; exists r; congruence.
    + split; [discriminate | intros [r Hr]; congruence].
Qed.

Lemma drop_append (w rest : string) : drop (String.length w) (w ++ rest) = rest.
Proof. induction w as [|c w IH]; simpl; [now destruct rest | exact IH]. Qed.

(** [sub] has fuel to spare: any amount not below the length of the text
    gives the same result. *)
Lemma sub_fuel_enough r repl n :
  forall m s,
    (String.length s <= n)%nat -> (String.length s <= m)%nat ->
    sub_fuel n r repl s = sub_fuel m r repl s.
Proof.
  induction n as [|n IH]; intros m s Hn Hm.
  - destruct s; [|simpl in Hn; lia]. now destruct m.
  - destruct s as [|c s]; [now destruct m|].
    destruct m as [|m]; [simpl in Hm; lia|].
    simpl in Hn, Hm. cbn [sub_fuel].
    destruct (match_ r (String c s)) as [mt|].
    + destruct (Nat.ltb_spec (String.length (m_rest mt))
                             (String.length (String c s))) as [Hlt|_].
      * simpl in Hlt. f_equal. apply IH; lia.
      * f_equal. apply IH; lia.
    + f_equal. apply IH; lia.
Qed.

Section Continuations.
Context {R : Type}.

Lemma star_ext p s (k1 k2 : string -> option R) :
  (forall s', k1 s' = k2 s') -> star p s k1 = star p s k2.
Proof.
  intros H. induction s as [|c s IH]; simpl; [apply H|].
  now rewrite IH, H.
Qed.

Lemma run_ext r :
  forall s g (k1 k2 : string -> groups -> option R),
    (forall s' g', k1 s' g' = k2 s' g') -> run r s g k1 = run r s g k2.
Proof.
  induction r as [|c|r1 IH1 r2 IH2|r1 IH1 r2 IH2|r IH|p|p|n r IH];
    intros s g k1 k2 H; cbn [run].
  - apply H.
  - destruct s; [reflexivity|]. now rewrite H.
  - apply IH1. intros s' g'. now apply IH2.
  - now rewrite (IH1 s g k1 k2 H), (IH2 s g k1 k2 H).
  - now rewrite (IH s g k1 k2 H), H.
  - apply star_ext. intros s'. apply H.
  - destruct s as [|c s]; [reflexivity|]. destruct (p c); [|reflexivity].
    apply star_ext. intros s'. apply H.
  - apply IH. intros s' g'. apply H.
Qed.

(** A greedy repetition gives nothing back when the continuation rejects
    every text that starts with a character of the class. *)
Lemma star_greedy p (k : string -> option R) s :
  (forall c r, p c = true -> k (String c r) = None) ->
  star p s k = k (drop_while p s).
Proof.
  intros H. induction s as [|c s IH]; simpl; [reflexivity|].
  destruct (p c) eqn:E; [|reflexivity].
  now rewrite IH, (H c s E), orelse_none_r.
Qed.

Lemma run_Cat r1 r2 s g (k : string -> groups -> option R) :
  run (Cat r1 r2) s g k = run r1 s g (fun s' g' => run r2 s' g' k).
Proof. reflexivity. Qed.

Lemma run_Chr c s g (k : string -> groups -> option R) :
  run (Chr c) s g k
  = if String.prefix (String c EmptyString) s then k (drop 1 s) g else None.
Proof.
  cbn [run]. destruct s as [|c' s]; [reflexivity|].
  cbn [String.prefix drop].
  destruct (Ascii.ascii_dec c c') as [->|Hne].
  - rewrite Ascii.eqb_refl. now destruct s.
  - apply Ascii.eqb_neq in Hne. now rewrite Hne.
Qed.

Lemma run_Lit w :
  forall s g (k : string -> groups -> option R),
    run (Lit w) s g k
    = if String.prefix w s then k (drop (String.length w) s) g else None.
Proof.
  induction w as [|c w IH]; intros s g k; [now destruct s|].
  destruct w as [|c2 w]; [apply run_Chr|].
  change (Lit (String c (String c2 w)))
    with (Cat (Chr c) (Lit (String c2 w))).
  cbn [run]. destruct s as [|c' s]; [reflexivity|].
  rewrite IH. set (w' := String c2 w).
  cbn [String.prefix String.length drop].
  destruct (Ascii.ascii_dec c c') as [->|Hne].
  - now rewrite Ascii.eqb_refl.
  - apply Ascii.eqb_neq in Hne. now rewrite Hne.
Qed.

(** One optional group [(?:(\d+)d)?] of the duration pattern. *)
Lemma run_designator n d s g (k : string -> groups -> option R) :
  is_digit d = false ->
  run (Opt (Cat (Grp n (Plus is_digit)) (Chr d))) s g k
  = match Spec.designator d s with
    | Some (ds, rest) => orelse (k rest ((n, ds) :: g)) (k s g)
    | None => k s g
    end.
Proof.
  intros Hd. cbn [run]. unfold Spec.designator.
  destruct s as [|c s]; [reflexivity|].
  cbn [take_while drop_while]. destruct (is_digit c) eqn:Ec; [|reflexivity].
  rewrite star_greedy.
  - pose proof (consumed_take_while is_digit (String c s)) as Hc.
    cbn [take_while drop_while] in Hc. rewrite Ec in Hc.
    destruct (drop_while is_digit s) as [|c' rest]; [reflexivity|].
    rewrite Hc. destruct (Ascii.eqb d c'); reflexivity.
  - intros c' r Hc'. destruct (Ascii.eqb_spec d c') as [->|]; [|reflexivity].
    congruence.
Qed.
End Continuations.

End ReFacts.

(* ------------------------------------------------------------------------- *)
(** ** The duration parser *)

Module DurationFacts.
Import Py Re YouTubeIntegration PyFacts ReFacts Spec.

Lemma run_seconds s g :
  run (Opt (Cat (Grp 3 (Plus is_digit)) (Chr "S"))) s g
      (fun s' g' => Some {| m_groups := g'; m_rest := s' |})
  = Some (match_of (read_part 3 "S" (s, g))).
Proof.
  rewrite run_designator by reflexivity. unfold read_part, match_of, fst, snd.
  destruct (designator "S" s) as [[ds rest]|]; reflexivity.
Qed.

Lemma run_minutes s g :
  run (Cat (Opt (Cat (Grp 2 (Plus is_digit)) (Chr "M")))
           (Opt (Cat (Grp 3 (Plus is_digit)) (Chr "S")))) s g
      (fun s' g' => Some {| m_groups := g'; m_rest := s' |})
  = Some (match_of (read_part 3 "S" (read_part 2 "M" (s, g)))).
Proof.
  rewrite run_Cat, (run_ext _ _ _ _ _ run_seconds).
  rewrite run_designator by reflexivity.
  change (read_part 2 "M" (s, g))
    with (match designator "M" s with
          | Some (ds, rest) => (rest, (2%nat, ds) :: g)
          | None => (s, g)
          end).
  destruct (designator "M" s) as [[ds rest]|]; reflexivity.
Qed.

(** The backtracking matcher on the duration pattern is the left-to-right
    reading of the input. *)
Lemma match_duration_re s : match_ duration_re s = scan_duration s.
Proof.
  unfold match_, duration_re, scan_duration.
  rewrite run_Cat, run_Lit.
  destruct (String.prefix "PT" s); [|reflexivity].
  change (String.length "PT") with 2%nat.
  rewrite run_Cat, (run_ext _ _ _ _ _ run_minutes).
  rewrite run_designator by reflexivity.
  change (read_part 1 "H" (drop 2 s, []))
    with (match designator "H" (drop 2 s) with
          | Some (ds, rest) => (rest, [(1%nat, ds)])
          | None => (drop 2 s, [])
          end).
  destruct (designator "H" (drop 2 s)) as [[ds rest]|]; reflexivity.
Qed.

Lemma match_iff_prefix s :
  match_ duration_re s = None <-> String.prefix "PT" s = false.
Proof.
  rewrite match_duration_re. unfold scan_duration.
  destruct (String.prefix "PT" s); split; congruence.
Qed.

Lemma designator_digits d s ds rest :
  designator d s = Some (ds, rest) -> digit_run ds.
Proof.
  unfold designator.
  destruct (take_while is_digit s) as [|c t] eqn:E; [discriminate|].
  destruct (drop_while is_digit s) as [|c' r]; [discriminate|].
  destruct (Ascii.eqb d c'); [|discriminate].
  intros H. injection H as <- _. split; [discriminate|].
  rewrite <- E. apply all_take_while.
Qed.

Lemma read_part_ok n d st :
  groups_ok (snd st) -> groups_ok (snd (read_part n d st)).
Proof.
  intros H. unfold read_part.
  destruct (designator d (fst st)) as [[ds rest]|] eqn:E; [|assumption].
  constructor; [|assumption]. exact (designator_digits _ _ _ _ E).
Qed.

Lemma match_groups_ok s m :
  match_ duration_re s = Some m -> groups_ok (m_groups m).
Proof.
  rewrite match_duration_re. unfold scan_duration.
  destruct (String.prefix "PT" s); [|discriminate].
  intros H. injection H as <-. unfold match_of, m_groups.
  do 3 apply read_part_ok. constructor.
Qed.

Lemma group_ok g n v : groups_ok g -> group n g = Some v -> digit_run v.
Proof.
  induction 1 as [|[k w] g Hw _ IH]; simpl; [discriminate|].
  destruct (k =? n)%nat; [|exact IH]. intros H. now injection H as <-.
Qed.

(** A captured group is a run of digits: its conversion gives the value of
    the run, and fails only on a run longer than the digit limit. *)
Lemma int_group_value n m :
  groups_ok (m_groups m) ->
  int_group n m
  = match group n (m_groups m) with
    | Some v =>
        if (max_str_digits <? String.length v)%nat
        then Raise ValueError else Ok (digits_value 0 v)
    | None => Ok 0
    end.
Proof.
  intros Hg. unfold int_group.
  destruct (group n (m_groups m)) as [v|] eqn:E; [|reflexivity].
  destruct (group_ok _ _ _ Hg E) as [Hne Hd].
  destruct v as [|c v]; [congruence|]. exact (int_run _ Hne Hd).
Qed.

Lemma int_group_nonneg n m z :
  groups_ok (m_groups m) -> int_group n m = Ok z -> 0 <= z.
Proof.
  intros Hg. rewrite (int_group_value n m Hg).
  destruct (group n (m_groups m)) as [v|] eqn:E.
  - destruct (group_ok _ _ _ Hg E) as [_ Hd].
    destruct (max_str_digits <? String.length v)%nat; [discriminate|].
    intros H. injection H as <-. apply digits_value_nonneg; [assumption|lia].
  - intros H. injection H as <-. lia.
Qed.

Lemma int_group_raises n m e :
  groups_ok (m_groups m) -> int_group n m = Raise e -> e = ValueError.
Proof.
  intros Hg. rewrite (int_group_value n m Hg).
  destruct (group n (m_groups m)) as [v|]; [|discriminate].
  destruct (max_str_digits <? String.length v)%nat; [|discriminate].
  intros H. now injection H as <-.
Qed.

(** The three fields of an accepted input are not negative. *)
Lemma fields_nonneg s m h mi se :
  match_ duration_re s = Some m ->
  int_group 1 m = Ok h -> int_group 2 m = Ok mi -> int_group 3 m = Ok se ->
  0 <= h /\ 0 <= mi /\ 0 <= se.
Proof.
  intros Hm Hh Hmi Hse. pose proof (match_groups_ok _ _ Hm) as Hg.
  repeat split; eapply int_group_nonneg; eassumption.
Qed.

Lemma parse_duration_clock self s m h mi se :
  match_ duration_re s = Some m ->
  int_group 1 m = Ok h -> int_group 2 m = Ok mi -> int_group 3 m = Ok se ->
  0 <= mi -> 0 <= se ->
  _parse_duration self s = Ok (clock h mi se).
Proof.
  intros Hm Hh Hmi Hse ? ?. unfold _parse_duration, clock.
  rewrite Hm, Hh, Hmi, Hse. cbn [bind].
  rewrite !format_02d_zero_pad2 by assumption.
  now destruct (0 <? h).
Qed.

Lemma duration_to_seconds_sum self s m h mi se :
  match_ duration_re s = Some m ->
  int_group 1 m = Ok h -> int_group 2 m = Ok mi -> int_group 3 m = Ok se ->
  _duration_to_seconds self s = Ok (h * 3600 + mi * 60 + se).
Proof.
  intros Hm Hh Hmi Hse. unfold _duration_to_seconds.
  now rewrite Hm, Hh, Hmi, Hse.
Qed.

Lemma fields_inv m h mi se :
  fields m = Ok (h, mi, se) ->
  int_group 1 m = Ok h /\ int_group 2 m = Ok mi /\ int_group 3 m = Ok se.
Proof.
  unfold fields.
  destruct (int_group 1 m); [|discriminate].
  destruct (int_group 2 m); [|discriminate].
  destruct (int_group 3 m); [|discriminate].
  cbn [bind]. intros H. injection H as -> -> ->. auto.
Qed.

(** A clock string starts with a digit. *)
Lemma clock_head h mi se :
  0 <= h -> 0 <= mi ->
  exists c r, clock h mi se = String c r /\ is_digit c = true.
Proof.
  intros Hh Hmi. unfold clock. destruct (0 <? h).
  - destruct (str_nonneg_head h Hh) as (c & r & -> & Hc).
    exists c. eexists. split; [reflexivity|assumption].
  - destruct (str_nonneg_head mi Hmi) as (c & r & -> & Hc).
    exists c. eexists. split; [reflexivity|assumption].
Qed.

(** The outcome of the three conversions: the fields, or [ValueError]. *)
Lemma fields_cases s m :
  match_ duration_re s = Some m ->
  (exists h mi se,
      int_group 1 m = Ok h /\ int_group 2 m = Ok mi /\ int_group 3 m = Ok se
      /\ 0 <= h /\ 0 <= mi /\ 0 <= se)
  \/ (forall self, _parse_duration self s = Raise ValueError
                   /\ _duration_to_seconds self s = Raise ValueError).
Proof.
  intros Hm. pose proof (match_groups_ok _ _ Hm) as Hg.
  unfold _parse_duration, _duration_to_seconds. rewrite Hm.
  destruct (int_group 1 m) as [h|e] eqn:Eh;
    [|right; intros _; apply (int_group_raises _ _ _ Hg) in Eh as ->; now split].
  destruct (int_group 2 m) as [mi|e] eqn:Emi;
    [|right; intros _; apply (int_group_raises _ _ _ Hg) in Emi as ->; now split].
  destruct (int_group 3 m) as [se|e] eqn:Ese;
    [|right; intros _; apply (int_group_raises _ _ _ Hg) in Ese as ->; now split].
  left. exists h, mi, se.
  destruct (fields_nonneg _ _ _ _ _ Hm Eh Emi Ese) as (? & ? & ?). auto 10.
Qed.

(** What [_parse_duration] does on an input that starts with PT. *)
Lemma parse_duration_accepted self s :
  String.prefix "PT" s = true ->
  (exists c r, _parse_duration self s = Ok (String c r) /\ is_digit c = true)
  \/ _parse_duration self s = Raise ValueError.
Proof.
  intros Hp.
  destruct (match_ duration_re s) as [m|] eqn:Hm;
    [|apply match_iff_prefix in Hm; congruence].
  destruct (fields_cases _ _ Hm)
    as [(h & mi & se & Hh & Hmi & Hse & ? & ? & ?)|Hr];
    [left|right; exact (proj1 (Hr self))].
  rewrite (parse_duration_clock self _ _ _ _ _ Hm Hh Hmi Hse) by assumption.
  destruct (clock_head h mi se) as (c & r & -> & Hc); eauto.
Qed.

(** A string returned by [_parse_duration] is the sentinel or starts with
    a digit; in both cases it does not start with PT. *)
Lemma parse_duration_output self s d :
  _parse_duration self s = Ok d -> String.prefix "PT" d = false.
Proof.
  intros H. destruct (String.prefix "PT" s) eqn:Hp.
  - destruct (parse_duration_accepted self s Hp) as [(c & r & E & Hc)|E];
      [|congruence].
    assert (d = String c r) by congruence. subst d.
    cbn [String.prefix].
    destruct (Ascii.ascii_dec "P" c) as [<-|]; [discriminate Hc|reflexivity].
  - apply match_iff_prefix in Hp. unfold _parse_duration in H.
    rewrite Hp in H. now injection H as <-.
Qed.

Lemma all_append p a b : all p (a ++ b) = all p a && all p b.
Proof.
  induction a as [|c a IH]; simpl; [reflexivity|].
  now rewrite IH, andb_assoc.
Qed.

Lemma all_weaken (p q : ascii -> bool) s :
  (forall c, p c = true -> q c = true) -> all p s = true -> all q s = true.
Proof.
  intros H. induction s as [|c s IH]; simpl; [reflexivity|].
  rewrite !andb_true_iff. intros [Hc Hs]. split; auto.
Qed.

Lemma optional_part_chars d p :
  pattern_char d = true -> optional_part d p -> all pattern_char p = true.
Proof.
  intros Hd [->|(ds & [_ Hds] & ->)]; [reflexivity|].
  rewrite all_append. apply andb_true_iff. split.
  - apply (all_weaken is_digit); [|assumption].
    intros c Hc. unfold pattern_char. now rewrite Hc.
  - simpl. now rewrite Hd.
Qed.

Lemma matches_pattern_chars s :
  matches_pattern s -> all pattern_char s = true.
Proof.
  intros (h & m & sec & Hh & Hm & Hs & ->).
  change ("PT" ++ h ++ m ++ sec) with (String "P" (String "T" (h ++ m ++ sec))).
  cbn [all]. rewrite !all_append.
  rewrite (optional_part_chars "H" h), (optional_part_chars "M" m),
    (optional_part_chars "S" sec); auto.
Qed.

Lemma matches_pattern_prefix p :
  matches_pattern p -> String.prefix "PT" p = true.
Proof.
  intros (h & m & sec & _ & _ & _ & ->). apply prefix_iff. eauto.
Qed.

Lemma matches_PT : matches_pattern "PT".
Proof.
  exists EmptyString, EmptyString, EmptyString.
  repeat split; try (left; reflexivity).
Qed.

(** No prefix of [s] matches the pattern exactly when [s] does not start
    with PT. *)
Lemma no_matching_prefix_iff s :
  (forall p rest, s = p ++ rest -> ~ matches_pattern p)
  <-> String.prefix "PT" s = false.
Proof.
  split.
  - intros H. destruct (String.prefix "PT" s) eqn:E; [|reflexivity].
    apply prefix_iff in E as [rest ->].
    exfalso. exact (H "PT" rest eq_refl matches_PT).
  - intros H p rest -> Hp. apply matches_pattern_prefix in Hp.
    apply prefix_iff in Hp as [x ->].
    assert (String.prefix "PT" (("PT" ++ x) ++ rest) = true)
      by (apply prefix_iff; exists (x ++ rest); now rewrite append_assoc).
    congruence.
Qed.

(** *** The pattern of the specification is the pattern of the code,
    matched against the whole input *)

Lemma designator_empty d : designator d EmptyString = None.
Proof. reflexivity. Qed.

Lemma take_while_digits ds c rest :
  all is_digit ds = true -> is_digit c = false ->
  take_while is_digit (ds ++ String c rest) = ds
  /\ drop_while is_digit (ds ++ String c rest) = String c rest.
Proof.
  intros Hds Hc. induction ds as [|x ds IH]; simpl.
  - now rewrite Hc.
  - simpl in Hds. apply andb_true_iff in Hds as [Hx Hds]. rewrite Hx.
    destruct (IH Hds) as [-> ->]. auto.
Qed.

Lemma designator_present d ds rest :
  digit_run ds -> is_digit d = false ->
  designator d (ds ++ String d rest) = Some (ds, rest).
Proof.
  intros [Hne Hds] Hd. unfold designator.
  destruct (take_while_digits ds d rest Hds Hd) as [-> ->].
  destruct ds; [congruence|]. now rewrite Ascii.eqb_refl.
Qed.

Lemma designator_other d d' ds rest :
  digit_run ds -> is_digit d' = false -> d <> d' ->
  designator d (ds ++ String d' rest) = None.
Proof.
  intros [Hne Hds] Hd Hdd. unfold designator.
  destruct (take_while_digits ds d' rest Hds Hd) as [-> ->].
  destruct ds; [congruence|].
  apply Ascii.eqb_neq in Hdd. now rewrite Hdd.
Qed.

Lemma designator_inv d s ds rest :
  designator d s = Some (ds, rest) ->
  s = ds ++ String d rest /\ digit_run ds.
Proof.
  intros H. split; [|exact (designator_digits _ _ _ _ H)].
  unfold designator in H. rewrite <- (take_drop_while is_digit s).
  destruct (take_while is_digit s) as [|c t]; [discriminate|].
  destruct (drop_while is_digit s) as [|c' r]; [discriminate|].
  destruct (Ascii.eqb_spec d c') as [->|]; [|discriminate].
  now injection H as <- <-.
Qed.

Lemma designator_excl d d' s x :
  designator d s = Some x -> is_digit d = false -> is_digit d' = false ->
  d' <> d -> designator d' s = None.
Proof.
  destruct x as [ds rest]. intros H Hd Hd' Hne.
  apply designator_inv in H as [-> Hds]. now apply designator_other.
Qed.

Lemma designator_nonempty d s x : designator d s = Some x -> s <> EmptyString.
Proof. intros H ->. discriminate H. Qed.

Lemma read_absent n d s g : designator d s = None -> read_part n d (s, g) = (s, g).
Proof. intros H. unfold read_part, fst. now rewrite H. Qed.

Lemma read_present n d ds rest g :
  digit_run ds -> is_digit d = false ->
  read_part n d (ds ++ String d rest, g) = (rest, (n, ds) :: g).
Proof.
  intros Hds Hd. unfold read_part, fst.
  now rewrite (designator_present _ _ _ Hds Hd).
Qed.

Lemma read_some n d s g ds rest :
  designator d s = Some (ds, rest) ->
  read_part n d (s, g) = (rest, (n, ds) :: g).
Proof. intros H. unfold read_part, fst, snd. now rewrite H. Qed.

Lemma at_end_nonempty s g : s <> EmptyString -> at_end (s, g) = None.
Proof. unfold at_end, fst. now destruct s. Qed.

Lemma full_seconds s g :
  run (Opt (Cat (Grp 3 (Plus is_digit)) (Chr "S"))) s g
      (fun s' g' => match s' with
                    | EmptyString => Some {| m_groups := g'; m_rest := s' |}
                    | _ => None
                    end)
  = at_end (read_part 3 "S" (s, g)).
Proof.
  rewrite run_designator by reflexivity. unfold read_part, fst, snd.
  destruct (designator "S" s) as [[ds rest]|] eqn:E.
  - apply designator_nonempty in E.
    destruct s; [congruence|]. rewrite orelse_none_r. now destruct rest.
  - now destruct s.
Qed.

Lemma full_minutes s g :
  run (Cat (Opt (Cat (Grp 2 (Plus is_digit)) (Chr "M")))
           (Opt (Cat (Grp 3 (Plus is_digit)) (Chr "S")))) s g
      (fun s' g' => match s' with
                    | EmptyString => Some {| m_groups := g'; m_rest := s' |}
                    | _ => None
                    end)
  = at_end (read_part 3 "S" (read_part 2 "M" (s, g))).
Proof.
  rewrite run_Cat, (run_ext _ _ _ _ _ full_seconds).
  rewrite run_designator by reflexivity.
  destruct (designator "M" s) as [[ds rest]|] eqn:E.
  - assert (Hs : designator "S" s = None)
      by (apply (designator_excl _ _ _ _ E); [reflexivity..|discriminate]).
    rewrite (read_absent 3 _ _ _ Hs).
    rewrite (at_end_nonempty _ _ (designator_nonempty _ _ _ E)), orelse_none_r.
    now rewrite (read_some 2 _ _ g _ _ E).
  - now rewrite (read_absent 2 _ _ _ E).
Qed.

Lemma fullmatch_duration_re s : fullmatch duration_re s = full_scan_duration s.
Proof.
  unfold fullmatch, duration_re, full_scan_duration, scan_duration.
  rewrite run_Cat, run_Lit.
  destruct (String.prefix "PT" s); [|reflexivity].
  change (String.length "PT") with 2%nat.
  rewrite run_Cat, (run_ext _ _ _ _ _ full_minutes).
  rewrite run_designator by reflexivity.
  set (s0 := drop 2 s).
  assert (Hend : forall st, at_end st
                  = match m_rest (match_of st) with
                    | EmptyString => Some (match_of st)
                    | _ => None
                    end) by reflexivity.
  destruct (designator "H" s0) as [[ds rest]|] eqn:E.
  - assert (Hm : designator "M" s0 = None)
      by (apply (designator_excl _ _ _ _ E); [reflexivity..|discriminate]).
    assert (Hs : designator "S" s0 = None)
      by (apply (designator_excl _ _ _ _ E); [reflexivity..|discriminate]).
    rewrite (read_absent 2 _ _ _ Hm), (read_absent 3 _ _ _ Hs).
    rewrite (at_end_nonempty _ _ (designator_nonempty _ _ _ E)), orelse_none_r.
    rewrite Hend.
    change (read_part 1 "H" (s0, []))
      with (match designator "H" s0 with
            | Some (ds, rest) => (rest, [(1%nat, ds)])
            | None => (s0, [])
            end).
    now rewrite E.
  - rewrite Hend.
    change (read_part 1 "H" (s0, []))
      with (match designator "H" s0 with
            | Some (ds, rest) => (rest, [(1%nat, ds)])
            | None => (s0, [])
            end).
    now rewrite E.
Qed.

Lemma read_part_split n d s g s' g' :
  read_part n d (s, g) = (s', g') ->
  exists p, optional_part d p /\ s = p ++ s'.
Proof.
  unfold read_part, fst, snd.
  destruct (designator d s) as [[ds rest]|] eqn:E; intros H.
  - injection H as <- _. apply designator_inv in E as [-> Hds].
    exists (ds ++ String d EmptyString). split.
    + right. now exists ds.
    + now rewrite append_assoc.
  - injection H as <- _. exists EmptyString. split; [now left|reflexivity].
Qed.

Lemma optional_part_skip d d' p rest :
  is_digit d' = false -> d <> d' -> optional_part d' p ->
  designator d rest = None -> designator d (p ++ rest) = None.
Proof.
  intros Hd' Hne [->|(ds & Hds & ->)] Hrest; [exact Hrest|].
  rewrite append_assoc. now apply designator_other.
Qed.

Lemma optional_part_read n d p rest g :
  is_digit d = false -> optional_part d p -> designator d rest = None ->
  fst (read_part n d (p ++ rest, g)) = rest.
Proof.
  intros Hd [->|(ds & Hds & ->)] Hrest.
  - cbn [append]. now rewrite (read_absent n d rest g Hrest).
  - rewrite append_assoc. cbn [append]. now rewrite read_present.
Qed.

(** A string matches the pattern of the specification exactly when
    [re.fullmatch] accepts it. *)
Lemma matches_pattern_fullmatch s :
  matches_pattern s <-> exists m, fullmatch duration_re s = Some m.
Proof.
  rewrite fullmatch_duration_re. unfold full_scan_duration, scan_duration.
  split.
  - intros (h & m & sec & Hh & Hm & Hs & ->).
    assert (Hp : String.prefix "PT" ("PT" ++ h ++ m ++ sec) = true)
      by (apply prefix_iff; eauto).
    rewrite Hp.
    change (drop 2 ("PT" ++ h ++ m ++ sec)) with (h ++ m ++ sec).
    assert (HS : designator "S" EmptyString = None) by reflexivity.
    assert (HM : designator "M" (sec ++ EmptyString) = None)
      by (apply (optional_part_skip _ "S"); auto; discriminate).
    assert (HH : designator "H" (m ++ sec ++ EmptyString) = None).
    { apply (optional_part_skip _ "M"); auto; [discriminate|].
      apply (optional_part_skip _ "S"); auto; discriminate. }
    replace (h ++ m ++ sec) with (h ++ m ++ sec ++ "")
      by (now rewrite append_empty_r).
    destruct (read_part 1 "H" (h ++ m ++ sec ++ "", [])) as [s1 g1] eqn:E1.
    pose proof (optional_part_read 1 "H" h _ [] eq_refl Hh HH) as F1.
    rewrite E1 in F1. cbn [fst] in F1. subst s1.
    destruct (read_part 2 "M" (m ++ sec ++ "", g1)) as [s2 g2] eqn:E2.
    pose proof (optional_part_read 2 "M" m _ g1 eq_refl Hm HM) as F2.
    rewrite E2 in F2. cbn [fst] in F2. subst s2.
    destruct (read_part 3 "S" (sec ++ "", g2)) as [s3 g3] eqn:E3.
    pose proof (optional_part_read 3 "S" sec _ g2 eq_refl Hs HS) as F3.
    rewrite E3 in F3. cbn [fst] in F3. subst s3.
    cbn [match_of m_rest fst]. eauto.
  - destruct (String.prefix "PT" s) eqn:Hp; [|intros [m Hm]; discriminate].
    apply prefix_iff in Hp as [s0 ->].
    change (drop 2 ("PT" ++ s0)) with s0.
    destruct (read_part 1 "H" (s0, [])) as [s1 g1] eqn:E1.
    destruct (read_part 2 "M" (s1, g1)) as [s2 g2] eqn:E2.
    destruct (read_part 3 "S" (s2, g2)) as [s3 g3] eqn:E3.
    cbn [match_of m_rest fst]. destruct s3; [|intros [m Hm]; discriminate].
    intros _.
    apply read_part_split in E1 as (h & Hh & ->).
    apply read_part_split in E2 as (m & Hm & ->).
    apply read_part_split in E3 as (sec & Hs & ->).
    exists h, m, sec. repeat split; try assumption.
    now rewrite append_empty_r.
Qed.

End DurationFacts.

(** ** The longest matching prefix of an input *)

Module PrefixFacts.
Import Py Re YouTubeIntegration PyFacts ReFacts Spec DurationFacts.

(** *** Groups given by their digit runs *)

Lemma optional_part_run d p :
  optional_part d p <-> exists run, run_ok run /\ p = part d run.
Proof.
  split.
  - intros [->|(ds & Hds & ->)]; [now exists None|now exists (Some ds)].
  - intros ([ds|] & Hr & ->); [right; now exists ds|now left].
Qed.

Lemma matches_pattern_text h m sec :
  run_ok h -> run_ok m -> run_ok sec -> matches_pattern (pattern_text h m sec).
Proof.
  intros Hh Hm Hs. exists (part "H" h), (part "M" m), (part "S" sec).
  split; [|split; [|split]]; try (apply optional_part_run; eauto).
  reflexivity.
Qed.

Lemma matches_pattern_inv p :
  matches_pattern p ->
  exists h m sec,
    run_ok h /\ run_ok m /\ run_ok sec /\ p = pattern_text h m sec.
Proof.
  intros (ph & pm & ps & Hh & Hm & Hs & ->).
  apply optional_part_run in Hh as (h & ? & ->).
  apply optional_part_run in Hm as (m & ? & ->).
  apply optional_part_run in Hs as (sec & ? & ->).
  exists h, m, sec. auto.
Qed.

Lemma part_some d ds later :
  part d (Some ds) ++ later = ds ++ String d later.
Proof. cbn [part]. now rewrite append_assoc. Qed.

Lemma part_none d later : part d None ++ later = later.
Proof. reflexivity. Qed.

Lemma pattern_text_append h m sec rest :
  pattern_text h m sec ++ rest
  = "PT" ++ part "H" h ++ part "M" m ++ part "S" sec ++ rest.
Proof. unfold pattern_text. now rewrite !append_assoc. Qed.

Lemma pattern_text_length h m sec :
  String.length (pattern_text h m sec)
  = (2 + String.length (part "H" h) + String.length (part "M" m)
     + String.length (part "S" sec))%nat.
Proof. unfold pattern_text. rewrite !length_append. simpl. lia. Qed.

Lemma part_some_length d ds :
  String.length (part d (Some ds)) = S (String.length ds).
Proof. cbn [part]. rewrite length_append. simpl. lia. Qed.

Lemma designator_part_same d ds later :
  digit_run ds -> is_digit d = false ->
  designator d (part d (Some ds) ++ later) = Some (ds, later).
Proof. intros. rewrite part_some. now apply designator_present. Qed.

Lemma designator_part_other d d' ds later :
  digit_run ds -> is_digit d' = false -> d <> d' ->
  designator d (part d' (Some ds) ++ later) = None.
Proof. intros. rewrite part_some. now apply designator_other. Qed.

(** What each stage of the reading finds when its own group is absent. *)
Lemma stage_conditions h m sec rest :
  run_ok m -> run_ok sec -> stops h m sec rest ->
  (h = None -> designator "H" (part "M" m ++ part "S" sec ++ rest) = None)
  /\ (m = None -> designator "M" (part "S" sec ++ rest) = None)
  /\ (sec = None -> designator "S" rest = None).
Proof.
  intros Hm Hs (S1 & S2 & S3). split; [|split].
  - intros ->. destruct m as [y|].
    + apply designator_part_other; [assumption|reflexivity|discriminate].
    + rewrite part_none. destruct sec as [z|].
      * apply designator_part_other; [assumption|reflexivity|discriminate].
      * rewrite part_none. auto.
  - intros ->. destruct sec as [z|].
    + apply designator_part_other; [assumption|reflexivity|discriminate].
    + rewrite part_none. auto.
  - exact S1.
Qed.

Lemma read_part_run n d run later g :
  is_digit d = false -> run_ok run ->
  (run = None -> designator d later = None) ->
  read_part n d (part d run ++ later, g) = (later, captured n run g).
Proof.
  intros Hd Hr Hn. destruct run as [ds|].
  - rewrite part_some. now apply read_present.
  - rewrite part_none. cbn [captured]. apply read_absent. auto.
Qed.

(** The reading of an input made of three groups and a rest that does not
    continue the pattern. *)
Lemma scan_pattern_text h m sec rest :
  run_ok h -> run_ok m -> run_ok sec -> stops h m sec rest ->
  scan_duration (pattern_text h m sec ++ rest)
  = Some {| m_groups := groups_of h m sec; m_rest := rest |}.
Proof.
  intros Hh Hm Hs St.
  destruct (stage_conditions h m sec rest Hm Hs St) as (CH & CM & CS).
  rewrite pattern_text_append. unfold scan_duration.
  set (t := part "H" h ++ part "M" m ++ part "S" sec ++ rest).
  assert (Hp : String.prefix "PT" ("PT" ++ t) = true)
    by (apply prefix_iff; eauto).
  rewrite Hp. change (drop 2 ("PT" ++ t)) with t. subst t.
  rewrite (read_part_run 1 "H" h _ [] eq_refl Hh CH).
  rewrite (read_part_run 2 "M" m _ _ eq_refl Hm CM).
  rewrite (read_part_run 3 "S" sec _ _ eq_refl Hs CS).
  reflexivity.
Qed.

Lemma read_part_inv n d s g s' g' :
  read_part n d (s, g) = (s', g') ->
  exists run,
    run_ok run /\ s = part d run ++ s' /\ g' = captured n run g
    /\ (run = None -> designator d s' = None).
Proof.
  unfold read_part, fst, snd.
  destruct (designator d s) as [[ds rest]|] eqn:E; intros H.
  - injection H as <- <-. apply designator_inv in E as [-> Hds].
    exists (Some ds). rewrite part_some.
    split; [assumption|]. split; [reflexivity|]. split; [reflexivity|].
    discriminate.
  - injection H as <- <-. exists None.
    split; [exact I|]. split; [reflexivity|]. split; [reflexivity|]. auto.
Qed.

(** Every reading is the reading of three groups and such a rest. *)
Lemma scan_decompose s mt :
  scan_duration s = Some mt ->
  exists h m sec,
    run_ok h /\ run_ok m /\ run_ok sec
    /\ s = pattern_text h m sec ++ m_rest mt
    /\ m_groups mt = groups_of h m sec
    /\ stops h m sec (m_rest mt).
Proof.
  unfold scan_duration. destruct (String.prefix "PT" s) eqn:Hp; [|discriminate].
  apply prefix_iff in Hp as [s0 ->]. change (drop 2 ("PT" ++ s0)) with s0.
  destruct (read_part 1 "H" (s0, [])) as [s1 g1] eqn:E1.
  destruct (read_part 2 "M" (s1, g1)) as [s2 g2] eqn:E2.
  destruct (read_part 3 "S" (s2, g2)) as [s3 g3] eqn:E3.
  intros H. injection H as <-. cbn [match_of m_rest m_groups fst snd].
  apply read_part_inv in E1 as (h & Hh & -> & -> & N1).
  apply read_part_inv in E2 as (m & Hm & -> & -> & N2).
  apply read_part_inv in E3 as (sec & Hs & -> & -> & N3).
  exists h, m, sec.
  split; [assumption|]. split; [assumption|]. split; [assumption|].
  split; [now rewrite pattern_text_append|]. split; [reflexivity|].
  split; [|split].
  - exact N3.
  - intros -> ->. exact (N2 eq_refl).
  - intros -> -> ->. exact (N1 eq_refl).
Qed.

(** *** The longest matching prefix *)

Lemma longest_stops h m sec rest :
  run_ok h -> run_ok m -> run_ok sec ->
  longest_matching_prefix (pattern_text h m sec ++ rest) (pattern_text h m sec) ->
  stops h m sec rest.
Proof.
  intros Hh Hm Hs [_ Hl].
  assert (K : forall h' m' sec' r,
             run_ok h' -> run_ok m' -> run_ok sec' ->
             pattern_text h m sec ++ rest = pattern_text h' m' sec' ++ r ->
             (String.length (pattern_text h' m' sec')
              <= String.length (pattern_text h m sec))%nat).
  { intros h' m' sec' r ? ? ? E. apply Hl.
    split; [now exists r|now apply matches_pattern_text]. }
  split; [|split].
  - intros ->.
    destruct (designator "S" rest) as [[x r]|] eqn:E; [exfalso|reflexivity].
    apply designator_inv in E as [-> Hx].
    specialize (K h m (Some x) r Hh Hm Hx).
    rewrite !pattern_text_length, part_some_length in K.
    cbn [part String.length] in K.
    assert (E : pattern_text h m None ++ x ++ String "S" r
                = pattern_text h m (Some x) ++ r)
      by (now rewrite !pattern_text_append, part_some, part_none).
    specialize (K E). lia.
  - intros -> ->.
    destruct (designator "M" rest) as [[x r]|] eqn:E; [exfalso|reflexivity].
    apply designator_inv in E as [-> Hx].
    specialize (K h (Some x) None r Hh Hx I).
    rewrite !pattern_text_length, part_some_length in K.
    cbn [part String.length] in K.
    assert (E : pattern_text h None None ++ x ++ String "M" r
                = pattern_text h (Some x) None ++ r)
      by (now rewrite !pattern_text_append, part_some, !part_none).
    specialize (K E). lia.
  - intros -> -> ->.
    destruct (designator "H" rest) as [[x r]|] eqn:E; [exfalso|reflexivity].
    apply designator_inv in E as [-> Hx].
    specialize (K (Some x) None None r Hx I I).
    rewrite !pattern_text_length, part_some_length in K.
    cbn [part String.length] in K.
    assert (E : pattern_text None None None ++ x ++ String "H" r
                = pattern_text (Some x) None None ++ r)
      by (now rewrite !pattern_text_append, part_some, !part_none).
    specialize (K E). lia.
Qed.

(** Two readings of the same text agree on a group, or the second one has
    ended before it. *)
Lemma stage_compare d run run' later later' :
  is_digit d = false -> run_ok run -> run_ok run' ->
  part d run ++ later = part d run' ++ later' ->
  (run = None -> designator d later = None) ->
  (run' = run /\ later = later')
  \/ (run' = None
      /\ exists x, run = Some x /\ digit_run x /\ later' = x ++ String d later).
Proof.
  intros Hd Hr Hr' E Hn. destruct run as [x|], run' as [x'|].
  - left.
    assert (D : designator d (part d (Some x) ++ later) = Some (x', later'))
      by (rewrite E; now apply designator_part_same).
    rewrite designator_part_same in D by assumption.
    injection D as -> ->. auto.
  - right. split; [reflexivity|]. exists x.
    rewrite part_some, part_none in E. auto.
  - exfalso. rewrite part_none in E.
    assert (D : designator d later = Some (x', later'))
      by (rewrite E; now apply designator_part_same).
    rewrite (Hn eq_refl) in D. discriminate.
  - left. rewrite !part_none in E. auto.
Qed.

Lemma run_excluded d d' run later x r :
  is_digit d = false -> is_digit d' = false -> d <> d' ->
  run_ok run -> digit_run x ->
  part d' run ++ later = x ++ String d r -> run = None.
Proof.
  intros Hd Hd' Hne Hr Hx E. destruct run as [y|]; [exfalso|reflexivity].
  assert (D : designator d' (part d' (Some y) ++ later) = Some (y, later))
    by (now apply designator_part_same).
  rewrite E, (designator_other d' d x r Hx Hd) in D; [discriminate|congruence].
Qed.

Lemma stops_longest h m sec rest :
  run_ok h -> run_ok m -> run_ok sec -> stops h m sec rest ->
  longest_matching_prefix (pattern_text h m sec ++ rest) (pattern_text h m sec).
Proof.
  intros Hh Hm Hs St.
  split; [split; [now exists rest|now apply matches_pattern_text]|].
  intros p' [[rest' E] Hp'].
  apply matches_pattern_inv in Hp' as (h' & m' & sec' & Hh' & Hm' & Hs' & ->).
  destruct (stage_conditions h m sec rest Hm Hs St) as (CH & CM & CS).
  rewrite !pattern_text_append in E.
  assert (E0 : part "H" h ++ part "M" m ++ part "S" sec ++ rest
               = part "H" h' ++ part "M" m' ++ part "S" sec' ++ rest')
    by (cbn [append] in E; now injection E).
  rewrite !pattern_text_length.
  destruct (stage_compare "H" h h' _ _ eq_refl Hh Hh' E0 CH)
    as [[-> E1]|(-> & x & -> & Hx & E1)].
  - destruct (stage_compare "M" m m' _ _ eq_refl Hm Hm' E1 CM)
      as [[-> E2]|(-> & y & -> & Hy & E2)].
    + destruct (stage_compare "S" sec sec' _ _ eq_refl Hs Hs' E2 CS)
        as [[-> E3]|(-> & z & -> & Hz & E3)]; [lia|].
      cbn [part String.length]. lia.
    + assert (sec' = None)
        by exact (run_excluded "M" "S" sec' rest' y _ eq_refl eq_refl
                    ltac:(discriminate) Hs' Hy E2).
      subst sec'. cbn [part String.length]. lia.
  - assert (m' = None)
      by exact (run_excluded "H" "M" m' _ x _ eq_refl eq_refl
                  ltac:(discriminate) Hm' Hx E1).
    subst m'. rewrite part_none in E1.
    assert (sec' = None)
      by exact (run_excluded "H" "S" sec' rest' x _ eq_refl eq_refl
                  ltac:(discriminate) Hs' Hx E1).
    subst sec'. cbn [part String.length]. lia.
Qed.

(** The match object of an input, from its longest matching prefix. *)
Lemma match_longest_prefix h m sec rest :
  run_ok h -> run_ok m -> run_ok sec ->
  longest_matching_prefix (pattern_text h m sec ++ rest) (pattern_text h m sec) ->
  match_ duration_re (pattern_text h m sec ++ rest)
  = Some {| m_groups := groups_of h m sec; m_rest := rest |}.
Proof.
  intros. rewrite match_duration_re. apply scan_pattern_text; auto.
  now apply longest_stops.
Qed.

(** Every match is a match of the longest matching prefix. *)
Lemma match_decompose s mt :
  match_ duration_re s = Some mt ->
  exists h m sec,
    run_ok h /\ run_ok m /\ run_ok sec
    /\ s = pattern_text h m sec ++ m_rest mt
    /\ m_groups mt = groups_of h m sec
    /\ longest_matching_prefix s (pattern_text h m sec).
Proof.
  rewrite match_duration_re. intros H.
  apply scan_decompose in H as (h & m & sec & Hh & Hm & Hs & E & G & St).
  exists h, m, sec. repeat (split; [assumption|]).
  rewrite E at 1. now apply stops_longest.
Qed.

Lemma stops_end h m sec : stops h m sec EmptyString.
Proof. repeat split. Qed.

(** *** The values of the groups *)

Lemma group_groups_of h m sec :
  group 1 (groups_of h m sec) = h
  /\ group 2 (groups_of h m sec) = m
  /\ group 3 (groups_of h m sec) = sec.
Proof. destruct h, m, sec; repeat split; reflexivity. Qed.

Lemma groups_of_ok h m sec :
  run_ok h -> run_ok m -> run_ok sec -> groups_ok (groups_of h m sec).
Proof.
  intros Hh Hm Hs. unfold groups_of, groups_ok.
  destruct h, m, sec; cbn [captured];
    repeat (apply Forall_cons; [cbn [snd]; assumption|]); apply Forall_nil.
Qed.

Lemma digits_value_decimal ds :
  forall acc,
    digits_value acc ds = acc * 10 ^ Z.of_nat (String.length ds) + decimal ds.
Proof.
  induction ds as [|c r IH]; intros acc; cbn [digits_value decimal String.length].
  - change (Z.of_nat 0) with 0. rewrite Z.pow_0_r. lia.
  - rewrite IH, Nat2Z.inj_succ, Z.pow_succ_r by lia. ring.
Qed.

Lemma run_value_nonneg run : run_ok run -> 0 <= run_value run.
Proof.
  destruct run as [ds|]; cbn [run_ok run_value]; [|lia].
  intros [_ Hd]. pose proof (digits_value_nonneg ds Hd 0 ltac:(lia)) as H.
  rewrite digits_value_decimal in H. lia.
Qed.

(** The conversion of a group: the value of its run, unless the run is
    longer than the digit limit. *)
Lemma int_group_run n h m sec rest run :
  run_ok h -> run_ok m -> run_ok sec ->
  group n (groups_of h m sec) = run ->
  int_group n {| m_groups := groups_of h m sec; m_rest := rest |}
  = if run_short run then Ok (run_value run) else Raise ValueError.
Proof.
  intros Hh Hm Hs Hg.
  rewrite int_group_value by (now apply groups_of_ok).
  cbn [m_groups]. rewrite Hg. destruct run as [v|]; [|reflexivity].
  cbn [run_short run_value]. rewrite Nat.ltb_antisym.
  destruct (String.length v <=? max_str_digits)%nat; cbn [negb]; [|reflexivity].
  now rewrite digits_value_decimal.
Qed.

(** What both functions do on an input, from its longest matching
    prefix. *)
Lemma duration_outcome self h m sec rest :
  run_ok h -> run_ok m -> run_ok sec ->
  longest_matching_prefix (pattern_text h m sec ++ rest) (pattern_text h m sec) ->
  if run_short h && run_short m && run_short sec
  then fields {| m_groups := groups_of h m sec; m_rest := rest |}
       = Ok (run_value h, run_value m, run_value sec)
       /\ _parse_duration self (pattern_text h m sec ++ rest)
          = Ok (clock (run_value h) (run_value m) (run_value sec))
       /\ _duration_to_seconds self (pattern_text h m sec ++ rest)
          = Ok (run_value h * 3600 + run_value m * 60 + run_value sec)
  else _parse_duration self (pattern_text h m sec ++ rest) = Raise ValueError
       /\ _duration_to_seconds self (pattern_text h m sec ++ rest)
          = Raise ValueError.
Proof.
  intros Hh Hm Hs Hl.
  pose proof (match_longest_prefix h m sec rest Hh Hm Hs Hl) as Hmt.
  destruct (group_groups_of h m sec) as (G1 & G2 & G3).
  pose proof (int_group_run 1 h m sec rest h Hh Hm Hs G1) as I1.
  pose proof (int_group_run 2 h m sec rest m Hh Hm Hs G2) as I2.
  pose proof (int_group_run 3 h m sec rest sec Hh Hm Hs G3) as I3.
  pose proof (run_value_nonneg m Hm). pose proof (run_value_nonneg sec Hs).
  destruct (run_short h); cbn [andb].
  - destruct (run_short m); cbn [andb].
    + destruct (run_short sec).
      * split; [unfold fields; now rewrite I1, I2, I3|]. split.
        -- now apply (parse_duration_clock self _ _ _ _ _ Hmt).
        -- now apply (duration_to_seconds_sum self _ _ _ _ _ Hmt).
      * unfold _parse_duration, _duration_to_seconds.
        rewrite Hmt, I1, I2, I3. split; reflexivity.
    + unfold _parse_duration, _duration_to_seconds.
      rewrite Hmt, I1, I2. split; reflexivity.
  - unfold _parse_duration, _duration_to_seconds.
    rewrite Hmt, I1. split; reflexivity.
Qed.

Lemma pattern_text_alone h m sec :
  pattern_text h m sec ++ EmptyString = pattern_text h m sec.
Proof. apply append_empty_r. Qed.

(** What follows the longest matching prefix is ignored. *)
Lemma rest_ignored self h m sec rest :
  run_ok h -> run_ok m -> run_ok sec ->
  longest_matching_prefix (pattern_text h m sec ++ rest) (pattern_text h m sec) ->
  _parse_duration self (pattern_text h m sec ++ rest)
  = _parse_duration self (pattern_text h m sec)
  /\ _duration_to_seconds self (pattern_text h m sec ++ rest)
     = _duration_to_seconds self (pattern_text h m sec).
Proof.
  intros Hh Hm Hs Hl.
  pose proof (duration_outcome self h m sec rest Hh Hm Hs Hl) as A.
  pose proof (duration_outcome self h m sec EmptyString Hh Hm Hs
                (stops_longest h m sec _ Hh Hm Hs (stops_end h m sec))) as B.
  rewrite pattern_text_alone in B.
  destruct (run_short h && run_short m && run_short sec).
  - destruct A as (_ & -> & ->), B as (_ & -> & ->). auto.
  - destruct A as (-> & ->), B as (-> & ->). auto.
Qed.

Lemma clock_not_unknown h mi se :
  0 <= h -> 0 <= mi -> clock h mi se <> "Unknown".
Proof.
  intros Hh Hmi E. destruct (clock_head h mi se Hh Hmi) as (c & r & E' & Hc).
  rewrite E in E'. injection E' as <- _. discriminate Hc.
Qed.

Lemma repeat_digits c n :
  is_digit c = true ->
  all is_digit (string_of_list_ascii (repeat c n)) = true
  /\ String.length (string_of_list_ascii (repeat c n)) = n.
Proof.
  intros Hc. induction n as [|n [IH1 IH2]]; [split; reflexivity|].
  cbn [repeat string_of_list_ascii all String.length].
  rewrite Hc, IH1, IH2. auto.
Qed.

End PrefixFacts.

(* ------------------------------------------------------------------------- *)
(** ** The duration parser *)

Module Duration.
Import Py Re YouTubeIntegration PyFacts ReFacts Spec DurationFacts PrefixFacts.
Import Examples.

Lemma parse_duration_no_prefix self s :
  String.prefix "PT" s = false -> _parse_duration self s = Ok "Unknown".
Proof.
  intros H. apply match_iff_prefix in H. unfold _parse_duration. now rewrite H.
Qed.

Lemma duration_to_seconds_no_prefix self s :
  String.prefix "PT" s = false -> _duration_to_seconds self s = Ok 0.
Proof.
  intros H. apply match_iff_prefix in H.
  unfold _duration_to_seconds. now rewrite H.
Qed.

Lemma digit_head_no_prefix c r :
  is_digit c = true -> String.prefix "PT" (String c r) = false.
Proof.
  intros Hc. cbn [String.prefix].
  destruct (Ascii.ascii_dec "P" c) as [<-|]; [discriminate Hc|reflexivity].
Qed.

(** A field of more than [max_str_digits] digits makes both functions
    raise. *)
Lemma oversized_minutes self r :
  digit_run r -> (max_str_digits < String.length r)%nat ->
  _parse_duration self ("PT" ++ r ++ "M") = Raise ValueError
  /\ _duration_to_seconds self ("PT" ++ r ++ "M") = Raise ValueError.
Proof.
  intros Hr Hl.
  pose proof (duration_outcome self None (Some r) None "" I Hr I
                (stops_longest None (Some r) None _ I Hr I
                   (stops_end _ _ _))) as H.
  rewrite pattern_text_alone in H.
  change (pattern_text None (Some r) None) with ("PT" ++ (r ++ "M") ++ "") in H.
  rewrite append_empty_r in H. cbn [run_short] in H.
  destruct (String.length r <=? max_str_digits)%nat eqn:E;
    [apply Nat.leb_le in E; lia|exact H].
Qed.

Lemma long_run_digits :
  digit_run long_run /\ (max_str_digits < String.length long_run)%nat.
Proof.
  destruct (repeat_digits "1" 4301 eq_refl) as [Hd Hl].
  fold long_run in Hd, Hl. split; [split; [|exact Hd]|].
  - intros E. rewrite E in Hl. discriminate Hl.
  - rewrite Hl. unfold max_str_digits. lia.
Qed.

(** C1, as stated, fails twice.  "PT1.5S" does not match the pattern
    ([re.fullmatch] rejects it), yet the parser, which uses [re.match],
    answers "0:00" for it instead of the sentinel "Unknown".  And on "PT"
    followed by 4301 digits and "M" the parser raises [ValueError]. *)
Lemma malformed_input_not_sentinel :
  (~ matches_pattern "PT1.5S"
   /\ fullmatch duration_re "PT1.5S" = None
   /\ _parse_duration (init None) "PT1.5S" = Ok "0:00"
   /\ "0:00" <> "Unknown")
  /\ _parse_duration (init None) long_duration = Raise ValueError.
Proof.
  split.
  - split; [|split; [reflexivity|split; [reflexivity|discriminate]]].
    intros H. apply matches_pattern_chars in H. discriminate H.
  - destruct long_run_digits as [Hd Hl].
    exact (proj1 (oversized_minutes (init None) long_run Hd Hl)).
Qed.

(** C1, amended.  The parser returns the sentinel (human string "Unknown",
    zero seconds) exactly on the inputs of which no prefix matches the
    pattern, that is, the inputs that do not start with PT.  Every other
    input has a longest matching prefix; both functions give on the input
    what they give on that prefix alone, so that the text after it is
    ignored; the result is a clock string, never the sentinel, when the
    digit runs of the prefix have at most 4300 digits each, and
    [ValueError] is raised when one of them is longer. *)
Theorem parse_duration_sentinel (self : t) (s : string) :
  ((forall p rest, s = p ++ rest -> ~ matches_pattern p) ->
     _parse_duration self s = Ok "Unknown"
     /\ _duration_to_seconds self s = Ok 0)
  /\ (_parse_duration self s = Ok "Unknown" ->
      forall p rest, s = p ++ rest -> ~ matches_pattern p)
  /\ (String.prefix "PT" s = true ->
      exists h m sec rest,
        run_ok h /\ run_ok m /\ run_ok sec
        /\ s = pattern_text h m sec ++ rest
        /\ longest_matching_prefix s (pattern_text h m sec))
  /\ (forall h m sec rest,
        run_ok h -> run_ok m -> run_ok sec ->
        s = pattern_text h m sec ++ rest ->
        longest_matching_prefix s (pattern_text h m sec) ->
        _parse_duration self s = _parse_duration self (pattern_text h m sec)
        /\ _duration_to_seconds self s
           = _duration_to_seconds self (pattern_text h m sec)
        /\ (run_short h && run_short m && run_short sec = true ->
            _parse_duration self s
            = Ok (clock (run_value h) (run_value m) (run_value sec))
            /\ clock (run_value h) (run_value m) (run_value sec) <> "Unknown")
        /\ (run_short h && run_short m && run_short sec = false ->
            _parse_duration self s = Raise ValueError
            /\ _duration_to_seconds self s = Raise ValueError)).
Proof.
  split; [|split; [|split]].
  - intros H. apply no_matching_prefix_iff in H.
    split; [now apply parse_duration_no_prefix
           |now apply duration_to_seconds_no_prefix].
  - intros H. apply no_matching_prefix_iff.
    destruct (String.prefix "PT" s) eqn:Hp; [exfalso|reflexivity].
    destruct (parse_duration_accepted self s Hp) as [(c & r & E & Hc)|E];
      [|congruence].
    rewrite H in E. injection E as <- _. discriminate Hc.
  - intros Hp.
    destruct (match_ duration_re s) as [mt|] eqn:Hm;
      [|apply match_iff_prefix in Hm; congruence].
    destruct (match_decompose _ _ Hm) as (h & m & sec & ? & ? & ? & E & _ & Hl).
    exists h, m, sec, (m_rest mt). auto 10.
  - intros h m sec rest Hh Hm Hs -> Hl.
    destruct (rest_ignored self h m sec rest Hh Hm Hs Hl) as [E1 E2].
    split; [exact E1|]. split; [exact E2|].
    pose proof (duration_outcome self h m sec rest Hh Hm Hs Hl) as A.
    destruct (run_short h && run_short m && run_short sec).
    + split; [intros _|discriminate].
      destruct A as (_ & A & _). split; [exact A|].
      apply clock_not_unknown; now apply run_value_nonneg.
    + split; [discriminate|intros _; exact A].
Qed.

Lemma parse_duration_sentinel_witness :
  (_parse_duration (init None) "" = Ok "Unknown"
   /\ _duration_to_seconds (init None) "" = Ok 0)
  /\ _parse_duration (init None) "PT1.5S"
     = _parse_duration (init None) (pattern_text None None None).
Proof.
  split.
  - apply (proj1 (parse_duration_sentinel (init None) "")).
    apply no_matching_prefix_iff. reflexivity.
  - refine (proj1 (proj2 (proj2 (proj2
                     (parse_duration_sentinel (init None) "PT1.5S")))
                     None None None "1.5S" I I I eq_refl _)).
    apply (stops_longest None None None "1.5S" I I I).
    repeat split.
Defined.

(** C2: the three test vectors of the specification. *)
Theorem duration_test_vectors (self : t) :
  _parse_duration self "PT4M13S" = Ok "4:13"
  /\ _duration_to_seconds self "PT4M13S" = Ok 253
  /\ _parse_duration self "PT1H2M3S" = Ok "1:02:03"
  /\ _duration_to_seconds self "PT1H2M3S" = Ok 3723
  /\ _parse_duration self "PT0S" = Ok "0:00"
  /\ _duration_to_seconds self "PT0S" = Ok 0.
Proof. repeat split; vm_compute; reflexivity. Qed.

(** C5, as stated, fails: "PT90M" is accepted with a minutes field of 90,
    and is rendered "90:00". *)
Lemma ninety_minutes_accepted :
  exists m,
    match_ duration_re "PT90M" = Some m
    /\ fields m = Ok (0, 90, 0)
    /\ ~ (0 <= 90 <= 59)
    /\ _parse_duration (init None) "PT90M" = Ok "90:00".
Proof.
  eexists. split; [vm_compute; reflexivity|].
  split; [vm_compute; reflexivity|]. split; [lia|vm_compute; reflexivity].
Qed.

(** C5, amended.  An input is accepted, that is, parsed to something other
    than the sentinel, exactly when it consists of a longest matching
    prefix PT<hours>H<minutes>M<seconds>S, each group present or not and
    each run of at most 4300 digits, and a rest.  For every such input the
    hours, minutes and seconds fields are the values of the corresponding
    runs of digits, 0 for an absent group; they are not negative (minutes
    and seconds are not limited to 59), the total is
    hours*3600 + minutes*60 + seconds, and the human string shows these
    three fields. *)
Theorem duration_fields_total (self : t) (s : string) :
  (forall human,
      _parse_duration self s = Ok human -> human <> "Unknown" ->
      exists h m sec rest,
        run_ok h /\ run_ok m /\ run_ok sec
        /\ s = pattern_text h m sec ++ rest
        /\ longest_matching_prefix s (pattern_text h m sec)
        /\ run_short h && run_short m && run_short sec = true)
  /\ (forall h m sec rest,
        run_ok h -> run_ok m -> run_ok sec ->
        s = pattern_text h m sec ++ rest ->
        longest_matching_prefix s (pattern_text h m sec) ->
        run_short h && run_short m && run_short sec = true ->
        exists mt,
          match_ duration_re s = Some mt
          /\ fields mt = Ok (run_value h, run_value m, run_value sec)
          /\ 0 <= run_value h /\ 0 <= run_value m /\ 0 <= run_value sec
          /\ _duration_to_seconds self s
             = Ok (run_value h * 3600 + run_value m * 60 + run_value sec)
          /\ _parse_duration self s
             = Ok (clock (run_value h) (run_value m) (run_value sec))).
Proof.
  split.
  - intros human Hp Hne.
    destruct (match_ duration_re s) as [mt|] eqn:Hm.
    + destruct (match_decompose _ _ Hm)
        as (h & m & sec & Hh & Hmi & Hs & E & _ & Hl).
      exists h, m, sec, (m_rest mt).
      repeat (split; [assumption|]).
      rewrite E in Hl at 1.
      pose proof (duration_outcome self h m sec _ Hh Hmi Hs Hl) as A.
      rewrite <- E in A.
      destruct (run_short h && run_short m && run_short sec);
        [reflexivity|destruct A; congruence].
    + unfold _parse_duration in Hp. rewrite Hm in Hp. congruence.
  - intros h m sec rest Hh Hm Hs -> Hl Hshort.
    pose proof (duration_outcome self h m sec rest Hh Hm Hs Hl) as A.
    rewrite Hshort in A. destruct A as (A1 & A2 & A3).
    eexists. split; [exact (match_longest_prefix h m sec rest Hh Hm Hs Hl)|].
    split; [exact A1|].
    repeat (split; [now apply run_value_nonneg|]). split; [exact A3|exact A2].
Qed.

Lemma duration_fields_total_witness :
  exists mt,
    match_ duration_re "PT90M" = Some mt
    /\ fields mt = Ok (run_value None, run_value (Some "90"), run_value None)
    /\ 0 <= run_value None /\ 0 <= run_value (Some "90") /\ 0 <= run_value None
    /\ _duration_to_seconds (init None) "PT90M"
       = Ok (run_value None * 3600 + run_value (Some "90") * 60
             + run_value None)
    /\ _parse_duration (init None) "PT90M"
       = Ok (clock (run_value None) (run_value (Some "90")) (run_value None)).
Proof.
  assert (Hr : run_ok (Some "90")) by (split; [discriminate|reflexivity]).
  apply (proj2 (duration_fields_total (init None) "PT90M")
           None (Some "90") None "" I Hr I eq_refl).
  - apply (stops_longest None (Some "90") None "" I Hr I). repeat split.
  - reflexivity.
Defined.

(** C7: on an accepted input with fields hours, minutes, seconds the human
    string is H:MM:SS when hours > 0 and M:SS otherwise, MM and SS being
    zero-padded to two digits; the all-zero duration is "0:00". *)
Theorem human_format (self : t) (s : string) (m : Match) (h mi se : Z) :
  match_ duration_re s = Some m ->
  fields m = Ok (h, mi, se) ->
  _parse_duration self s
  = Ok (if 0 <? h
        then str h ++ ":" ++ zero_pad2 mi ++ ":" ++ zero_pad2 se
        else str mi ++ ":" ++ zero_pad2 se)
  /\ (h = 0 -> mi = 0 -> se = 0 -> _parse_duration self s = Ok "0:00").
Proof.
  intros Hm Hf. apply fields_inv in Hf as (Hh & Hmi & Hse).
  destruct (fields_nonneg _ _ _ _ _ Hm Hh Hmi Hse) as (? & ? & ?).
  pose proof (parse_duration_clock self _ _ _ _ _ Hm Hh Hmi Hse) as Hc.
  unfold clock in Hc. split; [auto|].
  intros -> -> ->. now rewrite Hc.
Qed.

Lemma human_format_witness :
  _parse_duration (init None) "PT1H2M3S"
  = Ok (if 0 <? 1
        then str 1 ++ ":" ++ zero_pad2 2 ++ ":" ++ zero_pad2 3
        else str 2 ++ ":" ++ zero_pad2 3)
  /\ (1 = 0 -> 2 = 0 -> 3 = 0 ->
      _parse_duration (init None) "PT1H2M3S" = Ok "0:00").
Proof.
  apply (human_format (init None) "PT1H2M3S"
           {| m_groups := [(3%nat, "3"); (2%nat, "2"); (1%nat, "1")];
              m_rest := "" |} 1 2 3); reflexivity.
Defined.

(** Re-parsing what [_parse_duration] returned gives 0. *)
Lemma reparse_zero self s d :
  _parse_duration self s = Ok d -> _duration_to_seconds self d = Ok 0.
Proof.
  intros H. apply duration_to_seconds_no_prefix.
  exact (parse_duration_output self s d H).
Qed.

Lemma item_detail_seconds self it d :
  item_detail self it = Ok d -> duration_seconds d = 0.
Proof.
  intros H. unfold item_detail in H.
  destruct (contentDetails_duration it) as [raw|]; [|discriminate H].
  cbn [getitem bind] in H.
  destruct (_parse_duration self raw) as [human|] eqn:Ep; [|discriminate H].
  cbn [bind] in H.
  destruct (statistics it) as [st|]; [|discriminate H].
  cbn [getitem bind] in H. rewrite (reparse_zero self raw human Ep) in H.
  cbn [bind] in H.
  destruct (int (get (viewCount st) "0")); [|discriminate H].
  destruct (int (get (likeCount st) "0")); [|discriminate H].
  cbn [bind] in H. now injection H as <-.
Qed.

Lemma for_items_seconds self items :
  forall details out,
    Forall (fun d => duration_seconds d = 0) details ->
    for_items self items details = Ok out ->
    Forall (fun d => duration_seconds d = 0) out.
Proof.
  induction items as [|it items IH]; intros details out Hd H.
  - cbn in H. now injection H as <-.
  - cbn [for_items] in H.
    destruct (item_detail self it) as [d|] eqn:E; [|discriminate H].
    cbn [bind] in H. refine (IH _ _ _ H).
    apply Forall_app. split; [assumption|].
    constructor; [|constructor]. exact (item_detail_seconds _ _ _ E).
Qed.

(** C10, as stated, fails: on "PT" followed by 4301 digits and "M",
    [_parse_duration] raises [ValueError], so that the composition yields
    no number. *)
Lemma oversized_run_not_zero :
  (d <- _parse_duration (init None) long_duration ;;
   _duration_to_seconds (init None) d) = Raise ValueError
  /\ Raise ValueError <> Ok 0.
Proof.
  split; [|discriminate].
  destruct long_run_digits as [Hd Hl].
  unfold long_duration.
  now rewrite (proj1 (oversized_minutes (init None) long_run Hd Hl)).
Qed.

(** C10, amended: [_parse_duration] returns a string or raises
    [ValueError]; whenever it returns, re-parsing its output with
    [_duration_to_seconds] gives 0; and every [duration_seconds] computed by
    [_get_video_details] is 0, also when the loop raises. *)
Theorem reparsed_duration_is_zero (self : t) :
  (forall s d,
      _parse_duration self s = Ok d -> _duration_to_seconds self d = Ok 0)
  /\ (forall s,
        (exists d, _parse_duration self s = Ok d)
        \/ _parse_duration self s = Raise ValueError)
  /\ (forall video_ids response,
        Forall (fun d => duration_seconds d = 0)
               (_get_video_details self video_ids response)).
Proof.
  split; [exact (reparse_zero self)|]. split.
  - intros s. destruct (String.prefix "PT" s) eqn:Hp.
    + destruct (parse_duration_accepted self s Hp) as [(c & r & E & _)|E];
        [left; eauto|now right].
    + left. exists "Unknown". now apply parse_duration_no_prefix.
  - intros video_ids response. unfold _get_video_details.
    destruct response as [items|e]; cbn [bind].
    + destruct (for_items self items []) as [out|e] eqn:E; cbn [try_except].
      * exact (for_items_seconds self items [] out (Forall_nil _) E).
      * apply Forall_forall. intros d Hd. apply repeat_spec in Hd. now subst.
    + cbn [try_except]. apply Forall_forall.
      intros d Hd. apply repeat_spec in Hd. now subst.
Qed.

Lemma reparsed_duration_is_zero_witness :
  _duration_to_seconds (init None) "4:13" = Ok 0.
Proof.
  apply (proj1 (reparsed_duration_is_zero (init None)) "PT4M13S" "4:13").
  reflexivity.
Defined.

End Duration.

(* ------------------------------------------------------------------------- *)
(** ** Facts about trees *)

Module TreeFacts.
Import Py Re Bs4 HtmlParser ContentExtractor Spec PyFacts ReFacts.

Lemma flat_map_flat_map {A B C} (f : A -> list B) (g : B -> list C) l :
  flat_map g (flat_map f l) = flat_map (fun a => flat_map g (f a)) l.
Proof.
  induction l as [|a l IH]; simpl; [reflexivity|].
  now rewrite flat_map_app, IH.
Qed.


(** *** Sublists *)







(** *** Descendants *)

Lemma in_soup_descendants x s :
  In x (soup_descendants s)
  <-> exists c, In c s /\ (x = c \/ In x (descendants c)).
Proof.
  unfold soup_descendants. rewrite in_flat_map.
  split; intros (c & Hc & H); exists c; (split; [assumption|]);
    simpl in *; intuition congruence.
Qed.

Lemma in_descendants_Tag x i nm a cs :
  In x (descendants (Tag i nm a cs)) <-> In x (soup_descendants cs).
Proof. reflexivity. Qed.

Lemma soup_descendants_flat_map (f : node -> list node) l :
  soup_descendants (flat_map f l)
  = flat_map (fun c => soup_descendants (f c)) l.
Proof. apply flat_map_flat_map. Qed.

Lemma id_of_head x : id_of (head x) = id_of x.
Proof. now destruct x. Qed.

Lemma has_name_head names x : has_name names (head x) = has_name names x.
Proof. now destruct x. Qed.

Lemma class_matches_head r x : class_matches r (head x) = class_matches r x.
Proof. now destruct x. Qed.

Lemma class_mentions_ci_head x :
  class_mentions_ci (head x) = class_mentions_ci x.
Proof. now destruct x. Qed.

(** *** Removing one element *)

Lemma prune_descendants i n :
  forall x,
    In x (soup_descendants (prune i n)) ->
    id_of x <> Some i
    /\ exists y, In y (n :: descendants n) /\ head y = head x.
Proof.
  induction n as [s|s|j nm a cs IH] using node_ind; intros x Hx.
  - destruct Hx as [<-|[]]. split; [discriminate|]. exists (Text s). simpl. auto.
  - destruct Hx as [<-|[]]. split; [discriminate|]. exists (Other s). simpl. auto.
  - cbn [prune] in Hx. destruct (Nat.eqb_spec j i) as [->|Hne]; [destruct Hx|].
    apply in_soup_descendants in Hx as (c & [<-|[]] & [->|Hx]).
    + split; [simpl; congruence|].
      exists (Tag j nm a cs). split; [now left|reflexivity].
    + apply in_descendants_Tag in Hx.
      rewrite soup_descendants_flat_map in Hx.
      apply in_flat_map in Hx as (c & Hc & Hx).
      rewrite Forall_forall in IH.
      destruct (IH c Hc x Hx) as (Hid & y & Hy & Hh).
      split; [assumption|]. exists y. split; [|assumption].
      right. apply in_descendants_Tag, in_soup_descendants.
      exists c. split; [assumption|]. destruct Hy; auto.
Qed.

Lemma decompose_descendants n s x :
  In x (soup_descendants (decompose n s)) ->
  (forall i, id_of n = Some i -> id_of x <> Some i)
  /\ exists y, In y (soup_descendants s) /\ head y = head x.
Proof.
  destruct n as [t|t|i nm a cs]; cbn [decompose]; intros Hx;
    try (split; [discriminate | now exists x]).
  rewrite soup_descendants_flat_map in Hx.
  apply in_flat_map in Hx as (c & Hc & Hx).
  destruct (prune_descendants i c x Hx) as (Hid & y & Hy & Hh).
  split; [intros k Hk; injection Hk as <-; assumption|].
  exists y. split; [|assumption].
  apply in_soup_descendants. exists c. split; [assumption|].
  destruct Hy; auto.
Qed.

Lemma remove_loop l :
  forall s x,
    In x (soup_descendants
            (fold_left (fun acc script => decompose script acc) l s)) ->
    (forall n i, In n l -> id_of n = Some i -> id_of x <> Some i)
    /\ exists y, In y (soup_descendants s) /\ head y = head x.
Proof.
  induction l as [|n l IH]; intros s x Hx; cbn [fold_left] in Hx.
  - split; [intros n i []|now exists x].
  - destruct (IH _ _ Hx) as (Hl & y & Hy & Hh).
    destruct (decompose_descendants _ _ _ Hy) as (Hn & z & Hz & Hh').
    split; [|exists z; split; [assumption|congruence]].
    intros n' i [<-|Hin] Hi; [|now apply (Hl n')].
    rewrite <- id_of_head, <- Hh, id_of_head. now apply Hn.
Qed.

(** Every element left by the loop was in the parsed tree. *)
Lemma remove_scripts_heads parsed x :
  In x (soup_descendants (remove_scripts parsed)) ->
  exists y, In y (soup_descendants parsed) /\ head y = head x.
Proof. intros Hx. now apply remove_loop in Hx. Qed.


(** *** Strings *)










(** *** Searches *)

Lemma find_first P l n : first_such P l n -> List.find P l = Some n.
Proof.
  intros (before & after & -> & Hn & Hb).
  induction before as [|b before IH]; simpl.
  - now rewrite Hn.
  - rewrite (Hb b (or_introl eq_refl)). apply IH.
    intros x Hx. apply Hb. now right.
Qed.

Lemma find_none_such P l : none_such P l -> List.find P l = None.
Proof.
  intros H. induction l as [|x l IH]; simpl; [reflexivity|].
  rewrite (H x (or_introl eq_refl)). apply IH.
  intros y Hy. apply H. now right.
Qed.

End TreeFacts.

(* ------------------------------------------------------------------------- *)
(** ** Facts about the class pattern *)

Module ClassFacts.
Import Py Re Bs4 HtmlParser ContentExtractor Spec PyFacts ReFacts.

Lemma match_class_re s :
  is_some (match_ class_re s)
  = String.prefix "content" s || String.prefix "article" s
    || String.prefix "main" s.
Proof.
  unfold match_, class_re. cbn [run]. rewrite !run_Lit.
  destruct (String.prefix "content" s), (String.prefix "article" s),
    (String.prefix "main" s); reflexivity.
Qed.

Lemma search_step r c s :
  is_some (search r (String c s))
  = is_some (match_ r (String c s)) || is_some (search r s).
Proof. cbn [search]. now destruct (match_ r (String c s)). Qed.

Lemma containsb_step w c s :
  containsb w (String c s) = String.prefix w (String c s) || containsb w s.
Proof. reflexivity. Qed.

(** Searching for [content|article|main] is looking for one of the three
    words as a substring. *)
Lemma search_class_re s :
  is_some (search class_re s) = existsb (fun w => containsb w s) class_words.
Proof.
  induction s as [|c s IH]; [reflexivity|].
  rewrite search_step, match_class_re, IH.
  unfold class_words. cbn [existsb]. rewrite !containsb_step.
  destruct (String.prefix "content" (String c s)),
    (String.prefix "article" (String c s)),
    (String.prefix "main" (String c s)),
    (containsb "content" s), (containsb "article" s), (containsb "main" s);
    reflexivity.
Qed.

Lemma containsb_iff w s :
  containsb w s = true <-> exists a b, s = a ++ w ++ b.
Proof.
  induction s as [|c s IH].
  - cbn [containsb]. rewrite orb_false_r, prefix_iff. split.
    + intros [rest ->]. now exists EmptyString, rest.
    + intros (a & b & H). destruct a; [|discriminate]. now exists b.
  - rewrite containsb_step, orb_true_iff, prefix_iff, IH. split.
    + intros [[rest ->]|(a & b & ->)].
      * now exists EmptyString, rest.
      * now exists (String c a), b.
    + intros (a & b & H). destruct a as [|c' a].
      * left. now exists b.
      * right. exists a, b. simpl in H. congruence.
Qed.

Lemma join_in sep l tok :
  In tok l -> exists x y, join sep l = x ++ tok ++ y.
Proof.
  induction l as [|t l IH]; [contradiction|].
  intros [->|H].
  - destruct l as [|t2 l].
    + exists EmptyString, EmptyString. simpl. now rewrite append_empty_r.
    + exists EmptyString. eexists. reflexivity.
  - destruct (IH H) as (x & y & E).
    destruct l as [|t2 l]; [contradiction|].
    exists (t ++ sep ++ x), y.
    change (join sep (t :: t2 :: l)) with (t ++ sep ++ join sep (t2 :: l)).
    now rewrite E, !append_assoc.
Qed.

Lemma containsb_join w sep l tok :
  In tok l -> containsb w tok = true -> containsb w (join sep l) = true.
Proof.
  intros Hin Hw. apply containsb_iff in Hw as (a & b & ->).
  destruct (join_in sep l _ Hin) as (x & y & E).
  apply containsb_iff. exists (x ++ a), (b ++ y).
  now rewrite E, !append_assoc.
Qed.

Lemma lower_append a b : lower (a ++ b) = lower a ++ lower b.
Proof. induction a as [|c a IH]; simpl; [reflexivity | now rewrite IH]. Qed.

Lemma containsb_lower w s :
  containsb w s = true -> containsb (lower w) (lower s) = true.
Proof.
  intros H. apply containsb_iff in H as (a & b & ->).
  apply containsb_iff. exists (lower a), (lower b).
  now rewrite !lower_append.
Qed.

(** The code's class test is the case-sensitive substring test. *)
Lemma class_matches_mentions n : class_matches class_re n = class_mentions n.
Proof.
  destruct n as [t|t|i nm a cs]; try reflexivity.
  cbn [class_matches class_mentions].
  destruct (get_attr "class" a) as [[s|l]|]; try reflexivity;
    cbn [value_matches class_text]; rewrite search_class_re; [reflexivity|].
  destruct (existsb (fun tok => is_some (search class_re tok)) l) eqn:E;
    [|reflexivity].
  cbn [orb]. symmetry.
  apply existsb_exists in E as (tok & Htok & E).
  rewrite search_class_re in E. apply existsb_exists in E as (w & Hw & E).
  apply existsb_exists. exists w. split; [assumption|].
  now apply (containsb_join w " " l tok).
Qed.

Lemma class_mentions_ci_of n :
  class_mentions n = true -> class_mentions_ci n = true.
Proof.
  destruct n as [t|t|i nm a cs]; try discriminate.
  cbn [class_mentions class_mentions_ci].
  destruct (get_attr "class" a) as [v|]; [|discriminate].
  intros H. apply existsb_exists in H as (w & Hw & H).
  apply existsb_exists. exists w. split; [assumption|].
  apply containsb_lower in H.
  destruct Hw as [<-|[<-|[<-|[]]]]; exact H.
Qed.

Lemma has_name_cons a l n :
  has_name (a :: l) n = has_name [a] n || has_name l n.
Proof.
  destruct n as [t|t|i nm at_ cs]; try reflexivity.
  cbn [has_name existsb]. now rewrite orb_false_r.
Qed.

Lemma find_ext (P Q : node -> bool) l :
  (forall x, P x = Q x) -> List.find P l = List.find Q l.
Proof.
  intros H. induction l as [|x l IH]; simpl; [reflexivity|].
  now rewrite H, IH.
Qed.

Lemma find_first_such P l n : List.find P l = Some n -> first_such P l n.
Proof.
  induction l as [|x l IH]; simpl; [discriminate|].
  destruct (P x) eqn:E.
  - intros H. injection H as <-. exists [], l. repeat split; auto.
    intros y [].
  - intros H. destruct (IH H) as (before & after & -> & Hn & Hb).
    exists (x :: before), after. repeat split; auto.
    intros y [<-|Hy]; auto.
Qed.

End ClassFacts.

(* ------------------------------------------------------------------------- *)
(** ** The HTML extractor *)

Module Extraction.
Import Py Re Bs4 HtmlParser ContentExtractor Spec Examples.
Import PyFacts ReFacts TreeFacts ClassFacts.

Lemma find_class_div s :
  find_class "div" class_re s = List.find is_class_div (soup_descendants s).
Proof.
  apply find_ext. intros x. unfold is_class_div.
  now rewrite class_matches_mentions.
Qed.



Lemma raw_content_priority s :
  let d := soup_descendants s in
  (forall n, first_such is_main d n -> raw_content s = get_text nl true n)
  /\ (none_such is_main d ->
      forall n, first_such is_article d n ->
                raw_content s = get_text nl true n)
  /\ (none_such is_main d -> none_such is_article d ->
      forall n, first_such is_class_div d n ->
                raw_content s = get_text nl true n)
  /\ (none_such is_main d -> none_such is_article d ->
      none_such is_class_div d ->
      forall n, first_such is_body d n ->
                raw_content s = get_text nl true n)
  /\ (none_such is_main d -> none_such is_article d ->
      none_such is_class_div d -> none_such is_body d ->
      raw_content s = EmptyString).
Proof.
  intros d. unfold raw_content, main_content, find.
  rewrite find_class_div. fold d.
  change (has_name ["main"]) with is_main.
  change (has_name ["article"]) with is_article.
  change (has_name ["body"]) with is_body.
  repeat split.
  - intros n H. now rewrite (find_first _ _ _ H).
  - intros H1 n H. now rewrite (find_none_such _ _ H1), (find_first _ _ _ H).
  - intros H1 H2 n H.
    now rewrite (find_none_such _ _ H1), (find_none_such _ _ H2),
      (find_first _ _ _ H).
  - intros H1 H2 H3 n H.
    now rewrite (find_none_such _ _ H1), (find_none_such _ _ H2),
      (find_none_such _ _ H3), (find_first _ _ _ H).
  - intros H1 H2 H3 H4.
    now rewrite (find_none_such _ _ H1), (find_none_such _ _ H2),
      (find_none_such _ _ H3), (find_none_such _ _ H4).
Qed.


(** Nothing to select: the result is empty. *)
Lemma extract_soup_nothing parsed url :
  (forall n, In n (soup_descendants parsed) ->
             has_name ["main"; "article"; "body"] n = false
             /\ class_mentions_ci n = false) ->
  content (extract_soup parsed url) = EmptyString
  /\ word_count (meta (extract_soup parsed url)) = 0.
Proof.
  intros H.
  assert (Hc : forall x, In x (soup_descendants (remove_scripts parsed)) ->
                 is_main x = false /\ is_article x = false
                 /\ is_body x = false /\ is_class_div x = false).
  { intros x Hx. apply remove_scripts_heads in Hx as (y & Hy & Hh).
    destruct (H y Hy) as [Hn Hci].
    rewrite <- has_name_head, Hh, has_name_head in Hn.
    rewrite <- class_mentions_ci_head, Hh, class_mentions_ci_head in Hci.
    rewrite has_name_cons, (has_name_cons "article") in Hn.
    apply orb_false_iff in Hn as [Hm Hn].
    apply orb_false_iff in Hn as [Ha Hb].
    repeat split; try assumption.
    unfold is_class_div. destruct (class_mentions x) eqn:E;
      [|apply andb_false_r].
    apply class_mentions_ci_of in E. congruence. }
  destruct (raw_content_priority (remove_scripts parsed))
    as (_ & _ & _ & _ & Hnone).
  cbn [extract_soup content meta word_count].
  rewrite Hnone; [split; reflexivity|..]; intros x Hx; now apply Hc.
Qed.

(** The extractor on a document that the parser turns into a tree, and on
    one that it rejects. *)
Lemma extract_parsed self html url parsed :
  BeautifulSoup html = Some (Ok parsed) ->
  _extract_html_content self html url = Some (Ok (extract_soup parsed url)).
Proof. intros H. unfold _extract_html_content. now rewrite H. Qed.

Lemma extract_rejected self html url e :
  BeautifulSoup html = Some (Raise e) ->
  _extract_html_content self html url = Some (Raise e).
Proof. intros H. unfold _extract_html_content. now rewrite H. Qed.

Lemma example_page_parsed : BeautifulSoup example_page = Some (Ok example_tree).
Proof. vm_compute. reflexivity. Qed.

Lemma bare_page_parsed : BeautifulSoup bare_page = Some (Ok bare_tree).
Proof. vm_compute. reflexivity. Qed.


(** C3, as stated, fails: the run of three spaces between the two words is
    kept. *)
Lemma example_page_keeps_spaces :
  exists r,
    _extract_html_content init example_page "" = Some (Ok r)
    /\ content r = "Hello   world"
    /\ "Hello   world" <> "Hello world".
Proof.
  eexists. split; [vm_compute; reflexivity|].
  split; [reflexivity|discriminate].
Qed.

(** C3, amended: for the example page the extractor returns a document
    whose title is "T", whose body text is "Hello   world" with the three
    spaces of the source kept, and whose word count is 2. *)
Theorem example_page_extraction (self : ContentExtractor.t) (url : string) :
  _extract_html_content self example_page url
  = Some (Ok {| type_ := "article";
                content := "Hello   world";
                meta := {| source := url;
                           title := "T";
                           word_count := 2;
                           extraction_method := "html_parser" |} |}).
Proof. vm_compute. reflexivity. Qed.

(** C4, as stated, fails: a section with class "content" is passed over,
    and so is a div with class "Content"; in both documents the text of
    body is extracted, where the priority chain of the specification gives
    the text of the element with the class. *)
Lemma class_rule_differs :
  exists parsed1 parsed2 r1 r2,
    BeautifulSoup section_page = Some (Ok parsed1)
    /\ _extract_html_content init section_page "" = Some (Ok r1)
    /\ content r1 = "A" ++ nl ++ "B"
    /\ clean (extracted_text (remove_scripts parsed1)) = "A"
    /\ BeautifulSoup capital_page = Some (Ok parsed2)
    /\ _extract_html_content init capital_page "" = Some (Ok r2)
    /\ content r2 = "A" ++ nl ++ "B"
    /\ clean (extracted_text (remove_scripts parsed2)) = "A"
    /\ "A" ++ nl ++ "B" <> "A".
Proof.
  do 4 eexists.
  split; [vm_compute; reflexivity|]. split; [vm_compute; reflexivity|].
  split; [vm_compute; reflexivity|]. split; [vm_compute; reflexivity|].
  split; [vm_compute; reflexivity|]. split; [vm_compute; reflexivity|].
  split; [vm_compute; reflexivity|]. split; [vm_compute; reflexivity|].
  discriminate.
Qed.

(** C4, amended.  Whatever tree the parser has made of the input, the
    extractor works on the tree left after the removal of script and style:
    the text is taken from the first main element; else from the first
    article element; else from the first div element whose class attribute
    contains, with letter case respected, one of the substrings content,
    article, main; else from the body element; else it is empty. *)
Theorem main_content_priority (parsed : soup) (url : string) :
  let d := soup_descendants (remove_scripts parsed) in
  (forall self html,
      BeautifulSoup html = Some (Ok parsed) ->
      _extract_html_content self html url = Some (Ok (extract_soup parsed url)))
  /\ (forall n, first_such is_main d n ->
        content (extract_soup parsed url) = clean (get_text nl true n))
  /\ (none_such is_main d ->
      forall n, first_such is_article d n ->
        content (extract_soup parsed url) = clean (get_text nl true n))
  /\ (none_such is_main d -> none_such is_article d ->
      forall n, first_such is_class_div d n ->
        content (extract_soup parsed url) = clean (get_text nl true n))
  /\ (none_such is_main d -> none_such is_article d ->
      none_such is_class_div d ->
      forall n, first_such is_body d n ->
        content (extract_soup parsed url) = clean (get_text nl true n))
  /\ (none_such is_main d -> none_such is_article d ->
      none_such is_class_div d -> none_such is_body d ->
      content (extract_soup parsed url) = EmptyString).
Proof.
  intros d. subst d. split; [intros self html; apply extract_parsed|].
  cbn [extract_soup content].
  destruct (raw_content_priority (remove_scripts parsed))
    as (H1 & H2 & H3 & H4 & H5). cbv zeta in H1, H2, H3, H4, H5.
  split; [|split; [|split; [|split]]].
  - intros n Hn. now rewrite (H1 n).
  - intros Hm n Hn. now rewrite (H2 Hm n).
  - intros Hm Ha n Hn. now rewrite (H3 Hm Ha n).
  - intros Hm Ha Hd n Hn. now rewrite (H4 Hm Ha Hd n).
  - intros Hm Ha Hd Hb. now rewrite H5.
Qed.

Lemma main_content_priority_witness :
  _extract_html_content init example_page ""
  = Some (Ok (extract_soup example_tree ""))
  /\ content (extract_soup example_tree "")
     = clean (get_text nl true (Tag 4 "main" [] [Text "Hello   world"])).
Proof.
  split.
  - apply (proj1 (main_content_priority example_tree "")).
    exact example_page_parsed.
  - apply (proj1 (proj2 (main_content_priority example_tree ""))).
    apply find_first_such. reflexivity.
Defined.



(** C8, as stated, fails: the document "<![x]>hello" contains no main,
    article or body element and no class attribute, and the extractor
    raises on it, because the parser rejects the marked section and the
    extractor has no handler. *)
Lemma rejected_markup_raises :
  _extract_html_content init rejected_page ""
  = Some (Raise ParserRejectedMarkup)
  /\ containsb "<main" rejected_page = false
  /\ containsb "<article" rejected_page = false
  /\ containsb "<body" rejected_page = false
  /\ containsb "class" rejected_page = false.
Proof. repeat split; vm_compute; reflexivity. Qed.

(** C8, amended.  When the parser has made a tree of the input and the tree
    has no main, article or body element and no element whose class
    attribute mentions content, article or main (in any letter case), the
    extractor returns an empty body text and a word count of 0, the number
    of white-space separated tokens of the body text.  When the parser
    rejects the input, the extractor raises the exception of the parser. *)
Theorem nothing_to_extract (parsed : soup) (url : string) :
  (forall n, In n (soup_descendants parsed) ->
             has_name ["main"; "article"; "body"] n = false
             /\ class_mentions_ci n = false) ->
  (forall self html,
      BeautifulSoup html = Some (Ok parsed) ->
      _extract_html_content self html url = Some (Ok (extract_soup parsed url)))
  /\ content (extract_soup parsed url) = EmptyString
  /\ word_count (meta (extract_soup parsed url)) = 0
  /\ word_count (meta (extract_soup parsed url))
     = Z.of_nat (List.length (split (content (extract_soup parsed url))))
  /\ (forall self html e,
        BeautifulSoup html = Some (Raise e) ->
        _extract_html_content self html url = Some (Raise e)).
Proof.
  intros H. destruct (extract_soup_nothing _ url H) as [Hc Hw].
  split; [intros self html; apply extract_parsed|].
  split; [exact Hc|]. split; [exact Hw|]. split; [reflexivity|].
  intros self html e. apply extract_rejected.
Qed.

Lemma nothing_to_extract_witness :
  _extract_html_content init bare_page "" = Some (Ok (extract_soup bare_tree ""))
  /\ content (extract_soup bare_tree "") = EmptyString
  /\ word_count (meta (extract_soup bare_tree "")) = 0.
Proof.
  assert (H : forall n, In n (soup_descendants bare_tree) ->
                has_name ["main"; "article"; "body"] n = false
                /\ class_mentions_ci n = false).
  { intros n Hn. vm_compute in Hn.
    repeat (destruct Hn as [<-|Hn]; [split; reflexivity|]). destruct Hn. }
  destruct (nothing_to_extract bare_tree "" H) as (H1 & H2 & H3 & _).
  split; [|split; assumption].
  apply H1. exact bare_page_parsed.
Defined.

End Extraction.

(* ------------------------------------------------------------------------- *)
(** ** [format_duration] *)

Module FormatDuration.
Import Py Re YouTubeIntegration YouTubeVideos PyFacts ReFacts Spec DurationFacts.

Lemma to_int_not_nil n :
  Z.to_int n <> Decimal.Pos Decimal.Nil /\ Z.to_int n <> Decimal.Neg Decimal.Nil.
Proof.
  destruct n as [|p|p]; cbn [Z.to_int]; split; try discriminate;
    intros H; injection H as H;
    exact (DecimalPos.Unsigned.to_uint_nonnil p H).
Qed.

(** [str] is injective. *)
Lemma str_inj a b : str a = str b -> a = b.
Proof.
  unfold str. intros H. apply DecimalZ.to_int_inj.
  destruct (to_int_not_nil a) as [Ha1 Ha2].
  destruct (to_int_not_nil b) as [Hb1 Hb2].
  pose proof (NilZero.isi _ Ha1 Ha2) as Ea.
  pose proof (NilZero.isi _ Hb1 Hb2) as Eb.
  rewrite H in Ea. congruence.
Qed.

Lemma string_of_uint_digits d : all is_digit (NilEmpty.string_of_uint d) = true.
Proof. induction d; cbn [NilEmpty.string_of_uint all]; auto. Qed.

(** The decimal notation of a non-negative integer consists of digits. *)
Lemma str_digits n : 0 <= n -> all is_digit (str n) = true.
Proof.
  intros Hn. destruct n as [|p|p]; [reflexivity| |lia].
  unfold str. cbn [Z.to_int NilZero.string_of_int].
  pose proof (DecimalPos.Unsigned.to_uint_nonnil p) as Hnil.
  unfold NilZero.string_of_uint.
  destruct (Pos.to_uint p) eqn:E; [contradiction|..];
    rewrite <- E; apply string_of_uint_digits.
Qed.

Lemma digit_char_digit k : 0 <= k <= 9 -> is_digit (digit_char k) = true.
Proof.
  intros Hk. assert (H : exists j, k = Z.of_nat j /\ (j < 10)%nat)
    by (exists (Z.to_nat k); lia).
  destruct H as (j & -> & Hj).
  do 10 (destruct j as [|j]; [reflexivity|]). lia.
Qed.

Lemma digit_char_inj j k :
  0 <= j <= 9 -> 0 <= k <= 9 -> digit_char j = digit_char k -> j = k.
Proof.
  intros Hj Hk H. unfold digit_char in H.
  apply (f_equal nat_of_ascii) in H.
  rewrite !nat_ascii_embedding in H by lia. lia.
Qed.

Lemma div_range n d k :
  0 < d -> 0 <= n < d * k -> 0 <= n / d <= k - 1.
Proof.
  intros Hd Hn. split; [apply Z.div_pos; lia|].
  assert (n / d < k) by (apply Z.div_lt_upper_bound; lia). lia.
Qed.

Lemma two_digits_digits n : 0 <= n < 100 -> all is_digit (two_digits n) = true.
Proof.
  intros Hn. unfold two_digits. cbn [all].
  rewrite !digit_char_digit; [reflexivity| |].
  - pose proof (Z.mod_pos_bound n 10). lia.
  - apply (div_range n 10 10); lia.
Qed.

Lemma two_digits_inj a b :
  0 <= a < 100 -> 0 <= b < 100 -> two_digits a = two_digits b -> a = b.
Proof.
  intros Ha Hb H. unfold two_digits in H. injection H as H1 H2.
  assert (Ra : 0 <= a / 10 <= 9) by (apply (div_range a 10 10); lia).
  assert (Rb : 0 <= b / 10 <= 9) by (apply (div_range b 10 10); lia).
  pose proof (Z.mod_pos_bound a 10 ltac:(lia)).
  pose proof (Z.mod_pos_bound b 10 ltac:(lia)).
  apply digit_char_inj in H1; [|lia..].
  apply digit_char_inj in H2; [|lia..].
  rewrite (Z.div_mod a 10), (Z.div_mod b 10) by lia. lia.
Qed.

(** Two texts that agree up to their first colon agree before and after
    it. *)
Lemma colon_split a b x y :
  all is_digit a = true -> all is_digit b = true ->
  a ++ String ":" x = b ++ String ":" y -> a = b /\ x = y.
Proof.
  revert b. induction a as [|c a IH]; intros b Ha Hb H.
  - destruct b as [|c' b]; simpl in H.
    + injection H as <-. auto.
    + injection H as <- _. simpl in Hb. discriminate Hb.
  - destruct b as [|c' b]; simpl in H.
    + injection H as -> _. simpl in Ha. discriminate Ha.
    + injection H as <- H. simpl in Ha, Hb.
      apply andb_true_iff in Ha as [_ Ha]. apply andb_true_iff in Hb as [_ Hb].
      destruct (IH b Ha Hb H) as [-> ->]. auto.
Qed.

(** The three numbers that [format_duration] shows. *)
Lemma parts_range seconds :
  0 <= (seconds mod 3600) / 60 <= 59 /\ 0 <= seconds mod 60 <= 59.
Proof.
  pose proof (Z.mod_pos_bound seconds 3600 ltac:(lia)).
  pose proof (Z.mod_pos_bound seconds 60 ltac:(lia)).
  split; [|lia]. apply (div_range _ 60 60); lia.
Qed.

Lemma parts_sum seconds :
  seconds / 3600 * 3600 + (seconds mod 3600) / 60 * 60 + seconds mod 60
  = seconds.
Proof.
  pose proof (Z.div_mod seconds 3600 ltac:(lia)) as H1.
  pose proof (Z.div_mod (seconds mod 3600) 60 ltac:(lia)) as H2.
  pose proof (Z.mod_pos_bound (seconds mod 3600) 60 ltac:(lia)) as B.
  assert (H3 : (seconds mod 3600) mod 60 = seconds mod 60)
    by (apply (Z.mod_unique _ _ (60 * (seconds / 3600)
                                 + (seconds mod 3600) / 60)); lia).
  lia.
Qed.

(** X1: [format_duration] shows the decomposition of its argument into
    hours, minutes below 60 and seconds below 60, in the H:MM:SS / M:SS
    layout; for a negative argument the hours are negative and only the
    minutes and seconds of the remainder are shown. *)
Theorem format_duration_parts (seconds : Z) :
  0 <= (seconds mod 3600) / 60 <= 59
  /\ 0 <= seconds mod 60 <= 59
  /\ seconds / 3600 * 3600 + (seconds mod 3600) / 60 * 60 + seconds mod 60
     = seconds
  /\ format_duration seconds
     = clock (seconds / 3600) ((seconds mod 3600) / 60) (seconds mod 60).
Proof.
  destruct (parts_range seconds) as [Hm Hs].
  repeat split; try lia; [apply parts_sum|].
  unfold format_duration, clock.
  now rewrite !format_02d_zero_pad2 by lia.
Qed.

Lemma decompose_sum h m s :
  0 <= m < 60 -> 0 <= s < 60 ->
  (h * 3600 + m * 60 + s) / 3600 = h
  /\ ((h * 3600 + m * 60 + s) mod 3600) / 60 = m
  /\ (h * 3600 + m * 60 + s) mod 60 = s.
Proof.
  intros Hm Hs.
  assert (E1 : (h * 3600 + m * 60 + s) / 3600 = h)
    by (symmetry; apply (Z.div_unique _ _ _ (m * 60 + s)); lia).
  assert (E2 : (h * 3600 + m * 60 + s) mod 3600 = m * 60 + s)
    by (symmetry; apply (Z.mod_unique _ _ h); lia).
  repeat split; [exact E1| |].
  - rewrite E2. symmetry. apply (Z.div_unique _ _ _ s); lia.
  - symmetry. apply (Z.mod_unique _ _ (h * 60 + m)); lia.
Qed.

(** X2: on an accepted ISO input whose minutes and seconds are below 60,
    formatting the total of [_duration_to_seconds] gives the string of
    [_parse_duration]. *)
Theorem format_duration_agrees (self : t) (s : string) (m : Match)
        (h mi se : Z) :
  match_ duration_re s = Some m ->
  fields m = Ok (h, mi, se) ->
  mi < 60 -> se < 60 ->
  exists total,
    _duration_to_seconds self s = Ok total
    /\ _parse_duration self s = Ok (format_duration total).
Proof.
  intros Hm Hf Hmi Hse. apply fields_inv in Hf as (Hh & Hmi' & Hse').
  destruct (fields_nonneg _ _ _ _ _ Hm Hh Hmi' Hse') as (? & ? & ?).
  exists (h * 3600 + mi * 60 + se). split.
  - exact (duration_to_seconds_sum self _ _ _ _ _ Hm Hh Hmi' Hse').
  - rewrite (parse_duration_clock self _ _ _ _ _ Hm Hh Hmi' Hse') by assumption.
    destruct (format_duration_parts (h * 3600 + mi * 60 + se))
      as (_ & _ & _ & ->).
    destruct (decompose_sum h mi se) as (-> & -> & ->); [lia..|reflexivity].
Qed.

Lemma format_duration_agrees_witness :
  exists total,
    _duration_to_seconds (init None) "PT1H2M3S" = Ok total
    /\ _parse_duration (init None) "PT1H2M3S" = Ok (format_duration total).
Proof.
  apply (format_duration_agrees (init None) "PT1H2M3S"
           {| m_groups := [(3%nat, "3"); (2%nat, "2"); (1%nat, "1")];
              m_rest := "" |} 1 2 3); [reflexivity|reflexivity|lia|lia].
Defined.

Lemma clock_inj h m s h' m' s' :
  0 <= h -> 0 <= m < 60 -> 0 <= s < 60 ->
  0 <= h' -> 0 <= m' < 60 -> 0 <= s' < 60 ->
  clock h m s = clock h' m' s' -> h = h' /\ m = m' /\ s = s'.
Proof.
  intros Hh Hm Hs Hh' Hm' Hs'. unfold clock, zero_pad2.
  destruct (Z.ltb_spec m 100) as [_|?]; [|lia].
  destruct (Z.ltb_spec s 100) as [_|?]; [|lia].
  destruct (Z.ltb_spec m' 100) as [_|?]; [|lia].
  destruct (Z.ltb_spec s' 100) as [_|?]; [|lia].
  destruct (Z.ltb_spec 0 h) as [Ph|Ph], (Z.ltb_spec 0 h') as [Ph'|Ph'];
    cbn [append]; intros H.
  - apply colon_split in H as [E1 H]; try (apply str_digits; lia).
    apply str_inj in E1.
    change (two_digits m ++ String ":" (two_digits s)
            = two_digits m' ++ String ":" (two_digits s')) in H.
    apply colon_split in H as [E2 E3]; try (apply two_digits_digits; lia).
    apply two_digits_inj in E2; [|lia..].
    apply two_digits_inj in E3; [|lia..]. auto.
  - apply colon_split in H as [_ H]; try (apply str_digits; lia).
    unfold two_digits in H. discriminate H.
  - apply colon_split in H as [_ H]; try (apply str_digits; lia).
    unfold two_digits in H. discriminate H.
  - apply colon_split in H as [E1 E2]; try (apply str_digits; lia).
    apply str_inj in E1. apply two_digits_inj in E2; [|lia..].
    split; [lia|auto].
Qed.

(** X3: two different non-negative numbers of seconds are never shown as
    the same string. *)
Theorem format_duration_inj (a b : Z) :
  0 <= a -> 0 <= b -> format_duration a = format_duration b -> a = b.
Proof.
  intros Ha Hb H.
  destruct (format_duration_parts a) as (Ma & Sa & Ea & Fa).
  destruct (format_duration_parts b) as (Mb & Sb & Eb & Fb).
  rewrite Fa, Fb in H.
  apply clock_inj in H as (E1 & E2 & E3);
    [|first [lia | apply Z.div_pos; lia]..].
  rewrite <- Ea, <- Eb, E1, E2, E3. reflexivity.
Qed.

Lemma format_duration_inj_witness : 3723 = 3723.
Proof.
  apply (format_duration_inj 3723 3723); [lia|lia|reflexivity].
Defined.

End FormatDuration.

(* ------------------------------------------------------------------------- *)
(** ** Facts about character classes *)

Module ReClassFacts.
Import Py Re ReClass PyFacts ReFacts.

Section Continuations.
Context {R : Type}.

Lemma run_Alt r1 r2 s g (k : string -> groups -> option R) :
  run (Alt r1 r2) s g k = orelse (run r1 s g k) (run r2 s g k).
Proof. reflexivity. Qed.

Lemma run_Grp n r s g (k : string -> groups -> option R) :
  run (Grp n r) s g k
  = run r s g (fun s' g' => k s' ((n, consumed s s') :: g')).
Proof. reflexivity. Qed.

(** Three literal alternatives followed by a pattern. *)
Lemma run_alt3 a b c r s g (k : string -> groups -> option R) :
  run (Cat (Alt (Lit a) (Alt (Lit b) (Lit c))) r) s g k
  = orelse (if String.prefix a s
            then run r (drop (String.length a) s) g k else None)
   (orelse (if String.prefix b s
            then run r (drop (String.length b) s) g k else None)
           (if String.prefix c s
            then run r (drop (String.length c) s) g k else None)).
Proof. now rewrite run_Cat, !run_Alt, !run_Lit. Qed.

Lemma run_Fail s g (k : string -> groups -> option R) : run Fail s g k = None.
Proof. unfold Fail. cbn [run]. now destruct s. Qed.

Lemma run_any_of cs s g (k : string -> groups -> option R) :
  run (any_of cs) s g k
  = match s with
    | String c s' => if existsb (Ascii.eqb c) cs then k s' g else None
    | EmptyString => None
    end.
Proof.
  induction cs as [|a cs IH]; [rewrite run_Fail; now destruct s|].
  cbn [any_of existsb]. rewrite run_Alt, IH. cbn [run].
  destruct s as [|c s]; [reflexivity|].
  rewrite (Ascii.eqb_sym c a).
  destruct (Ascii.eqb a c); cbn [orb orelse]; [|reflexivity].
  destruct (k s g); [reflexivity|]. now destruct (existsb _ cs).
Qed.

Lemma run_times n cs :
  forall s g (k : string -> groups -> option R),
    run (times n (any_of cs)) s g k
    = match split_class n (fun c => existsb (Ascii.eqb c) cs) s with
      | Some (_, rest) => k rest g
      | None => None
      end.
Proof.
  induction n as [|n IH]; intros s g k; [reflexivity|].
  cbn [times split_class]. rewrite run_Cat, run_any_of.
  destruct s as [|c s]; [reflexivity|].
  destruct (existsb (Ascii.eqb c) cs); [|reflexivity].
  rewrite IH. now destruct (split_class n _ s) as [[a rest]|].
Qed.

Lemma star_success p s (k : string -> option R) x :
  star p s k = Some x -> exists s', k s' = Some x.
Proof.
  induction s as [|c s IH]; cbn [star]; [eauto|].
  destruct (p c); [|eauto].
  destruct (star p s k) eqn:E; cbn [orelse]; [|eauto].
  intros H. injection H as <-. now apply IH.
Qed.

(** A success of the matcher is a success of its continuation. *)
Lemma run_success r :
  forall s g (k : string -> groups -> option R) x,
    run r s g k = Some x -> exists s' g', k s' g' = Some x.
Proof.
  induction r as [|c|r1 IH1 r2 IH2|r1 IH1 r2 IH2|r IH|p|p|n r IH];
    intros s g k x H; cbn [run] in H.
  - eauto.
  - destruct s as [|c' s]; [discriminate|].
    destruct (Ascii.eqb c c'); [eauto|discriminate].
  - apply IH1 in H as (s1 & g1 & H). now apply IH2 in H.
  - destruct (run r1 s g k) eqn:E; cbn [orelse] in H.
    + injection H as <-. now apply IH1 in E.
    + now apply IH2 in H.
  - destruct (run r s g k) eqn:E; cbn [orelse] in H.
    + injection H as <-. now apply IH in E.
    + eauto.
  - apply star_success in H as [s' H]. eauto.
  - destruct s as [|c s]; [discriminate|]. destruct (p c); [|discriminate].
    apply star_success in H as [s' H]. eauto.
  - apply IH in H as (s' & g' & H). eauto.
Qed.
End Continuations.

Lemma split_class_spec n p :
  forall s a rest,
    split_class n p s = Some (a, rest) ->
    s = a ++ rest /\ String.length a = n /\ all p a = true.
Proof.
  induction n as [|n IH]; intros s a rest H; cbn [split_class] in H.
  - injection H as <- <-. auto.
  - destruct s as [|c s]; [discriminate|]. destruct (p c) eqn:Ec; [|discriminate].
    destruct (split_class n p s) as [[a' rest']|] eqn:E; [|discriminate].
    injection H as <- <-. destruct (IH _ _ _ E) as (-> & <- & Ha).
    cbn [all String.length append]. now rewrite Ec, Ha.
Qed.

Lemma split_class_append p a rest :
  all p a = true -> split_class (String.length a) p (a ++ rest) = Some (a, rest).
Proof.
  induction a as [|c a IH]; cbn [all String.length append split_class];
    [reflexivity|].
  intros H. apply andb_true_iff in H as [-> Ha]. now rewrite (IH Ha).
Qed.

(** The group of [(class{n})] is the text that the class consumed. *)
Lemma match_class_group n cs s g m :
  run (Grp 1 (times n (any_of cs))) s g
      (fun s' g' => Some {| m_groups := g'; m_rest := s' |}) = Some m ->
  exists a, group 1 (m_groups m) = Some a
            /\ split_class n (fun c => existsb (Ascii.eqb c) cs) s
               = Some (a, m_rest m).
Proof.
  rewrite run_Grp, run_times.
  destruct (split_class n _ s) as [[a rest]|] eqn:E; [|discriminate].
  intros H. injection H as <-. cbn [m_groups m_rest group Nat.eqb].
  destruct (split_class_spec _ _ _ _ _ E) as (-> & _ & _).
  rewrite consumed_append. eauto.
Qed.

Lemma search_some r s m :
  search r s = Some m -> exists before after, s = before ++ after /\ match_ r after = Some m.
Proof.
  induction s as [|c s IH]; cbn [search].
  - destruct (match_ r "") eqn:E; [|discriminate].
    intros H. injection H as <-. now exists "", "".
  - destruct (match_ r (String c s)) eqn:E.
    + intros H. injection H as <-. now exists "", (String c s).
    + intros H. destruct (IH H) as (b & a & -> & Ha).
      now exists (String c b), a.
Qed.

Lemma search_skip r c s :
  match_ r (String c s) = None -> search r (String c s) = search r s.
Proof. intros H. cbn [search]. now rewrite H. Qed.

Lemma search_here r s m : match_ r s = Some m -> search r s = Some m.
Proof. intros H. destruct s; cbn [search]; now rewrite H. Qed.

Lemma prefix_append w x : String.prefix w (w ++ x) = true.
Proof. apply prefix_iff. eauto. Qed.

Lemma prefix_head_neq c w c' s :
  c <> c' -> String.prefix (String c w) (String c' s) = false.
Proof.
  intros H. cbn [String.prefix]. now destruct (Ascii.ascii_dec c c').
Qed.

End ReClassFacts.

(* ------------------------------------------------------------------------- *)
(** ** Video identifiers and URLs *)

Module VideoIds.
Import Py Re ReClass PyStr YouTubeIntegration YouTubeVideos.
Import PyFacts ReFacts ReClassFacts.

(** A well-formed identifier: eleven characters of [[a-zA-Z0-9_-]]. *)
Lemma id_group_1 s m :
  match_ id_re_1 s = Some m ->
  exists a, group 1 (m_groups m) = Some a
            /\ String.length a = 11%nat /\ all is_id_char a = true.
Proof.
  unfold match_, id_re_1. rewrite run_Cat. intros H.
  apply run_success in H as (s1 & g1 & H).
  apply match_class_group in H as (a & Hg & Hs).
  apply split_class_spec in Hs as (_ & Hl & Ha). eauto.
Qed.

Lemma id_group_2 s m :
  match_ id_re_2 s = Some m ->
  exists a, group 1 (m_groups m) = Some a
            /\ String.length a = 11%nat /\ all is_id_char a = true.
Proof.
  unfold match_, id_re_2. rewrite run_Cat. intros H.
  apply run_success in H as (s1 & g1 & H). rewrite run_Cat in H.
  apply run_success in H as (s2 & g2 & H). rewrite run_Cat in H.
  apply run_success in H as (s3 & g3 & H).
  apply match_class_group in H as (a & Hg & Hs).
  apply split_class_spec in Hs as (_ & Hl & Ha). eauto.
Qed.

(** X4: whatever the URL, an extracted identifier has exactly eleven
    characters, all of them letters, digits, underscores or hyphens. *)
Theorem extract_video_id_shape (self : t) (url v : string) :
  extract_video_id self url = Some v ->
  String.length v = 11%nat /\ all is_id_char v = true.
Proof.
  unfold extract_video_id.
  destruct (search id_re_1 url) as [m|] eqn:E1.
  - apply search_some in E1 as (b & a & _ & E1).
    apply id_group_1 in E1 as (w & Hg & Hw). rewrite Hg.
    intros H. now injection H as <-.
  - destruct (search id_re_2 url) as [m|] eqn:E2; [|discriminate].
    apply search_some in E2 as (b & a & _ & E2).
    apply id_group_2 in E2 as (w & Hg & Hw). rewrite Hg.
    intros H. now injection H as <-.
Qed.

Lemma extract_video_id_shape_witness :
  String.length "dQw4w9WgXcQ" = 11%nat /\ all is_id_char "dQw4w9WgXcQ" = true.
Proof.
  apply (extract_video_id_shape (init None) "https://youtu.be/dQw4w9WgXcQ").
  vm_compute. reflexivity.
Defined.

Lemma id_re_1_head c s : c <> "y"%char -> match_ id_re_1 (String c s) = None.
Proof.
  intros H. unfold match_, id_re_1. rewrite run_alt3.
  now rewrite !prefix_head_neq by (intros E; apply H; now rewrite E).
Qed.

Lemma id_group_here n cs a rest g :
  String.length a = n -> all (fun c => existsb (Ascii.eqb c) cs) a = true ->
  run (Grp 1 (times n (any_of cs))) (a ++ rest) g
      (fun s' g' => Some {| m_groups := g'; m_rest := s' |})
  = Some {| m_groups := (1%nat, a) :: g; m_rest := rest |}.
Proof.
  intros <- Ha. rewrite run_Grp, run_times, (split_class_append _ _ _ Ha).
  now rewrite consumed_append.
Qed.


Lemma match_watch vid rest :
  String.length vid = 11%nat -> all is_id_char vid = true ->
  match_ id_re_1 ("youtube.com/watch?v=" ++ vid ++ rest)
  = Some {| m_groups := [(1%nat, vid)]; m_rest := rest |}.
Proof.
  intros Hl Ha. unfold match_, id_re_1. rewrite run_alt3.
  rewrite prefix_append, drop_append.
  rewrite (id_group_here _ _ _ _ _ Hl Ha). reflexivity.
Qed.

Lemma search_www s :
  search id_re_1 ("https://www." ++ s) = search id_re_1 s.
Proof.
  cbn [append].
  repeat (rewrite search_skip by (apply id_re_1_head; discriminate)).
  reflexivity.
Qed.



(** X6: the identifier of a search result is read back from the URL that
    [_search_with_api] builds for it, provided it has the eleven-character
    shape. *)
Theorem extract_search_result_url (self : t) (it : search_item) (v : video) :
  video_info it = Ok v ->
  String.length (video_id v) = 11%nat -> all is_id_char (video_id v) = true ->
  extract_video_id self (url v) = Some (video_id v).
Proof.
  intros Hv Hl Ha.
  assert (Hu : url v = "https://www.youtube.com/watch?v=" ++ video_id v).
  { unfold video_info in Hv.
    destruct (id_videoId it); [|discriminate Hv].
    destruct (item_snippet it) as [sn|]; [|discriminate Hv].
    cbn [getitem bind] in Hv.
    destruct (sn_title sn); [|discriminate Hv].
    destruct (sn_description sn); [|discriminate Hv].
    destruct (sn_channelTitle sn); [|discriminate Hv].
    destruct (sn_publishedAt sn); [|discriminate Hv].
    destruct (sn_thumbnail sn); [|discriminate Hv].
    cbn [getitem bind] in Hv. now injection Hv as <-. }
  rewrite Hu. unfold extract_video_id.
  change ("https://www.youtube.com/watch?v=" ++ video_id v)
    with ("https://www." ++ "youtube.com/watch?v=" ++ video_id v).
  rewrite search_www.
  rewrite <- (append_empty_r (video_id v)) at 1.
  now rewrite (search_here _ _ _ (match_watch _ "" Hl Ha)).
Qed.

Lemma extract_search_result_url_witness :
  extract_video_id (init None) (url SearchExamples.sample_video) = Some (video_id SearchExamples.sample_video).
Proof.
  apply (extract_search_result_url (init None) SearchExamples.sample_item SearchExamples.sample_video);
    reflexivity.
Defined.

End VideoIds.

(* ------------------------------------------------------------------------- *)
(** ** The video search *)

Module VideoSearch.
Import Py Re PyStr YouTubeIntegration YouTubeVideos.
Import PyFacts ReFacts DurationFacts.

Lemma details_zero self video_ids response :
  Forall (fun d => duration_seconds d = 0)
         (_get_video_details self video_ids response).
Proof.
  unfold _get_video_details.
  destruct response as [items|e]; cbn [bind].
  - destruct (for_items self items []) as [out|e] eqn:E; cbn [try_except].
    + exact (Duration.for_items_seconds self items [] out (Forall_nil _) E).
    + apply Forall_forall. intros d Hd. apply repeat_spec in Hd. now subst.
  - cbn [try_except]. apply Forall_forall.
    intros d Hd. apply repeat_spec in Hd. now subst.
Qed.

Lemma video_info_details it v : video_info it = Ok v -> details v = None.
Proof.
  unfold video_info.
  destruct (id_videoId it); [|discriminate].
  destruct (item_snippet it) as [sn|]; [|discriminate].
  cbn [getitem bind].
  destruct (sn_title sn); [|discriminate].
  destruct (sn_description sn); [|discriminate].
  destruct (sn_channelTitle sn); [|discriminate].
  destruct (sn_publishedAt sn); [|discriminate].
  destruct (sn_thumbnail sn); [|discriminate].
  cbn [getitem bind]. intros H. now injection H as <-.
Qed.

Lemma search_items_details items :
  forall acc videos,
    Forall (fun v => details v = None) acc ->
    search_items items acc = Ok videos ->
    Forall (fun v => details v = None) videos.
Proof.
  induction items as [|it items IH]; intros acc videos Hacc H.
  - cbn in H. now injection H as <-.
  - cbn [search_items] in H.
    destruct (video_info it) as [v|] eqn:E; [|discriminate H].
    cbn [bind] in H. refine (IH _ _ _ H).
    apply Forall_app. split; [assumption|].
    constructor; [|constructor]. exact (video_info_details _ _ E).
Qed.

Lemma combine_details_zero videos :
  forall detailed,
    Forall (fun v => details v = None) videos ->
    Forall (fun d => duration_seconds d = 0) detailed ->
    Forall (fun v => get_duration_seconds v = 0)
           (combine_details videos detailed).
Proof.
  induction videos as [|v vs IH]; intros detailed Hv Hd; [constructor|].
  inversion Hv as [|? ? Hv1 Hv2]; subst.
  destruct detailed as [|d ds]; cbn [combine_details].
  - constructor.
    + unfold get_duration_seconds. now rewrite Hv1.
    + apply Forall_forall. rewrite Forall_forall in Hv2.
      intros x Hx. unfold get_duration_seconds. now rewrite (Hv2 x Hx).
  - inversion Hd as [|? ? Hd1 Hd2]; subst.
    constructor; [exact Hd1 | now apply IH].
Qed.

Lemma combine_details_repeat videos d :
  combine_details videos (repeat d (List.length videos))
  = map (fun v => update v d) videos.
Proof.
  induction videos as [|v vs IH]; [reflexivity|].
  cbn [List.length repeat combine_details map]. now rewrite IH.
Qed.

Lemma filter_all {A} (p : A -> bool) l :
  Forall (fun x => p x = true) l -> filter p l = l.
Proof.
  induction 1 as [|x l Hx _ IH]; [reflexivity|].
  cbn [filter]. now rewrite Hx, IH.
Qed.

(** X7: when the search request succeeds and the details request fails,
    there is no fall-back to the placeholder videos: every video of the
    search is returned, carrying the duration "Unknown" and zero counts. *)
Theorem details_failure_keeps_search_results
        (self : t) (net : api) (topic video_duration : string)
        (max_results : Z) (items : list search_item) (videos : list video)
        (e : exn) :
  search_response net = Ok items ->
  search_items items [] = Ok videos ->
  details_response net (map video_id videos) = Raise e ->
  _search_with_api self net topic max_results video_duration
  = map (fun v => update v unknown_detail) videos.
Proof.
  intros Hs Hv Hd. unfold _search_with_api.
  rewrite Hs. cbn [bind]. rewrite Hv. cbn [bind try_except].
  rewrite Hd. unfold _get_video_details. cbn [bind try_except].
  rewrite length_map. apply combine_details_repeat.
Qed.

Lemma details_failure_keeps_search_results_witness :
  _search_with_api (init (Some "key")) SearchExamples.failing_details "topic" 5 "medium"
  = map (fun v => update v unknown_detail) [SearchExamples.sample_video].
Proof.
  apply (details_failure_keeps_search_results (init (Some "key"))
           SearchExamples.failing_details "topic" "medium" 5 [SearchExamples.sample_item] [SearchExamples.sample_video]
           HTTPError); reflexivity.
Defined.

(** X8: the videos of a successful search all carry 0 (or nothing) as
    [duration_seconds], so that [filter_videos_by_duration] keeps every one
    of them, whatever non-negative limit is given and however long the
    videos are. *)
Theorem filter_keeps_all_search_results
        (self : t) (net : api) (topic video_duration : string)
        (max_results max_minutes : Z)
        (items : list search_item) (videos : list video) :
  search_response net = Ok items ->
  search_items items [] = Ok videos ->
  0 <= max_minutes ->
  filter_videos_by_duration
    (_search_with_api self net topic max_results video_duration) max_minutes
  = _search_with_api self net topic max_results video_duration.
Proof.
  intros Hs Hv Hm. unfold _search_with_api.
  rewrite Hs. cbn [bind]. rewrite Hv. cbn [bind try_except].
  unfold filter_videos_by_duration. apply filter_all.
  pose proof (combine_details_zero videos _
                (search_items_details _ _ _ (Forall_nil _) Hv)
                (details_zero self (map video_id videos)
                   (details_response net (map video_id videos)))) as H.
  apply Forall_forall. rewrite Forall_forall in H.
  intros v Hin. rewrite (H v Hin). apply Z.leb_le. lia.
Qed.

Lemma filter_keeps_all_search_results_witness :
  filter_videos_by_duration
    (_search_with_api (init (Some "key")) SearchExamples.working_api "topic" 5 "medium") 1
  = _search_with_api (init (Some "key")) SearchExamples.working_api "topic" 5 "medium".
Proof.
  apply (filter_keeps_all_search_results (init (Some "key")) SearchExamples.working_api
           "topic" "medium" 5 1 [SearchExamples.sample_item] [SearchExamples.sample_video]);
    [reflexivity|reflexivity|lia].
Defined.

Lemma slice_to_length {A} (n : Z) (l : list A) :
  List.length (slice_to n l)
  = if n <? 0 then (List.length l - Z.to_nat (- n))%nat
    else Nat.min (Z.to_nat n) (List.length l).
Proof.
  unfold slice_to. destruct (n <? 0); rewrite length_firstn; lia.
Qed.

(** X9: without an API key no request is made and the result is a prefix of
    the three placeholder videos: at most [max_results] of them when
    [max_results] is not negative, and all but the last [-max_results] when
    it is negative. *)
Theorem search_without_key (self : t) (net : api)
        (topic video_duration : string) (max_results : Z) :
  has_key self = false ->
  search_educational_videos self net topic max_results video_duration
  = slice_to max_results (_get_mock_videos self topic 3)
  /\ Z.of_nat (List.length (search_educational_videos self net topic
                              max_results video_duration))
     = if max_results <? 0 then Z.max 0 (3 + max_results)
       else Z.min 3 max_results.
Proof.
  intros Hk. unfold search_educational_videos. rewrite Hk. split.
  - reflexivity.
  - unfold _get_mock_videos. rewrite slice_to_length.
    cbn [List.length]. destruct (Z.ltb_spec max_results 0); lia.
Qed.

Lemma search_without_key_witness :
  search_educational_videos (init None) SearchExamples.working_api "topic" (-1) "medium"
  = slice_to (-1) (_get_mock_videos (init None) "topic" 3)
  /\ Z.of_nat (List.length (search_educational_videos (init None) SearchExamples.working_api
                              "topic" (-1) "medium"))
     = if -1 <? 0 then Z.max 0 (3 + -1) else Z.min 3 (-1).
Proof.
  apply (search_without_key (init None) SearchExamples.working_api "topic" "medium" (-1)).
  reflexivity.
Defined.

Lemma combine_details_shape videos :
  forall detailed,
    Forall2 (fun v r => video_id r = video_id v /\ title r = title v
                        /\ url r = url v
                        /\ (details r = details v \/ exists d, r = update v d))
            videos (combine_details videos detailed).
Proof.
  induction videos as [|v vs IH]; intros detailed; [constructor|].
  destruct detailed as [|d ds]; cbn [combine_details].
  - constructor; [auto 6|].
    clear. induction vs; constructor; auto 6.
  - constructor; [|apply IH]. cbn. eauto 7.
Qed.

Lemma search_items_length items :
  forall acc videos,
    search_items items acc = Ok videos ->
    List.length videos = (List.length acc + List.length items)%nat.
Proof.
  induction items as [|it items IH]; intros acc videos H.
  - cbn in H. injection H as <-. cbn. lia.
  - cbn [search_items] in H.
    destruct (video_info it) as [v|]; [|discriminate H].
    cbn [bind] in H. apply IH in H. rewrite length_app in H.
    cbn [List.length] in *. lia.
Qed.

(** X16: a successful search returns one video for each item of the search
    response, in the order of the response; the details request can only
    add the four detail fields to a video, never drop, reorder or rename
    one. *)
Theorem search_results_preserved
        (self : t) (net : api) (topic video_duration : string)
        (max_results : Z) (items : list search_item) (videos : list video) :
  search_response net = Ok items ->
  search_items items [] = Ok videos ->
  List.length (_search_with_api self net topic max_results video_duration)
  = List.length items
  /\ Forall2 (fun v r => video_id r = video_id v /\ title r = title v
                         /\ url r = url v
                         /\ (details r = details v \/ exists d, r = update v d))
             videos
             (_search_with_api self net topic max_results video_duration).
Proof.
  intros Hs Hv. unfold _search_with_api.
  rewrite Hs. cbn [bind]. rewrite Hv. cbn [bind try_except].
  pose proof (combine_details_shape videos
                (_get_video_details self (map video_id videos)
                   (details_response net (map video_id videos)))) as H.
  split; [|exact H].
  apply Forall2_length in H. rewrite <- H.
  now rewrite (search_items_length _ _ _ Hv).
Qed.

Lemma search_results_preserved_witness :
  List.length (_search_with_api (init (Some "key")) SearchExamples.working_api "topic" 5
                 "medium")
  = List.length [SearchExamples.sample_item]
  /\ Forall2 (fun v r => video_id r = video_id v /\ title r = title v
                         /\ url r = url v
                         /\ (details r = details v \/ exists d, r = update v d))
             [SearchExamples.sample_video]
             (_search_with_api (init (Some "key")) SearchExamples.working_api "topic" 5
                "medium").
Proof.
  apply (search_results_preserved (init (Some "key")) SearchExamples.working_api "topic"
           "medium" 5 [SearchExamples.sample_item] [SearchExamples.sample_video]); reflexivity.
Defined.

End VideoSearch.

(* ------------------------------------------------------------------------- *)
(** ** Facts about [strip] and [split] at a separator *)

Module StrFacts.
Import Py PyStr PyFacts ReFacts.

Lemma lstrip_head s :
  lstrip s = EmptyString
  \/ exists c r, lstrip s = String c r /\ is_space c = false.
Proof.
  induction s as [|c s IH]; cbn [lstrip]; [now left|].
  destruct (is_space c) eqn:E; [exact IH|]. right. eauto.
Qed.

Lemma rstrip_idem s : rstrip (rstrip s) = rstrip s.
Proof.
  induction s as [|c s IH]; [reflexivity|]. cbn [rstrip].
  destruct (rstrip s) as [|c' r] eqn:E.
  - destruct (is_space c) eqn:Ec; [reflexivity|]. cbn [rstrip]. now rewrite Ec.
  - change (rstrip (String c (String c' r)))
      with (match rstrip (String c' r) with
            | EmptyString => if is_space c then EmptyString
                             else String c EmptyString
            | String a b => String c (String a b)
            end).
    now rewrite IH.
Qed.

Lemma rstrip_keeps_head c s :
  is_space c = false -> exists r, rstrip (String c s) = String c r.
Proof.
  intros Hc. cbn [rstrip]. destruct (rstrip s); [rewrite Hc|]; eauto.
Qed.

(** A trimmed text stays as it is when trimmed again, on either side. *)
Lemma strip_stripped s :
  lstrip (strip s) = strip s /\ rstrip (strip s) = strip s.
Proof.
  unfold strip. split; [|apply rstrip_idem].
  destruct (lstrip_head s) as [->|(c & r & -> & Hc)]; [reflexivity|].
  destruct (rstrip_keeps_head c r Hc) as [r' ->]. cbn [lstrip]. now rewrite Hc.
Qed.

Lemma strip_fixed t : lstrip t = t -> rstrip t = t -> strip t = t.
Proof. intros Hl Hr. unfold strip. now rewrite Hl. Qed.

Lemma strip_after_space t :
  lstrip t = t -> rstrip t = t -> strip (" " ++ t) = t.
Proof. intros Hl Hr. unfold strip. cbn [append lstrip]. now rewrite Hl. Qed.

Lemma strip_blank s : all is_space s = true -> strip s = EmptyString.
Proof.
  intros H. unfold strip.
  assert (E : lstrip s = EmptyString).
  { induction s as [|c s IH]; [reflexivity|]. cbn [all] in H.
    apply andb_true_iff in H as [Hc Hs]. cbn [lstrip]. rewrite Hc. auto. }
  now rewrite E.
Qed.

Lemma all_lstrip p s : all p s = true -> all p (lstrip s) = true.
Proof.
  induction s as [|c s IH]; cbn [lstrip]; [auto|].
  intros H. destruct (is_space c); [|exact H].
  cbn [all] in H. apply andb_true_iff in H as [_ H]. auto.
Qed.

Lemma all_rstrip p s : all p s = true -> all p (rstrip s) = true.
Proof.
  induction s as [|c s IH]; cbn [rstrip all]; [auto|].
  intros H. apply andb_true_iff in H as [Hc Hs]. specialize (IH Hs).
  destruct (rstrip s).
  - destruct (is_space c); cbn [all]; [reflexivity | now rewrite Hc].
  - cbn [all] in *. now rewrite Hc, IH.
Qed.

Lemma all_strip p s : all p s = true -> all p (strip s) = true.
Proof. intros H. unfold strip. now apply all_rstrip, all_lstrip. Qed.

Lemma string_of_list_ascii_app a b :
  string_of_list_ascii (a ++ b)
  = string_of_list_ascii a ++ string_of_list_ascii b.
Proof. induction a as [|c a IH]; cbn; [reflexivity | now rewrite IH]. Qed.

Lemma split_on_from_cur sep cur s :
  split_on_from sep cur s
  = match split_on_from sep [] s with
    | hd :: tl => (string_of_list_ascii (rev cur) ++ hd) :: tl
    | [] => []
    end.
Proof.
  revert cur. induction s as [|c s IH]; intros cur; cbn [split_on_from].
  - cbn. now rewrite append_empty_r.
  - destruct (Ascii.eqb c sep).
    + cbn. now rewrite append_empty_r.
    + rewrite (IH (c :: cur)), (IH [c]).
      destruct (split_on_from sep [] s) as [|hd tl]; [reflexivity|].
      cbn [rev app]. rewrite string_of_list_ascii_app. cbn.
      now rewrite append_assoc.
Qed.

Lemma split_on_cons sep c s :
  split_on sep (String c s)
  = if Ascii.eqb c sep then EmptyString :: split_on sep s
    else match split_on sep s with
         | hd :: tl => String c hd :: tl
         | [] => []
         end.
Proof.
  unfold split_on. cbn [split_on_from].
  destruct (Ascii.eqb c sep); [reflexivity|].
  rewrite split_on_from_cur. now destruct (split_on_from sep [] s).
Qed.

Lemma split_on_free sep a :
  all (fun c => negb (Ascii.eqb c sep)) a = true -> split_on sep a = [a].
Proof.
  induction a as [|c a IH]; [reflexivity|]. cbn [all].
  intros H. apply andb_true_iff in H as [Hc Ha].
  rewrite split_on_cons, (IH Ha).
  apply negb_true_iff in Hc. now rewrite Hc.
Qed.

Lemma split_on_free_append sep a b :
  all (fun c => negb (Ascii.eqb c sep)) a = true ->
  split_on sep (a ++ String sep b) = a :: split_on sep b.
Proof.
  induction a as [|c a IH]; cbn [all append].
  - intros _. now rewrite split_on_cons, Ascii.eqb_refl.
  - intros H. apply andb_true_iff in H as [Hc Ha].
    rewrite split_on_cons, (IH Ha).
    apply negb_true_iff in Hc. now rewrite Hc.
Qed.

(** The pieces of a split do not contain the separator. *)
Lemma split_on_pieces sep s :
  Forall (fun piece => all (fun c => negb (Ascii.eqb c sep)) piece = true)
         (split_on sep s).
Proof.
  induction s as [|c s IH]; [repeat constructor|].
  rewrite split_on_cons. destruct (Ascii.eqb c sep) eqn:E.
  - constructor; [reflexivity|assumption].
  - destruct (split_on sep s) as [|hd tl]; [constructor|].
    inversion IH as [|? ? Hhd Htl]; subst.
    constructor; [|assumption]. cbn [all]. now rewrite E, Hhd.
Qed.

End StrFacts.

(* ------------------------------------------------------------------------- *)
(** ** [summarize_content] *)

Module Summaries.
Import Py PyStr Bs4 ContentExtractor ContentTools ToolsSpec.
Import PyFacts ReFacts StrFacts.

Lemma summary_loop_taken sentences :
  forall acc current_length max_length,
    summary_loop sentences acc current_length max_length
    = (acc ++ taken sentences current_length max_length)%list.
Proof.
  induction sentences as [|s rest IH]; intros acc cur n;
    cbn [summary_loop taken]; [now rewrite app_nil_r|].
  destruct (nonempty (strip s) && (cur <? n)); [|now rewrite app_nil_r].
  now rewrite IH, <- app_assoc.
Qed.

Lemma summarize_taken self content max_length :
  summarize_content self content max_length
  = join ". " (taken (split_on "." content) 0 max_length) ++ ".".
Proof. unfold summarize_content. now rewrite summary_loop_taken. Qed.

Lemma nonempty_iff s : nonempty s = true <-> s <> EmptyString.
Proof. destruct s; cbn; split; congruence. Qed.

Lemma taken_kept sentences :
  Forall (fun piece => all not_dot piece = true) sentences ->
  forall current_length max_length,
    kept (taken sentences current_length max_length) current_length max_length.
Proof.
  induction 1 as [|s rest Hs _ IH]; intros cur n; cbn [taken]; [exact I|].
  destruct (nonempty (strip s)) eqn:En; cbn [andb]; [|exact I].
  destruct (Z.ltb_spec cur n); [|exact I]. cbn [kept].
  destruct (strip_stripped s) as [Hl Hr].
  repeat split; auto.
  - now apply nonempty_iff.
  - now apply all_strip.
Qed.

Lemma taken_resplit sentences :
  forall current_length max_length,
    kept sentences current_length max_length ->
    taken (resplit sentences) current_length max_length = sentences.
Proof.
  induction sentences as [|t rest IH]; intros cur n H; [reflexivity|].
  destruct H as (Hne & Hl & Hr & _ & Hlt & H).
  cbn [resplit taken]. rewrite (strip_after_space t Hl Hr).
  apply nonempty_iff in Hne. rewrite Hne.
  destruct (Z.ltb_spec cur n); [|lia]. cbn [andb]. now rewrite (IH _ _ H).
Qed.

Lemma join_tail_text t rest :
  join ". " (t :: rest) ++ "." = t ++ tail_text rest.
Proof.
  revert t. induction rest as [|t' rest IH]; intros t; [reflexivity|].
  change (join ". " (t :: t' :: rest)) with (t ++ ". " ++ join ". " (t' :: rest)).
  rewrite !append_assoc, IH. reflexivity.
Qed.

Lemma split_tail_text rest :
  forall a,
    all not_dot a = true ->
    Forall (fun t => all not_dot t = true) rest ->
    split_on "." (a ++ tail_text rest) = a :: resplit rest.
Proof.
  induction rest as [|t rest IH]; intros a Ha Hrest; cbn [tail_text resplit].
  - now rewrite (split_on_free_append "." a "" Ha).
  - inversion Hrest as [|? ? Ht Hr]; subst.
    change (". " ++ t ++ tail_text rest)
      with (String "." ((" " ++ t) ++ tail_text rest)).
    rewrite (split_on_free_append "." a _ Ha). f_equal.
    apply IH; [|assumption]. cbn [append all]. exact Ht.
Qed.

Lemma kept_free sentences :
  forall current_length max_length,
    kept sentences current_length max_length ->
    Forall (fun t => all not_dot t = true) sentences.
Proof.
  induction sentences as [|t rest IH]; intros cur n H; constructor.
  - apply H.
  - destruct H as (_ & _ & _ & _ & _ & H). exact (IH _ _ H).
Qed.

(** X10: the summary is "." alone when the text is blank, when it is blank
    up to its first full stop, or when the word budget is not positive. *)
Theorem summarize_nothing (self : ContentExtractor.t) :
  (forall blank rest max_length,
      all is_space blank = true ->
      summarize_content self (blank ++ String "." rest) max_length = "."
      /\ summarize_content self blank max_length = ".")
  /\ (forall content max_length,
        max_length <= 0 -> summarize_content self content max_length = ".").
Proof.
  split.
  - intros blank rest n Hb.
    assert (Hd : all not_dot blank = true).
    { apply (DurationFacts.all_weaken is_space); [|assumption].
      intros c Hc. unfold not_dot.
      destruct (Ascii.eqb_spec c "."); [subst; discriminate Hc|reflexivity]. }
    rewrite !summarize_taken.
    rewrite (split_on_free_append "." blank rest Hd), (split_on_free "." blank Hd).
    cbn [taken]. now rewrite (strip_blank blank Hb).
  - intros content n Hn. rewrite summarize_taken.
    destruct (split_on "." content) as [|s rest]; [reflexivity|].
    cbn [taken]. destruct (Z.ltb_spec 0 n); [lia|].
    now rewrite andb_false_r.
Qed.

Lemma summarize_nothing_witness :
  summarize_content ContentExtractor.init ("  " ++ String "." " Rest.") 10 = "."
  /\ summarize_content ContentExtractor.init "  " 10 = ".".
Proof.
  apply (proj1 (summarize_nothing ContentExtractor.init) "  " " Rest." 10).
  reflexivity.
Defined.

(** X11: summarising a summary with the same word budget changes
    nothing. *)
Theorem summarize_idempotent (self : ContentExtractor.t) (content : string)
        (max_length : Z) :
  summarize_content self (summarize_content self content max_length) max_length
  = summarize_content self content max_length.
Proof.
  rewrite !summarize_taken.
  pose proof (taken_kept _ (split_on_pieces "." content) 0 max_length) as Hk.
  destruct (taken (split_on "." content) 0 max_length) as [|t rest] eqn:E.
  - reflexivity.
  - rewrite join_tail_text.
    pose proof (kept_free _ _ _ Hk) as Hf.
    inversion Hf as [|? ? Ht Hr]; subst.
    rewrite (split_tail_text rest t Ht Hr).
    destruct Hk as (Hne & Hl & Hr' & _ & Hlt & Hk).
    cbn [taken]. rewrite (strip_fixed t Hl Hr').
    apply nonempty_iff in Hne. rewrite Hne.
    destruct (Z.ltb_spec 0 max_length); [|lia]. cbn [andb].
    rewrite (taken_resplit _ _ _ Hk). now rewrite join_tail_text.
Qed.

End Summaries.

(* ------------------------------------------------------------------------- *)
(** ** [extract_key_concepts] *)

Module Concepts.
Import Py PyStr Bs4 ContentExtractor ContentTools ToolsSpec.
Import PyFacts ReFacts StrFacts.

Lemma substring_length_le n s : (String.length (substring 0 n s) <= n)%nat.
Proof.
  revert s. induction n as [|n IH]; intros s.
  - destruct s; cbn; lia.
  - destruct s as [|c s]; cbn [substring String.length]; [lia|].
    specialize (IH s). lia.
Qed.

Lemma concept_of_shape i sentence c :
  concept_of i sentence = Some c ->
  concept_name c = "Concept " ++ str (i + 1)
  /\ definition c = strip sentence
  /\ 50 < len (definition c)
  /\ 10 < Z.of_nat (List.length (split (definition c)))
  /\ (exists keyword, In keyword concept_keywords
                      /\ str_in keyword (PyStr.lower (definition c)) = true)
  /\ len (context c) <= 103
  /\ importance c = (if i <? 3 then "high" else "medium").
Proof.
  unfold concept_of.
  destruct (Z.ltb_spec 50 (len (strip sentence))) as [H50|]; [|discriminate].
  destruct (existsb _ concept_keywords) eqn:Ek; [|discriminate]. cbn [andb].
  destruct (Z.ltb_spec 10 (Z.of_nat (List.length (split (strip sentence)))))
    as [H10|]; [|discriminate].
  intros H. injection H as <-.
  cbn [concept_name definition context importance].
  do 4 (split; [first [reflexivity | assumption]|]).
  split; [|split; [|reflexivity]].
  - apply existsb_exists in Ek as (k & Hk & Ek). exists k. now split.
  - destruct (Z.ltb_spec 100 (len (strip sentence))) as [H100|H100];
      [|unfold len in *; lia].
    unfold len, str_slice_to. rewrite length_append. cbn [String.length].
    pose proof (substring_length_le 100 (strip sentence)). lia.
Qed.

Lemma concepts_loop_source sentences :
  forall i acc c,
    In c (concepts_loop i sentences acc) ->
    In c acc
    \/ exists j sentence,
         nth_error sentences j = Some sentence
         /\ concept_of (i + Z.of_nat j) sentence = Some c.
Proof.
  induction sentences as [|s rest IH]; intros i acc c H;
    cbn [concepts_loop] in H; [now left|].
  destruct (concept_of i s) as [c'|] eqn:E.
  - apply IH in H as [H|(j & x & Hj & Hc)].
    + apply in_app_or in H as [H|[<-|[]]]; [now left|].
      right. exists O, s. split; [reflexivity|]. now rewrite Z.add_0_r.
    + right. exists (S j), x. split; [exact Hj|].
      now replace (i + Z.of_nat (S j)) with (i + 1 + Z.of_nat j) by lia.
  - apply IH in H as [H|(j & x & Hj & Hc)]; [now left|].
    right. exists (S j), x. split; [exact Hj|].
    now replace (i + Z.of_nat (S j)) with (i + 1 + Z.of_nat j) by lia.
Qed.

Lemma concepts_loop_length sentences :
  forall i acc,
    (List.length (concepts_loop i sentences acc)
     <= List.length acc + List.length sentences)%nat.
Proof.
  induction sentences as [|s rest IH]; intros i acc; cbn [concepts_loop].
  - cbn. lia.
  - destruct (concept_of i s).
    + specialize (IH (i + 1) (acc ++ [c])%list).
      rewrite length_app in IH. cbn [List.length] in *. lia.
    + specialize (IH (i + 1) acc). cbn [List.length]. lia.
Qed.

Lemma nth_error_slice_to {A} (n : Z) (l : list A) j x :
  nth_error (slice_to n l) j = Some x ->
  nth_error l j = Some x /\ (0 <= n -> Z.of_nat j < n).
Proof.
  unfold slice_to. destruct (Z.ltb_spec n 0) as [Hn|Hn]; intros H.
  - rewrite nth_error_firstn in H.
    destruct (Nat.ltb _ _); [|discriminate]. split; [assumption|lia].
  - rewrite nth_error_firstn in H.
    destruct (Nat.ltb_spec j (Z.to_nat n)); [|discriminate].
    split; [assumption|lia].
Qed.

(** X12: every concept is built from one of the first [max_concepts]
    sentences of the text, trimmed: it is numbered after the position of
    that sentence, its definition has more than 50 characters and more than
    10 words and mentions one of the five key words (in any letter case),
    and its context has at most 103 characters.  No more than
    [max_concepts] concepts are returned. *)
Theorem key_concepts_shape (self : ContentExtractor.t) (content : string)
        (max_concepts : Z) :
  (0 <= max_concepts ->
   Z.of_nat (List.length (extract_key_concepts self content max_concepts))
   <= max_concepts)
  /\ forall c,
       In c (extract_key_concepts self content max_concepts) ->
       exists i sentence,
         nth_error (split_on "." content) i = Some sentence
         /\ (0 <= max_concepts -> Z.of_nat i < max_concepts)
         /\ concept_name c = "Concept " ++ str (Z.of_nat i + 1)
         /\ definition c = strip sentence
         /\ 50 < len (definition c)
         /\ 10 < Z.of_nat (List.length (split (definition c)))
         /\ (exists keyword, In keyword concept_keywords
                             /\ str_in keyword (PyStr.lower (definition c)) = true)
         /\ len (context c) <= 103.
Proof.
  unfold extract_key_concepts. split.
  - intros Hn.
    pose proof (concepts_loop_length
                  (slice_to max_concepts (split_on "." content)) 0 []) as H.
    rewrite VideoSearch.slice_to_length in H.
    destruct (Z.ltb_spec max_concepts 0); [lia|]. cbn [List.length] in H. lia.
  - intros c Hc. apply concepts_loop_source in Hc as [[]|(j & x & Hj & Hc)].
    apply nth_error_slice_to in Hj as [Hj Hlt].
    apply concept_of_shape in Hc as (H1 & H2 & H3 & H4 & H5 & H6 & _).
    exists j, x. rewrite Z.add_0_l in H1. auto 10.
Qed.

Lemma key_concepts_shape_witness :
  Z.of_nat (List.length
              (extract_key_concepts ContentExtractor.init
                 "The concept of recursion means that a function is allowed to call itself on smaller inputs until done. Short one" 1))
  <= 1.
Proof.
  apply (proj1 (key_concepts_shape ContentExtractor.init _ 1)). lia.
Defined.

End Concepts.

(* ------------------------------------------------------------------------- *)
(** ** [clean_text] *)

Module Cleaning.
Import Py Re ReClass PyStr Bs4 HtmlParser ContentExtractor ContentTools ToolsSpec.
Import PyFacts ReFacts StrFacts ReClassFacts.

Lemma star_rest p s x :
  star p s (fun s' => Some {| m_groups := []; m_rest := s' |}) = Some x ->
  (String.length (m_rest x) <= String.length s)%nat.
Proof.
  revert x. induction s as [|c s IH]; intros x; cbn [star].
  - intros H. injection H as <-. cbn. lia.
  - destruct (p c).
    + destruct (star p s _) as [y|] eqn:E; cbn [orelse].
      * intros H. injection H as <-. specialize (IH y eq_refl).
        cbn [String.length]. lia.
      * intros H. injection H as <-. cbn. lia.
    + intros H. injection H as <-. cbn. lia.
Qed.

(** A match of [[p]+] starts with a character of the class and consumes
    it. *)
Lemma match_Plus p c s m :
  match_ (Plus p) (String c s) = Some m ->
  p c = true /\ (String.length (m_rest m) < String.length (String c s))%nat.
Proof.
  unfold match_. cbn [run]. destruct (p c); [|discriminate].
  intros H. apply star_rest in H. cbn [String.length]. split; [reflexivity|lia].
Qed.

Lemma in_all_chars c : In c all_chars.
Proof.
  unfold all_chars. rewrite <- (ascii_nat_embedding c).
  apply in_map, in_seq. pose proof (nat_ascii_bounded c). lia.
Qed.

Lemma existsb_filter_chars p c :
  existsb (Ascii.eqb c) (filter p all_chars) = p c.
Proof.
  destruct (p c) eqn:E.
  - apply existsb_exists. exists c. split; [|apply Ascii.eqb_refl].
    apply filter_In. split; [apply in_all_chars|assumption].
  - apply not_true_is_false. intros H.
    apply existsb_exists in H as (x & Hx & Hc).
    apply Ascii.eqb_eq in Hc. subst x. apply filter_In in Hx as [_ Hx].
    congruence.
Qed.

(** A class matches one character of the class. *)
Lemma match_class p c s :
  match_ (class p) (String c s)
  = if p c then Some {| m_groups := []; m_rest := s |} else None.
Proof.
  unfold match_, class. now rewrite run_any_of, existsb_filter_chars.
Qed.

(** Replacing every white-space run by one blank leaves no other white
    space. *)
Lemma sub_spaces_fuel fuel :
  forall s, all plain_space (sub_fuel fuel (Plus is_space) " " s) = true
            \/ (String.length s > fuel)%nat.
Proof.
  induction fuel as [|fuel IH]; intros s.
  - destruct s; [now left|right; cbn; lia].
  - destruct s as [|c s]; [now left|]. cbn [sub_fuel].
    destruct (match_ (Plus is_space) (String c s)) as [m|] eqn:E.
    + apply match_Plus in E as [_ Hlt].
      destruct (Nat.ltb_spec (String.length (m_rest m))
                             (String.length (String c s))) as [_|?]; [|lia].
      destruct (IH (m_rest m)) as [H|H]; [left|cbn [String.length] in *; lia].
      cbn [append all]. exact H.
    + assert (Hc : is_space c = false).
      { unfold match_ in E. cbn [run] in E.
        destruct (is_space c); [|reflexivity].
        destruct (star is_space s _) eqn:F; [discriminate|].
        exfalso. clear -F. induction s as [|a s IHs]; cbn [star] in F;
          [discriminate|].
        destruct (is_space a); [|discriminate].
        destruct (star is_space s _); discriminate. }
      destruct (IH s) as [H|H]; [left|right; cbn [String.length]; lia].
      cbn [all]. unfold plain_space at 1. now rewrite Hc, H.
Qed.

Lemma sub_spaces s : all plain_space (sub (Plus is_space) " " s) = true.
Proof. unfold sub. destruct (sub_spaces_fuel (String.length s) s); [assumption|lia]. Qed.

(** Removing the characters of a class keeps the others, in order. *)
Lemma sub_class_fuel p q fuel :
  forall s,
    all q s = true ->
    all (fun c => q c && negb (p c)) (sub_fuel fuel (class p) "" s) = true
    \/ (String.length s > fuel)%nat.
Proof.
  induction fuel as [|fuel IH]; intros s Hq.
  - destruct s; [now left|right; cbn; lia].
  - destruct s as [|c s]; [now left|]. cbn [sub_fuel].
    cbn [all] in Hq. apply andb_true_iff in Hq as [Hc Hs].
    rewrite match_class. destruct (p c) eqn:Ep.
    + cbn [m_rest]. destruct (Nat.ltb_spec (String.length s)
                                           (String.length (String c s)))
        as [_|?]; [|cbn [String.length] in *; lia].
      destruct (IH s Hs) as [H|H]; [left|right; cbn [String.length]; lia].
      exact H.
    + destruct (IH s Hs) as [H|H]; [left|right; cbn [String.length]; lia].
      cbn [all]. now rewrite Hc, Ep, H.
Qed.

(** X15: the cleaned text consists of word characters, blanks and the
    punctuation [. , ! ? ; : - ( )] only; its only white space is U+0020;
    and it neither starts nor ends with white space. *)
Theorem clean_text_shape (text : string) :
  all kept_char (clean_text text) = true
  /\ all plain_space (clean_text text) = true
  /\ strip (clean_text text) = clean_text text.
Proof.
  unfold clean_text.
  set (t1 := sub (Plus is_space) " " text).
  assert (H : all (fun c => plain_space c && negb (negb (kept_char c)))
                  (sub (class (fun c => negb (kept_char c))) "" t1) = true).
  { unfold sub.
    destruct (sub_class_fuel (fun c => negb (kept_char c)) plain_space
                (String.length t1) t1 (sub_spaces text)); [assumption|lia]. }
  set (t2 := sub (class (fun c => negb (kept_char c))) "" t1) in *.
  repeat split.
  - apply all_strip. revert H. apply DurationFacts.all_weaken.
    intros c Hc. apply andb_true_iff in Hc as [_ Hc].
    now rewrite negb_involutive in Hc.
  - apply all_strip. revert H. apply DurationFacts.all_weaken.
    intros c Hc. now apply andb_true_iff in Hc as [Hc _].
  - destruct (strip_stripped t2) as [Hl Hr]. now apply strip_fixed.
Qed.

End Cleaning.

(* ------------------------------------------------------------------------- *)
(** ** [extract_keywords] *)

Module Keywords.
Import Py PyStr ContentTools ToolsSpec.

(** *** The dictionary *)

Lemma dict_get_set_same k v d : dict_get k (dict_set k v d) = Some v.
Proof.
  induction d as [|[k' v'] d IH]; cbn [dict_set dict_get].
  - now rewrite String.eqb_refl.
  - destruct (String.eqb k' k) eqn:E; cbn [dict_get]; now rewrite E.
Qed.

Lemma dict_get_set_other k k' v d :
  k <> k' -> dict_get k' (dict_set k v d) = dict_get k' d.
Proof.
  intros Hne. induction d as [|[k0 v0] d IH]; cbn [dict_set dict_get].
  - apply String.eqb_neq in Hne. now rewrite Hne.
  - destruct (String.eqb_spec k0 k) as [->|Hk]; cbn [dict_get].
    + apply String.eqb_neq in Hne. now rewrite Hne.
    + now rewrite IH.
Qed.

Lemma dict_set_keys k v d x :
  In x (map fst (dict_set k v d)) <-> x = k \/ In x (map fst d).
Proof.
  induction d as [|[k0 v0] d IH]; cbn [dict_set map fst In].
  - intuition.
  - destruct (String.eqb_spec k0 k) as [->|Hk]; cbn [map fst In].
    + intuition.
    + rewrite IH. intuition.
Qed.

Lemma dict_set_NoDup k v d :
  NoDup (map fst d) -> NoDup (map fst (dict_set k v d)).
Proof.
  induction d as [|[k0 v0] d IH]; cbn [dict_set map fst]; intros H.
  - repeat constructor. intros [].
  - inversion H as [|? ? Hn Hd]; subst.
    destruct (String.eqb_spec k0 k) as [->|Hk]; cbn [map fst].
    + now constructor.
    + constructor; [|now apply IH].
      rewrite dict_set_keys. intros [E|E]; [congruence|contradiction].
Qed.

Lemma dict_get_In k v d :
  NoDup (map fst d) -> In (k, v) d -> dict_get k d = Some v.
Proof.
  induction d as [|[k0 v0] d IH]; cbn [map fst In dict_get]; [intros _ []|].
  intros H [E|E]; inversion H as [|? ? Hn Hd]; subst.
  - injection E as -> ->. now rewrite String.eqb_refl.
  - destruct (String.eqb_spec k0 k) as [->|Hk]; [|now apply IH].
    exfalso. apply Hn. now apply (in_map fst) in E.
Qed.

Lemma dict_get_None k d : ~ In k (map fst d) -> dict_get k d = None.
Proof.
  induction d as [|[k0 v0] d IH]; cbn [map fst In dict_get]; [reflexivity|].
  intros H. destruct (String.eqb_spec k0 k) as [->|Hk]; [|apply IH]; tauto.
Qed.

(** *** Counting *)

Lemma occurrences_cons word rest w :
  occurrences (word :: rest) w
  = (if String.eqb word w then 1 else 0) + occurrences rest w.
Proof.
  unfold occurrences. cbn [count_occ].
  destruct (string_dec word w) as [->|Hne].
  - rewrite String.eqb_refl. lia.
  - apply String.eqb_neq in Hne. rewrite Hne. lia.
Qed.

Lemma occurrences_In words w : 0 < occurrences words w <-> In w words.
Proof.
  unfold occurrences. rewrite (count_occ_In string_dec). lia.
Qed.

Lemma value_of_set_same k v d : value_of (dict_set k v d) k = v.
Proof. unfold value_of. now rewrite dict_get_set_same. Qed.

Lemma value_of_set_other k k' v d :
  k <> k' -> value_of (dict_set k v d) k' = value_of d k'.
Proof. intros H. unfold value_of. now rewrite dict_get_set_other. Qed.

(** After the loop every key is a countable word of the text, and its value
    is the number of times it was seen. *)
Lemma count_words_spec words :
  forall d,
    NoDup (map fst d) ->
    NoDup (map fst (count_words words d))
    /\ (forall w, value_of (count_words words d) w
                  = value_of d w
                    + (if countable w then occurrences words w else 0))
    /\ (forall w, In w (map fst (count_words words d))
                  <-> In w (map fst d) \/ (countable w = true /\ In w words)).
Proof.
  induction words as [|word rest IH]; intros d Hd; cbn [count_words].
  - split; [assumption|]. split.
    + intros w. unfold occurrences. cbn. destruct (countable w); lia.
    + intros w. cbn [In]. tauto.
  - fold (countable word). destruct (countable word) eqn:Ec.
    + destruct (IH _ (dict_set_NoDup word (value_of d word + 1) d Hd))
        as (H1 & H2 & H3).
      split; [exact H1|]. split.
      * intros w. rewrite H2, occurrences_cons.
        destruct (String.eqb_spec word w) as [->|Hne].
        -- rewrite value_of_set_same, Ec. lia.
        -- rewrite (value_of_set_other _ _ _ _ Hne).
           destruct (countable w); lia.
      * intros w. rewrite H3, dict_set_keys. cbn [In].
        split; [intros [[->|H]|[H H']]|intros [H|[H [->|H']]]]; auto.
    + destruct (IH d Hd) as (H1 & H2 & H3).
      split; [exact H1|]. split.
      * intros w. rewrite H2, occurrences_cons.
        destruct (String.eqb_spec word w) as [->|Hne];
          [rewrite Ec|destruct (countable w)]; lia.
      * intros w. rewrite H3. cbn [In].
        split; [intros [H|[H H']]|intros [H|[H [->|H']]]]; auto.
        congruence.
Qed.

Lemma word_freq_items words w n :
  In (w, n) (count_words words []) ->
  countable w = true /\ In w words /\ n = occurrences words w.
Proof.
  intros H. destruct (count_words_spec words [] (NoDup_nil _)) as (H1 & H2 & H3).
  assert (Hk : In w (map fst (count_words words [])))
    by (apply (in_map fst) in H; exact H).
  apply H3 in Hk as [[]|[Hc Hin]].
  split; [assumption|]. split; [assumption|].
  specialize (H2 w). unfold value_of in H2 at 1.
  rewrite (dict_get_In _ _ _ H1 H), Hc in H2. cbn in H2. lia.
Qed.

(** *** Sorting *)

Lemma insert_desc_perm x l : Permutation (insert_desc x l) (x :: l).
Proof.
  induction l as [|y l IH]; cbn [insert_desc]; [reflexivity|].
  destruct (snd y <? snd x); [reflexivity|].
  rewrite IH. apply perm_swap.
Qed.

Lemma insert_desc_sorted x l :
  StronglySorted by_count l -> StronglySorted by_count (insert_desc x l).
Proof.
  induction 1 as [|y l Hs IH Hy]; cbn [insert_desc].
  - repeat constructor.
  - destruct (Z.ltb_spec (snd y) (snd x)) as [Hlt|Hge].
    + constructor; [now constructor|].
      constructor; [unfold by_count; lia|].
      rewrite Forall_forall in *. intros z Hz. specialize (Hy z Hz).
      unfold by_count in *. lia.
    + constructor; [assumption|].
      apply (Permutation_Forall (Permutation_sym (insert_desc_perm x l))).
      constructor; [exact Hge|assumption].
Qed.

Lemma sorted_desc_spec items :
  Permutation (sorted_desc items) items
  /\ StronglySorted by_count (sorted_desc items).
Proof.
  unfold sorted_desc.
  assert (H : forall acc,
             StronglySorted by_count acc ->
             Permutation (fold_left (fun a x => insert_desc x a) items acc)
                         (acc ++ items)
             /\ StronglySorted by_count
                  (fold_left (fun a x => insert_desc x a) items acc)).
  { induction items as [|x items IH]; intros acc Hacc; cbn [fold_left].
    - rewrite app_nil_r. auto.
    - destruct (IH _ (insert_desc_sorted x acc Hacc)) as [Hp Hs].
      split; [|exact Hs]. rewrite Hp, insert_desc_perm.
      now rewrite <- Permutation_middle. }
  destruct (H [] (SSorted_nil _)) as [Hp Hs]. auto.
Qed.

Lemma firstn_In {A} k (l : list A) x : In x (firstn k l) -> In x l.
Proof.
  revert l. induction k as [|k IH]; intros [|y l]; cbn [firstn In]; try tauto.
  intros [H|H]; auto.
Qed.

Lemma firstn_NoDup {A} k (l : list A) : NoDup l -> NoDup (firstn k l).
Proof.
  revert l. induction k as [|k IH]; intros [|y l] H; cbn [firstn];
    try constructor.
  - inversion H; subst. intros Hin. apply firstn_In in Hin. contradiction.
  - inversion H; subst. now apply IH.
Qed.

Lemma slice_to_firstn {A} (n : Z) (l : list A) :
  exists k, slice_to n l = firstn k l.
Proof. unfold slice_to. destruct (n <? 0); eauto. Qed.

Lemma sorted_nth l :
  StronglySorted by_count l ->
  forall i j x y,
    (i < j)%nat -> nth_error l i = Some x -> nth_error l j = Some y ->
    snd y <= snd x.
Proof.
  induction 1 as [|z l Hs IH Hz]; intros i j x y Hij Hi Hj.
  - destruct i; discriminate.
  - destruct j as [|j]; [lia|]. cbn [nth_error] in Hj.
    destruct i as [|i]; cbn [nth_error] in Hi.
    + injection Hi as <-. rewrite Forall_forall in Hz.
      apply (Hz y). eapply nth_error_In; eauto.
    + apply (IH i j); auto. lia.
Qed.

Lemma keyword_items content max_keywords :
  exists k,
    extract_keywords content max_keywords
    = map fst (firstn k (sorted_desc
                           (count_words (split (PyStr.lower content)) []))).
Proof.
  unfold extract_keywords.
  destruct (slice_to_firstn max_keywords
              (sorted_desc (count_words (split (PyStr.lower content)) [])))
    as [k ->]. eauto.
Qed.

(** X13: no keyword is returned twice; every keyword is an alphabetic word
    of more than three letters of the lower-cased text; and no more than
    [max_keywords] keywords are returned. *)
Theorem keywords_distinct_words (content : string) (max_keywords : Z) :
  NoDup (extract_keywords content max_keywords)
  /\ (forall w, In w (extract_keywords content max_keywords) ->
                In w (split (PyStr.lower content))
                /\ 3 < len w /\ isalpha w = true)
  /\ (0 <= max_keywords ->
      Z.of_nat (List.length (extract_keywords content max_keywords))
      <= max_keywords).
Proof.
  set (words := split (PyStr.lower content)).
  destruct (sorted_desc_spec (count_words words [])) as [Hp Hs].
  destruct (count_words_spec words [] (NoDup_nil _)) as (Hn & _ & _).
  split; [|split].
  - destruct (keyword_items content max_keywords) as [k ->]. fold words.
    rewrite <- firstn_map. apply firstn_NoDup.
    apply (Permutation_NoDup (Permutation_sym (Permutation_map fst Hp))).
    exact Hn.
  - intros w Hw.
    destruct (keyword_items content max_keywords) as [k E]. fold words in E.
    rewrite E in Hw. apply in_map_iff in Hw as ([w' n] & <- & Hw).
    apply firstn_In in Hw. apply (Permutation_in _ Hp) in Hw.
    apply word_freq_items in Hw as (Hc & Hin & _).
    unfold countable in Hc. apply andb_true_iff in Hc as [H3 Ha].
    apply Z.ltb_lt in H3. auto.
  - intros Hm. unfold extract_keywords. rewrite length_map.
    rewrite VideoSearch.slice_to_length.
    destruct (Z.ltb_spec max_keywords 0); lia.
Qed.

Lemma keywords_distinct_words_witness :
  Z.of_nat (List.length (extract_keywords "beta alpha beta gamma alpha beta" 2))
  <= 2.
Proof.
  apply (proj2 (proj2 (keywords_distinct_words
                         "beta alpha beta gamma alpha beta" 2))). lia.
Defined.

(** X14: keywords come in order of frequency: a keyword never occurs more
    often in the lower-cased text than a keyword listed before it. *)
Theorem keywords_by_frequency (content : string) (max_keywords : Z)
        (i j : nat) (a b : string) :
  (i < j)%nat ->
  nth_error (extract_keywords content max_keywords) i = Some a ->
  nth_error (extract_keywords content max_keywords) j = Some b ->
  occurrences (split (PyStr.lower content)) b
  <= occurrences (split (PyStr.lower content)) a.
Proof.
  set (words := split (PyStr.lower content)).
  destruct (sorted_desc_spec (count_words words [])) as [Hp Hs].
  destruct (keyword_items content max_keywords) as [k ->]. fold words.
  intros Hij Ha Hb.
  rewrite nth_error_map in Ha, Hb.
  destruct (nth_error _ i) as [[a' na]|] eqn:Ea; [|discriminate].
  destruct (nth_error _ j) as [[b' nb]|] eqn:Eb; [|discriminate].
  cbn in Ha, Hb. injection Ha as ->. injection Hb as ->.
  rewrite nth_error_firstn in Ea, Eb.
  destruct (Nat.ltb i k); [|discriminate].
  destruct (Nat.ltb j k); [|discriminate].
  pose proof (sorted_nth _ Hs i j _ _ Hij Ea Eb) as Hle. cbn [snd] in Hle.
  apply nth_error_In in Ea, Eb.
  apply (Permutation_in _ Hp) in Ea, Eb.
  apply word_freq_items in Ea as (_ & _ & ->).
  apply word_freq_items in Eb as (_ & _ & ->). exact Hle.
Qed.

Lemma keywords_by_frequency_witness :
  occurrences (split (PyStr.lower "beta alpha beta gamma alpha beta")) "alpha"
  <= occurrences (split (PyStr.lower "beta alpha beta gamma alpha beta")) "beta".
Proof.
  apply (keywords_by_frequency "beta alpha beta gamma alpha beta" 10
           0 1 "beta" "alpha"); [lia|vm_compute; reflexivity..].
Defined.

End Keywords.
